(** * The generic RBM training engine of dll (include/dll/trainer/rbm_trainer.hpp)

    A shallow embedding of [dll::rbm_trainer] and proofs about its epoch and
    batch loops, its shuffle policy, its momentum schedule and its
    diagnostics.

    Conventions of the embedding:
    - [double] values are binary64 primitive floats; a [size_t] is an [N]
      and the two counters the engine increments wrap at [2^64];
    - a sample (an etl container of scalars) is the list of its elements,
      each a [double];
    - the C++ objects the engine mutates (the layer, the [rbm_trainer]
      members, the process-wide random engine, [std::cout], the sample
      ranges) are the fields of one record, [world], threaded through every
      function; the batch trainer, the per-epoch context and a data generator
      are locals of [train] and are passed explicitly;
    - a loop whose termination the code does not ensure takes fuel, and
      C++ undefined behaviour is an outcome of its own.

    The SVM support of a network (include/dll/svm_common.hpp) is embedded
    after the engine, with the same conventions; a stream is the sequence
    of its characters. *)

From Stdlib Require Import ZArith NArith List Floats Lia.
From Stdlib.Strings Require Import Byte.
From stdpp Require Import base list strings.

(** ** Outcomes of a run *)

Inductive outcome (A : Type) : Type :=
| Done (a : A)
| OutOfFuel
| Undefined.
Arguments Done {A} a.
Arguments OutOfFuel {A}.
Arguments Undefined {A}.

#[global] Instance outcome_ret : MRet outcome := @Done.
#[global] Instance outcome_bind : MBind outcome := fun A B f m =>
  match m with
  | Done a => f a
  | OutOfFuel => OutOfFuel
  | Undefined => Undefined
  end.

(** The value of a run that ended. *)
Definition result {A : Type} (o : outcome A) : option A :=
  match o with
  | Done a => Some a
  | _ => None
  end.

(** ** Numbers *)

(** Conversion of a [size_t] to [double], rounding to nearest even. *)
Definition size_to_double (n : N) : float :=
  SF2Prim (binary_normalize prec emax (Z.of_N n) 0 false).

(** [++n] on a [size_t]. *)
Definition size_succ (n : N) : N := ((n + 1) mod 2 ^ 64)%N.

(** A [double] that is neither a NaN nor an infinity. *)
Definition finite (v : float) : bool :=
  match Prim2SF v with
  | S754_zero _ | S754_finite _ _ _ => true
  | _ => false
  end.

(** ** Samples and batches *)

Definition sample : Type := list float.

(** Modelled from the spec: [make_batch] (dll/util/batch.hpp) is not part of
    the sources. Section 3: a batch is a bounded view, without copy, over a
    contiguous run of a range; here the elements between two cursors. *)
Definition make_batch (l : list sample) (first last : nat) : list sample :=
  take (last - first) (drop first l).

(** The consecutive runs of [n] elements of [l], the last of which holds
    what is left; [fuel] bounds their number. *)
Fixpoint chunks_upto {A : Type} (fuel n : nat) (l : list A) : list (list A) :=
  match fuel with
  | O => []
  | S fuel' =>
      match l with
      | [] => []
      | _ => take n l :: chunks_upto fuel' n (drop n l)
      end
  end.

Definition chunks {A : Type} (n : nat) (l : list A) : list (list A) :=
  chunks_upto (length l) n l.

(** The number of batches of at most [n] samples that cover [size] samples. *)
Definition ceil_div (size n : nat) : nat := (size + n - 1) / n.

(** ** The per-epoch training context *)

(** Modelled from the spec: dll/trainer/rbm_training_context.hpp is not part
    of the sources. Section 3 of the specification gives its five fields;
    a context created for an epoch starts with every accumulator at zero. *)
Record rbm_training_context : Type := {
  reconstruction_error : float;
  sparsity : float;
  free_energy : float;
  batch_error : float;
  batch_sparsity : float
}.

Definition new_context : rbm_training_context :=
  {| reconstruction_error := 0; sparsity := 0; free_energy := 0;
     batch_error := 0; batch_sparsity := 0 |}.

Definition set_reconstruction_error (c : rbm_training_context) (x : float)
    : rbm_training_context :=
  {| reconstruction_error := x; sparsity := sparsity c; free_energy := free_energy c;
     batch_error := batch_error c; batch_sparsity := batch_sparsity c |}.

Definition set_sparsity (c : rbm_training_context) (x : float) : rbm_training_context :=
  {| reconstruction_error := reconstruction_error c; sparsity := x;
     free_energy := free_energy c;
     batch_error := batch_error c; batch_sparsity := batch_sparsity c |}.

Definition set_free_energy (c : rbm_training_context) (x : float) : rbm_training_context :=
  {| reconstruction_error := reconstruction_error c; sparsity := sparsity c;
     free_energy := x;
     batch_error := batch_error c; batch_sparsity := batch_sparsity c |}.

(** ** Compile-time configuration *)

(** [rbm_layer_traits<rbm_t>]: the capabilities a layer type declares. *)
Record layer_traits : Type := {
  has_shuffle : bool;
  has_momentum : bool;
  has_init_weights : bool;
  has_free_energy : bool;
  is_verbose : bool
}.

(** The template arguments of [rbm_trainer] and the [DLL_SILENT] macro. *)
Record build : Type := {
  traits : layer_traits;
  EnableWatcher : bool;
  Denoising : bool;
  DLL_SILENT : bool
}.

(** The two lines of the diagnostic of [init_training]. *)
Definition warning_lines : list string :=
  [ "WARNING: The number of samples should be divisible by the batch size";
    "         This may cause discrepancies in the results." ]%string.

(** The sample ranges a run touches: the caller's two ranges, the two
    vectors local to [train] and the clean copy local to
    [train_denoising_auto] (whose corrupted copy is [input_copy]). *)
Inductive range_id : Type :=
| caller_input
| caller_expected
| input_copy
| expected_copy
| input_clean.

#[global] Instance range_id_eq_dec : EqDecision range_id.
Proof. solve_decision. Defined.

(** ** The engine *)

Section Engine.

(** The learnable parameters of the layer, the batch trainer object, the
    data generator and the state of [dll::rand_engine()]. *)
Context {weights_t trainer_t generator_t rand_state : Type}.

(** The layer: its parameters, its momentum schedule and the batch size it
    declares. *)
Record rbm_t : Type := {
  weights : weights_t;
  momentum : float;
  initial_momentum : float;
  final_momentum : float;
  final_momentum_epoch : N;
  layer_batch_size : N
}.

Definition set_momentum (r : rbm_t) (m : float) : rbm_t :=
  {| weights := weights r; momentum := m;
     initial_momentum := initial_momentum r;
     final_momentum := final_momentum r;
     final_momentum_epoch := final_momentum_epoch r;
     layer_batch_size := layer_batch_size r |}.

Definition set_weights (r : rbm_t) (w : weights_t) : rbm_t :=
  {| weights := w; momentum := momentum r;
     initial_momentum := initial_momentum r;
     final_momentum := final_momentum r;
     final_momentum_epoch := final_momentum_epoch r;
     layer_batch_size := layer_batch_size r |}.

(** Modelled from the spec: [get_batch_size] (dll/util/batch.hpp) is not part
    of the sources. Section 4.1, step 1: the batch size is captured from the
    layer's declared batch-size capability, a compile-time or configured
    constant. *)
Definition get_batch_size (r : rbm_t) : N := layer_batch_size r.

(** What the engine consumes from the layer type and from its batch
    trainer ([rbm_t::desc::trainer_t]). Neither is part of the sources:
    they are the template parameters of the engine. A hook reads the layer
    and the batches it is given and yields the parameters it leaves in the
    layer (section 3 of the specification: the trainer mutates the weights
    and biases, the engine the momentum); [trainer_train_batch] also
    receives the context by reference. [weight_cast] is the conversion from
    [double] to [rbm_t::weight]. *)
Record layer_ops : Type := {
  rbm_init_weights : rbm_t -> list sample -> weights_t;
  rbm_init_weights_generator : rbm_t -> generator_t -> weights_t * generator_t;
  rbm_free_energy : rbm_t -> sample -> float;
  make_trainer : rbm_t -> trainer_t;
  trainer_train_batch :
    trainer_t -> rbm_t -> list sample -> list sample -> rbm_training_context ->
    trainer_t * weights_t * rbm_training_context;
  weight_cast : float -> float
}.

(** The data generator interface. *)
Record generator_ops : Type := {
  has_next_batch : generator_t -> bool;
  data_batch : generator_t -> list sample;
  label_batch : generator_t -> list sample;
  next_batch : generator_t -> generator_t;
  reset : generator_t -> generator_t;
  reset_shuffle : generator_t -> rand_state -> generator_t * rand_state;
  set_train : generator_t -> generator_t;
  generator_size : generator_t -> N
}.

(** The notifications a watcher receives, in order. *)
Inductive watcher_event : Type :=
| training_begin (r : rbm_t)
| batch_end (r : rbm_t) (context : rbm_training_context) (batch total : N)
| epoch_end (epoch : N) (context : rbm_training_context) (r : rbm_t)
| training_end (r : rbm_t).

(** The data members of [rbm_trainer]. *)
Record rbm_trainer : Type := {
  watcher : list watcher_event;
  batch_size : N;
  total_batches : N;
  last_error : float;
  batches : N;
  samples : N
}.

(** Everything a run can change. [cout] holds the lines the engine itself
    prints. [trainer_calls] is instrumentation: the argument batches of each
    call of [trainer->train_batch], in call order. *)
Record world : Type := {
  rbm : rbm_t;
  this : rbm_trainer;
  rand_engine : rand_state;
  cout : list string;
  ranges : range_id -> list sample;
  trainer_calls : list (list sample * list sample)
}.

Definition with_rbm (w : world) (r : rbm_t) : world :=
  {| rbm := r; this := this w; rand_engine := rand_engine w; cout := cout w;
     ranges := ranges w; trainer_calls := trainer_calls w |}.

Definition with_this (w : world) (t : rbm_trainer) : world :=
  {| rbm := rbm w; this := t; rand_engine := rand_engine w; cout := cout w;
     ranges := ranges w; trainer_calls := trainer_calls w |}.

Definition with_rand_engine (w : world) (g : rand_state) : world :=
  {| rbm := rbm w; this := this w; rand_engine := g; cout := cout w;
     ranges := ranges w; trainer_calls := trainer_calls w |}.

Definition with_cout (w : world) (o : list string) : world :=
  {| rbm := rbm w; this := this w; rand_engine := rand_engine w; cout := o;
     ranges := ranges w; trainer_calls := trainer_calls w |}.

Definition with_ranges (w : world) (m : range_id -> list sample) : world :=
  {| rbm := rbm w; this := this w; rand_engine := rand_engine w; cout := cout w;
     ranges := m; trainer_calls := trainer_calls w |}.

Definition with_trainer_calls (w : world) (c : list (list sample * list sample)) : world :=
  {| rbm := rbm w; this := this w; rand_engine := rand_engine w; cout := cout w;
     ranges := ranges w; trainer_calls := c |}.

Definition write (w : world) (r : range_id) (l : list sample) : world :=
  with_ranges w (fun r' => if decide (r' = r) then l else ranges w r').

Definition notify (w : world) (e : watcher_event) : world :=
  with_this w
    {| watcher := watcher (this w) ++ [e]; batch_size := batch_size (this w);
       total_batches := total_batches (this w); last_error := last_error (this w);
       batches := batches (this w); samples := samples (this w) |}.

Definition set_batch_size (w : world) (n : N) : world :=
  with_this w
    {| watcher := watcher (this w); batch_size := n;
       total_batches := total_batches (this w); last_error := last_error (this w);
       batches := batches (this w); samples := samples (this w) |}.

Definition set_total_batches (w : world) (n : N) : world :=
  with_this w
    {| watcher := watcher (this w); batch_size := batch_size (this w);
       total_batches := n; last_error := last_error (this w);
       batches := batches (this w); samples := samples (this w) |}.

Definition set_last_error (w : world) (e : float) : world :=
  with_this w
    {| watcher := watcher (this w); batch_size := batch_size (this w);
       total_batches := total_batches (this w); last_error := e;
       batches := batches (this w); samples := samples (this w) |}.

Definition set_batches (w : world) (n : N) : world :=
  with_this w
    {| watcher := watcher (this w); batch_size := batch_size (this w);
       total_batches := total_batches (this w); last_error := last_error (this w);
       batches := n; samples := samples (this w) |}.

Definition set_samples (w : world) (n : N) : world :=
  with_this w
    {| watcher := watcher (this w); batch_size := batch_size (this w);
       total_batches := total_batches (this w); last_error := last_error (this w);
       batches := batches (this w); samples := n |}.

Definition print (w : world) (lines : list string) : world :=
  with_cout w (cout w ++ lines).

(** *** Randomness *)

(** One output [g()] of the engine, and one draw [dist(g)] of
    [std::uniform_real_distribution<double> dist(0.0, 1000.0)]. *)
Variable rand_next : rand_state -> N * rand_state.
Variable uniform_real : rand_state -> float * rand_state.

(** A draw of [std::uniform_int_distribution] over [0, bound]. *)
Definition uniform_int (g : rand_state) (bound : nat) : nat * rand_state :=
  let '(r, g') := rand_next g in (N.to_nat (r mod N.of_nat (S bound)), g').

(** [swap(first[i], first[j])]. *)
Definition swap {A : Type} (l : list A) (i j : nat) : list A :=
  match l !! i, l !! j with
  | Some x, Some y => <[i:=y]> (<[j:=x]> l)
  | _, _ => l
  end.

(** Modelled from the spec: cpp::parallel_shuffle (cpp_utils/algorithm.hpp)
    is not part of the sources. Section 4.4: one random permutation is
    applied to the paired positions jointly, position i and its mate move
    together; section 4.1 requires the two ranges to have equal length.
    The permutation is drawn as a Fisher-Yates pass, from the last position
    down, each swap done at the same two positions of both sequences. *)
Fixpoint parallel_shuffle_from {A B : Type} (i : nat) (l1 : list A) (l2 : list B)
    (g : rand_state) : list A * list B * rand_state :=
  match i with
  | O => (l1, l2, g)
  | S i' =>
      let '(new_i, g') := uniform_int g i in
      parallel_shuffle_from i' (swap l1 i new_i) (swap l2 i new_i) g'
  end.

Definition parallel_shuffle {A B : Type} (l1 : list A) (l2 : list B) (g : rand_state)
    : outcome (list A * list B * rand_state) :=
  if decide (length l1 = length l2)
  then Done (parallel_shuffle_from (length l1 - 1) l1 l2 g)
  else Undefined.

(** [std::shuffle(first, last, g)]: the same pass over one sequence. *)
Fixpoint std_shuffle_from {A : Type} (i : nat) (l : list A) (g : rand_state)
    : list A * rand_state :=
  match i with
  | O => (l, g)
  | S i' =>
      let '(new_i, g') := uniform_int g i in
      std_shuffle_from i' (swap l i new_i) g'
  end.

Definition std_shuffle {A : Type} (l : list A) (g : rand_state) : list A * rand_state :=
  std_shuffle_from (length l - 1) l g.

(** *** The member functions of [rbm_trainer] *)

Variable L : layer_ops.
Variable G : generator_ops.
Variable B : build.

(** [init_weights(rbm, first, last)], both overloads. *)
Definition init_weights (input : range_id) (w : world) : world :=
  if has_init_weights (traits B)
  then with_rbm w (set_weights (rbm w) (rbm_init_weights L (rbm w) (ranges w input)))
  else w.

(** [init_weights(rbm, generator)], both overloads. *)
Definition init_weights_generator (generator : generator_t) (w : world)
    : generator_t * world :=
  if has_init_weights (traits B)
  then
    let '(p, generator') := rbm_init_weights_generator L (rbm w) generator in
    (generator', with_rbm w (set_weights (rbm w) p))
  else (generator, w).

(** [shuffle_direct(ifirst, ilast)], both overloads. *)
Definition shuffle_direct (input : range_id) (w : world) : world :=
  if has_shuffle (traits B)
  then
    let '(l, g) := std_shuffle (ranges w input) (rand_engine w) in
    write (with_rand_engine w g) input l
  else w.

(** [shuffle(ifirst, ilast, efirst, elast)], both overloads. It is called
    on the ranges [prepare_it] returns, which are two different vectors
    whenever [Denoising] holds. *)
Definition shuffle (input expected : range_id) (w : world) : outcome world :=
  if has_shuffle (traits B)
  then
    if Denoising B
    then
      '(l1, l2, g) ← parallel_shuffle (ranges w input) (ranges w expected) (rand_engine w);
      mret (write (write (with_rand_engine w g) input l1) expected l2)
    else
      let '(l, g) := std_shuffle (ranges w input) (rand_engine w) in
      mret (write (with_rand_engine w g) input l)
  else mret w.

(** [prepare_it(ifirst, ilast, efirst, elast, ivec, evec)], both overloads:
    the ranges the run iterates over. *)
Definition prepare_it (ifirst efirst : range_id) (w : world)
    : range_id * range_id * world :=
  if has_shuffle (traits B)
  then
    let w1 := write w input_copy (ranges w input_copy ++ ranges w ifirst) in
    if Denoising B
    then
      let w2 := write w1 expected_copy (ranges w1 expected_copy ++ ranges w1 efirst) in
      (input_copy, expected_copy, w2)
    else (input_copy, input_copy, w1)
  else (ifirst, efirst, w).

(** Whether the iterators over a range are random-access: those of a
    vector are, those of the caller are what the caller passes. *)
Definition random_access_iterator (caller_category : bool) (r : range_id) : bool :=
  match r with
  | caller_input | caller_expected => caller_category
  | _ => true
  end.

(** [init_training(rbm, input_first, input_last)]. *)
Definition init_training (random_access : bool) (input : range_id) (w : world)
    : outcome world :=
  let w := with_rbm w (set_momentum (rbm w) (initial_momentum (rbm w))) in
  let w := if EnableWatcher B then notify w (training_begin (rbm w)) else w in
  let w := set_batch_size w (get_batch_size (rbm w)) in
  w ← (if random_access
       then
         let size := N.of_nat (length (ranges w input)) in
         if (batch_size (this w) =? 0)%N then Undefined
         else
           let w :=
             if negb (size mod batch_size (this w) =? 0)%N
             then (if DLL_SILENT B then w else print w warning_lines)
             else w in
           mret (set_total_batches w (size / batch_size (this w))%N)
       else mret (set_total_batches w 0%N));
  mret (set_last_error w 0%float).

(** [init_training(rbm, generator)]. *)
Definition init_training_generator (generator : generator_t) (w : world)
    : outcome world :=
  let w := with_rbm w (set_momentum (rbm w) (initial_momentum (rbm w))) in
  let w := if EnableWatcher B then notify w (training_begin (rbm w)) else w in
  let w := set_batch_size w (get_batch_size (rbm w)) in
  let size := generator_size G generator in
  if (batch_size (this w) =? 0)%N then Undefined
  else
    let w :=
      if negb (size mod batch_size (this w) =? 0)%N
      then (if DLL_SILENT B then w else print w warning_lines)
      else w in
    let w := set_total_batches w (size / batch_size (this w))%N in
    mret (set_last_error w 0%float).

(** [get_trainer(rbm)]. *)
Definition get_trainer (w : world) : trainer_t := make_trainer L (rbm w).

(** [finalize_training(rbm)]. *)
Definition finalize_training (w : world) : float * world :=
  let w := if EnableWatcher B then notify w (training_end (rbm w)) else w in
  (last_error (this w), w).

(** [init_epoch()]. *)
Definition init_epoch (w : world) : world := set_samples (set_batches w 0%N) 0%N.

(** One step of the free-energy loop of [train_batch]. *)
Definition add_free_energy (r : rbm_t) (context : rbm_training_context) (v : sample)
    : rbm_training_context :=
  set_free_energy context (free_energy context + rbm_free_energy L r v)%float.

(** [train_batch(input, expected, trainer, context, rbm)]: the overload
    on two batches. *)
Definition train_batch (input expected : list sample) (trainer : trainer_t)
    (context : rbm_training_context) (w : world)
    : trainer_t * rbm_training_context * world :=
  let w := set_batches w (size_succ (batches (this w))) in
  let '(trainer, p, context) :=
    trainer_train_batch L trainer (rbm w) input expected context in
  let w := with_trainer_calls (with_rbm w (set_weights (rbm w) p))
             (trainer_calls w ++ [(input, expected)]) in
  let context :=
    set_reconstruction_error context
      (reconstruction_error context + batch_error context)%float in
  let context := set_sparsity context (sparsity context + batch_sparsity context)%float in
  let context :=
    if EnableWatcher B && has_free_energy (traits B)
    then fold_left (add_free_energy (rbm w)) input context
    else context in
  let w :=
    if EnableWatcher B && is_verbose (traits B)
    then notify w (batch_end (rbm w) context (batches (this w)) (total_batches (this w)))
    else w in
  (trainer, context, w).

(** [train_batch(input_first, input_last, expected_first, expected_last,
    trainer, context, rbm)]: the overload on four cursors. *)
Definition train_batch_range (input : range_id) (input_first input_last : nat)
    (expected : range_id) (expected_first expected_last : nat) (trainer : trainer_t)
    (context : rbm_training_context) (w : world)
    : trainer_t * rbm_training_context * world :=
  let w := set_batches w (size_succ (batches (this w))) in
  let input_batch := make_batch (ranges w input) input_first input_last in
  let expected_batch := make_batch (ranges w expected) expected_first expected_last in
  let '(trainer, p, context) :=
    trainer_train_batch L trainer (rbm w) input_batch expected_batch context in
  let w := with_trainer_calls (with_rbm w (set_weights (rbm w) p))
             (trainer_calls w ++ [(input_batch, expected_batch)]) in
  let context :=
    set_reconstruction_error context
      (reconstruction_error context + batch_error context)%float in
  let context := set_sparsity context (sparsity context + batch_sparsity context)%float in
  let context :=
    if EnableWatcher B && has_free_energy (traits B)
    then fold_left (add_free_energy (rbm w)) input_batch context
    else context in
  let w :=
    if EnableWatcher B && is_verbose (traits B)
    then notify w (batch_end (rbm w) context (batches (this w)) (total_batches (this w)))
    else w in
  (trainer, context, w).

(** The inner loop of the range form of [train_sub]: it moves both
    cursors, at most [batch_size] times and never past [last]; [n] bounds
    its iterations and is given as [last - iit]. *)
Fixpoint fill_batch (n last iit eit : nat) (i : N) (w : world) : nat * nat * world :=
  match n with
  | O => (iit, eit, w)
  | S n' =>
      if negb (iit =? last) && (i <? batch_size (this w))%N
      then fill_batch n' last (S iit) (S eit) (i + 1)%N
             (set_samples w (size_succ (samples (this w))))
      else (iit, eit, w)
  end.

(** The outer loop of the range form of [train_sub]. Moving [eit] past the
    end of the expected range is undefined. *)
Fixpoint train_sub_from (fuel : nat) (input expected : range_id) (iit eit : nat)
    (trainer : trainer_t) (context : rbm_training_context) (w : world)
    : outcome (trainer_t * rbm_training_context * world) :=
  let last := length (ranges w input) in
  if iit =? last then mret (trainer, context, w)
  else
    match fuel with
    | O => OutOfFuel
    | S fuel' =>
        let '(iit', eit', w1) := fill_batch (last - iit) last iit eit 0%N w in
        if length (ranges w expected) <? eit' then Undefined
        else
          let '(trainer', context', w2) :=
            train_batch_range input iit iit' expected eit eit' trainer context w1 in
          train_sub_from fuel' input expected iit' eit' trainer' context' w2
    end.

(** [train_sub(input_first, input_last, expected_first, trainer, context,
    rbm)]. *)
Definition train_sub (fuel : nat) (input expected : range_id) (trainer : trainer_t)
    (context : rbm_training_context) (w : world)
    : outcome (trainer_t * rbm_training_context * world) :=
  train_sub_from fuel input expected 0 0 trainer context w.

(** [train_sub(generator, trainer, context, rbm)]. *)
Fixpoint train_sub_generator (fuel : nat) (generator : generator_t) (trainer : trainer_t)
    (context : rbm_training_context) (w : world)
    : outcome (generator_t * trainer_t * rbm_training_context * world) :=
  if has_next_batch G generator
  then
    match fuel with
    | O => OutOfFuel
    | S fuel' =>
        let '(trainer', context', w') :=
          train_batch (data_batch G generator) (label_batch G generator)
            trainer context w in
        train_sub_generator fuel' (next_batch G generator) trainer' context' w'
    end
  else mret (generator, trainer, context, w).

(** [finalize_epoch(epoch, context, rbm)]; the context is returned as the
    watcher sees it. *)
Definition finalize_epoch (epoch : N) (context : rbm_training_context) (w : world)
    : rbm_training_context * world :=
  let context :=
    set_reconstruction_error context
      (reconstruction_error context / size_to_double (batches (this w)))%float in
  let context :=
    set_sparsity context (sparsity context / size_to_double (batches (this w)))%float in
  let context :=
    set_free_energy context
      (free_energy context / size_to_double (samples (this w)))%float in
  let w :=
    if has_momentum (traits B) && (epoch =? final_momentum_epoch (rbm w))%N
    then with_rbm w (set_momentum (rbm w) (final_momentum (rbm w)))
    else w in
  let w := if EnableWatcher B then notify w (epoch_end epoch context (rbm w)) else w in
  (context, set_last_error w (weight_cast L (reconstruction_error context))).

(** *** The three entry points *)

(** The body of the epoch loop of [train] on ranges; the finalized
    context of the epoch is returned with the trainer. *)
Definition train_epoch (fuel : nat) (input expected : range_id) (epoch : N)
    (trainer : trainer_t) (w : world)
    : outcome (trainer_t * rbm_training_context * world) :=
  w ← shuffle input expected w;
  let context := new_context in
  let w := init_epoch w in
  '(trainer, context, w) ← train_sub fuel input expected trainer context w;
  let '(context, w) := finalize_epoch epoch context w in
  mret (trainer, context, w).

(** [for (size_t epoch = 0; epoch < max_epochs; ++epoch)], [n] epochs from
    [epoch] on. *)
Fixpoint train_epochs (fuel n : nat) (input expected : range_id) (epoch : N)
    (trainer : trainer_t) (w : world) : outcome (trainer_t * world) :=
  match n with
  | O => mret (trainer, w)
  | S n' =>
      '(trainer, _, w) ← train_epoch fuel input expected epoch trainer w;
      train_epochs fuel n' input expected (epoch + 1)%N trainer w
  end.

(** [train(rbm, ifirst, ilast, efirst, elast, max_epochs)] on the two
    ranges [ifirst] and [efirst] of the caller, whose iterators are
    random-access or not. *)
Definition train_ranges (fuel : nat) (caller_category : bool) (ifirst efirst : range_id)
    (max_epochs : N) (w : world) : outcome (float * world) :=
  let w := write (write w input_copy []) expected_copy [] in
  let '(input, expected, w) := prepare_it ifirst efirst w in
  w ← init_training (random_access_iterator caller_category input) input w;
  let w := init_weights input w in
  let trainer := get_trainer w in
  '(_, w) ← train_epochs fuel (N.to_nat max_epochs) input expected 0%N trainer w;
  mret (finalize_training w).

(** The call with an input and an expected range. *)
Definition train (fuel : nat) (caller_category : bool) (max_epochs : N) (w : world)
    : outcome (float * world) :=
  train_ranges fuel caller_category caller_input caller_expected max_epochs w.

(** [train(rbm, first, last, max_epochs)]: the expected range is the input
    range. *)
Definition train_single (fuel : nat) (caller_category : bool) (max_epochs : N)
    (w : world) : outcome (float * world) :=
  train_ranges fuel caller_category caller_input caller_input max_epochs w.

(** The body of the epoch loop of [train] on a generator. *)
Definition train_epoch_generator (fuel : nat) (epoch : N) (generator : generator_t)
    (trainer : trainer_t) (w : world)
    : outcome (generator_t * trainer_t * rbm_training_context * world) :=
  let '(generator, w) :=
    if has_shuffle (traits B)
    then
      let '(generator', g) := reset_shuffle G generator (rand_engine w) in
      (generator', with_rand_engine w g)
    else (reset G generator, w) in
  let generator := set_train G generator in
  let context := new_context in
  let w := init_epoch w in
  '(generator, trainer, context, w) ←
    train_sub_generator fuel generator trainer context w;
  let '(context, w) := finalize_epoch epoch context w in
  mret (generator, trainer, context, w).

Fixpoint train_epochs_generator (fuel n : nat) (epoch : N) (generator : generator_t)
    (trainer : trainer_t) (w : world) : outcome (generator_t * trainer_t * world) :=
  match n with
  | O => mret (generator, trainer, w)
  | S n' =>
      '(generator, trainer, _, w) ←
        train_epoch_generator fuel epoch generator trainer w;
      train_epochs_generator fuel n' (epoch + 1)%N generator trainer w
  end.

(** [train(rbm, generator, max_epochs)]. *)
Definition train_generator (fuel : nat) (generator : generator_t) (max_epochs : N)
    (w : world) : outcome (float * generator_t * world) :=
  w ← init_training_generator generator w;
  let '(generator, w) := init_weights_generator generator w in
  let trainer := get_trainer w in
  '(generator, _, w) ←
    train_epochs_generator fuel (N.to_nat max_epochs) 0%N generator trainer w;
  let '(e, w) := finalize_training w in
  mret (e, generator, w).

(** The lambda [input_transformer] of [train_denoising_auto], on the
    elements of one sample. *)
Fixpoint input_transformer (noise : float) (value : sample) (g : rand_state)
    : sample * rand_state :=
  match value with
  | [] => ([], g)
  | v :: value' =>
      let '(d, g1) := uniform_real g in
      let v' := (v * (if d <? noise * 1000 then 0 else 1))%float in
      let '(rest, g2) := input_transformer noise value' g1 in
      (v' :: rest, g2)
  end.

(** [for (auto& input : input_copy) input_transformer(input)]. *)
Fixpoint corrupt (noise : float) (inputs : list sample) (g : rand_state)
    : list sample * rand_state :=
  match inputs with
  | [] => ([], g)
  | input :: inputs' =>
      let '(input', g1) := input_transformer noise input g in
      let '(rest, g2) := corrupt noise inputs' g1 in
      (input' :: rest, g2)
  end.

(** The body of the epoch loop of [train_denoising_auto]. [std::copy]
    overwrites the front of [input_copy] with the clean samples. *)
Definition train_epoch_denoising_auto (fuel : nat) (noise : float) (epoch : N)
    (trainer : trainer_t) (w : world)
    : outcome (trainer_t * rbm_training_context * world) :=
  let w := shuffle_direct input_clean w in
  let w :=
    write w input_copy
      (ranges w input_clean ++ drop (length (ranges w input_clean)) (ranges w input_copy)) in
  let '(corrupted, g) := corrupt noise (ranges w input_copy) (rand_engine w) in
  let w := write (with_rand_engine w g) input_copy corrupted in
  let context := new_context in
  let w := init_epoch w in
  '(trainer, context, w) ← train_sub fuel input_copy input_clean trainer context w;
  let '(context, w) := finalize_epoch epoch context w in
  mret (trainer, context, w).

Fixpoint train_epochs_denoising_auto (fuel n : nat) (noise : float) (epoch : N)
    (trainer : trainer_t) (w : world) : outcome (trainer_t * world) :=
  match n with
  | O => mret (trainer, w)
  | S n' =>
      '(trainer, _, w) ← train_epoch_denoising_auto fuel noise epoch trainer w;
      train_epochs_denoising_auto fuel n' noise (epoch + 1)%N trainer w
  end.

(** [train_denoising_auto(rbm, ifirst, ilast, max_epochs, noise)]. The
    assertion that [Denoising] is not set is a contract of the caller. *)
Definition train_denoising_auto (fuel : nat) (max_epochs : N) (noise : float)
    (w : world) : outcome (float * world) :=
  if Denoising B then Undefined
  else
    let n := length (ranges w caller_input) in
    let w := write (write w input_clean (replicate n [])) input_copy (replicate n []) in
    let w :=
      write w input_clean
        (ranges w caller_input ++ drop n (ranges w input_clean)) in
    w ← init_training true input_clean w;
    let w := init_weights input_clean w in
    let trainer := get_trainer w in
    '(_, w) ←
      train_epochs_denoising_auto fuel (N.to_nat max_epochs) noise 0%N trainer w;
    mret (finalize_training w).

(** *** Closed forms of the batch loops, used to state their effect *)

(** [k] times [++samples]. *)
Fixpoint bump_samples (k : nat) (w : world) : world :=
  match k with
  | O => w
  | S k' => bump_samples k' (set_samples w (size_succ (samples (this w))))
  end.

(** One turn of the outer loop of the range form of [train_sub] on the
    batch [b]: its samples are counted, then it is trained on. *)
Definition batch_step (s : trainer_t * rbm_training_context * world)
    (b : list sample * list sample) : trainer_t * rbm_training_context * world :=
  let '(trainer, context, w) := s in
  train_batch b.1 b.2 trainer context (bump_samples (length b.1) w).

Definition run_batches (l : list (list sample * list sample))
    (s : trainer_t * rbm_training_context * world)
    : trainer_t * rbm_training_context * world :=
  fold_left batch_step l s.

(** The contexts as the trainer and [train_batch] leave them, batch after
    batch. *)
Fixpoint reported (l : list (list sample * list sample))
    (s : trainer_t * rbm_training_context * world) : list rbm_training_context :=
  match l with
  | [] => []
  | b :: l' => (batch_step s b).1.2 :: reported l' (batch_step s b)
  end.

(** A trainer that writes no accumulator of the context, only
    [batch_error] and [batch_sparsity]. *)
Definition keeps_accumulators : Prop :=
  forall trainer r input expected context,
    let context' := (trainer_train_batch L trainer r input expected context).2 in
    reconstruction_error context' = reconstruction_error context /\
    sparsity context' = sparsity context /\
    free_energy context' = free_energy context.

(** The batches the range form of [train_sub] makes of an input and an
    expected range with batch size [n]. *)
Definition batches_of (n : nat) (input expected : list sample)
    : list (list sample * list sample) :=
  zip (chunks n input) (chunks n (take (length input) expected)).

(** [n] successive draws [dist(g)]. *)
Fixpoint draws (n : nat) (g : rand_state) : list float * rand_state :=
  match n with
  | O => ([], g)
  | S n' =>
      let '(d, g1) := uniform_real g in
      let '(ds, g2) := draws n' g1 in
      (d :: ds, g2)
  end.

(** What [input_transformer] makes of the element [v] with the draw [d]. *)
Definition mask (noise v d : float) : float :=
  (v * (if d <? noise * 1000 then 0 else 1))%float.

(** Whether a generator runs out of batches within [fuel] calls of
    [next_batch]. *)
Fixpoint exhausted_within (fuel : nat) (generator : generator_t) : bool :=
  if has_next_batch G generator
  then
    match fuel with
    | O => false
    | S fuel' => exhausted_within fuel' (next_batch G generator)
    end
  else true.

(** A generator whose passes end: from the states that satisfy [valid],
    which its operations preserve, it runs out of batches within [fuel]
    steps. *)
Record ending_generator (fuel : nat) (valid : generator_t -> Prop) : Prop := {
  valid_next_batch : forall g, valid g -> valid (next_batch G g);
  valid_reset : forall g, valid g -> valid (reset G g);
  valid_reset_shuffle : forall g r, valid g -> valid (reset_shuffle G g r).1;
  valid_set_train : forall g, valid g -> valid (set_train G g);
  valid_init_weights :
    forall r g, valid g -> valid (rbm_init_weights_generator L r g).2;
  valid_exhausted : forall g, valid g -> exhausted_within fuel g = true
}.

(** A batch trainer that keeps a log of the momentum of the layer it is
    called on, call after call; [seen] reads the log. *)
Definition logs_momentum (seen : trainer_t -> list float) : Prop :=
  forall trainer r input expected context,
    seen (trainer_train_batch L trainer r input expected context).1.1 =
    seen trainer ++ [momentum r].

(** The epochs whose end a list of notifications reports, in order. *)
Definition epoch_ends (l : list watcher_event) : list N :=
  omap (fun e => match e with epoch_end n _ _ => Some n | _ => None end) l.

Definition is_batch_end (e : watcher_event) : bool :=
  match e with
  | batch_end _ _ _ _ => true
  | _ => false
  end.

Definition is_epoch_end (e : watcher_event) : bool :=
  match e with
  | epoch_end _ _ _ => true
  | _ => false
  end.

(** The batches a generator yields until it runs out, at most [fuel] of
    them, as [data_batch], [label_batch] and [next_batch] give them. *)
Fixpoint yielded (fuel : nat) (generator : generator_t)
    : list (list sample * list sample) :=
  if has_next_batch G generator
  then
    match fuel with
    | O => []
    | S fuel' =>
        (data_batch G generator, label_batch G generator)
          :: yielded fuel' (next_batch G generator)
    end
  else [].


End Engine.

Arguments rbm_t : clear implicits.
Arguments layer_ops : clear implicits.
Arguments generator_ops : clear implicits.
Arguments world : clear implicits.
Arguments rbm_trainer : clear implicits.
Arguments watcher_event : clear implicits.

(** ** A small concrete instance

    A layer whose parameters are a number, a trainer that reports a constant
    error of 1 and a sparsity of 1/2 for every batch and counts its calls, a
    generator that walks a list of batches, and a linear congruential random
    engine. It is used to run the engine on concrete inputs. *)

Module Stub.

Record generator : Type := {
  gen_batches : list (list sample * list sample);
  cursor : nat;
  train_mode : bool
}.

Definition current (g : generator) : list sample * list sample :=
  default ([], []) (gen_batches g !! cursor g).

Definition rewind (g : generator) : generator :=
  {| gen_batches := gen_batches g; cursor := 0; train_mode := train_mode g |}.

Definition rand_next (g : N) : N * N :=
  let g' := ((g * 6364136223846793005 + 1442695040888963407) mod 2 ^ 64)%N in
  (g' / 2 ^ 33, g')%N.

Definition uniform_real (g : N) : float * N :=
  let '(r, g') := rand_next g in
  (size_to_double (r mod 1000), g').

Definition generator_stub : generator_ops generator N := {|
  has_next_batch g := cursor g <? length (gen_batches g);
  data_batch g := (current g).1;
  label_batch g := (current g).2;
  next_batch g :=
    {| gen_batches := gen_batches g; cursor := S (cursor g); train_mode := train_mode g |};
  reset := rewind;
  reset_shuffle g r := (rewind g, r);
  set_train g :=
    {| gen_batches := gen_batches g; cursor := cursor g; train_mode := true |};
  generator_size g := N.of_nat (length (concat (map fst (gen_batches g))))
|}.

Definition layer : layer_ops N N generator := {|
  rbm_init_weights _ l := N.of_nat (length l);
  rbm_init_weights_generator _ g := (N.of_nat (length (gen_batches g)), g);
  rbm_free_energy _ _ := 1%float;
  make_trainer _ := 0%N;
  trainer_train_batch t r _ _ c :=
    ((t + 1)%N, (weights r + 1)%N,
     {| reconstruction_error := reconstruction_error c; sparsity := sparsity c;
        free_energy := free_energy c;
        batch_error := 1; batch_sparsity := 0.5 |});
  weight_cast x := x
|}.

(** The same layer with a batch trainer that logs the momentum of the
    layer it is called on. *)
Definition logging_layer : layer_ops N (list float) generator := {|
  rbm_init_weights _ l := N.of_nat (length l);
  rbm_init_weights_generator _ g := (N.of_nat (length (gen_batches g)), g);
  rbm_free_energy _ _ := 1%float;
  make_trainer _ := [];
  trainer_train_batch t r _ _ c :=
    (t ++ [momentum r], (weights r + 1)%N,
     {| reconstruction_error := reconstruction_error c; sparsity := sparsity c;
        free_energy := free_energy c;
        batch_error := 1; batch_sparsity := 0.5 |});
  weight_cast x := x
|}.

Definition all_traits : layer_traits :=
  {| has_shuffle := true; has_momentum := true; has_init_weights := true;
     has_free_energy := true; is_verbose := true |}.

Definition plain_traits : layer_traits :=
  {| has_shuffle := false; has_momentum := true; has_init_weights := false;
     has_free_energy := true; is_verbose := false |}.

Definition configure (t : layer_traits) (watch denoise : bool) : build :=
  {| traits := t; EnableWatcher := watch; Denoising := denoise; DLL_SILENT := false |}.

Definition layer0 (batch : N) : rbm_t N :=
  {| weights := 7%N; momentum := 0; initial_momentum := 0.5; final_momentum := 0.75;
     final_momentum_epoch := 1%N; layer_batch_size := batch |}.

Definition trainer0 : rbm_trainer N :=
  {| watcher := []; batch_size := 0; total_batches := 0; last_error := 0;
     batches := 0; samples := 0 |}.

(** A world whose layer declares the batch size [batch] and whose caller
    ranges are [input] and [expected]. *)
Definition start (batch : N) (input expected : list sample) (seed : N) : world N N :=
  {| rbm := layer0 batch; this := trainer0; rand_engine := seed; cout := [];
     ranges := fun r =>
       match r with
       | caller_input => input
       | caller_expected => expected
       | _ => []
       end;
     trainer_calls := [] |}.

Definition three : list sample := [[1]; [2]; [3]]%float.
Definition three' : list sample := [[10]; [20]; [30]]%float.

End Stub.

(** * The SVM support of a network (include/dll/svm_common.hpp)

    The functions of [svm_common.hpp] store and load the SVM model of a
    network through the file [..tmp.svm] and build the problem of libsvm
    from the activation probabilities of the network. What they call and
    the header does not define is a parameter of the embedding: the
    wrappers [svm::] of [nice_svm.hpp], [binary_write] and [binary_load],
    and the members of the network. *)

(** ** Streams *)

(** A [std::istream]: the characters not yet extracted, and [good()]. *)
Record istream : Type := {
  content : list byte;
  good : bool
}.

(** [is.read(buffer, n)]: the characters stored in the buffer, [gcount()]
    of them, and the stream after the call. A stream that is not good
    extracts nothing; one that holds fewer than [n] characters gives them
    all and is no longer good. *)
Definition read (ins : istream) (n : nat) : list byte * istream :=
  if good ins
  then (take n (content ins),
        {| content := drop n (content ins); good := n <=? length (content ins) |})
  else ([], ins).

(** The loop
    [while (true) { in.read(buffer, 1024); if (in.gcount() == 0) break;
    out.write(buffer, in.gcount()); }]
    of [svm_store] and [svm_load]; [out] is the sequence of the characters
    written. *)
Fixpoint copy_chunks (fuel : nat) (input : istream) (out : list byte)
    : outcome (istream * list byte) :=
  match fuel with
  | O => OutOfFuel
  | S fuel' =>
      let '(buffer, input') := read input 1024 in
      if length buffer =? 0 then mret (input', out)
      else copy_chunks fuel' input' (out ++ buffer)
  end.

(** What is outside a network and the functions touch: the content of the
    file [..tmp.svm], whether libsvm has been made quiet, and what the grid
    search printed. *)
Record environment : Type := {
  tmp_svm : list byte;
  quiet : bool;
  console : list string
}.

Definition with_tmp_svm (e : environment) (b : list byte) : environment :=
  {| tmp_svm := b; quiet := quiet e; console := console e |}.

(** [svm::make_quiet()]. *)
Definition make_quiet (e : environment) : environment :=
  {| tmp_svm := tmp_svm e; quiet := true; console := console e |}.

Section Svm.

Context {layers_t model_t problem_t input_t label_t : Type}.
Context {svm_type_t kernel_type_t other_t grid_t : Type}.

(** The fields of [svm_parameter] the header sets, and the others. *)
Record svm_parameter : Type := {
  svm_type : svm_type_t;
  kernel_type : kernel_type_t;
  probability : Z;
  C : float;
  gamma : float;
  others : other_t
}.

(** The network, as far as the header reads and writes it. *)
Record dbn_t : Type := {
  layers : layers_t;
  svm_loaded : bool;
  svm_model : model_t;
  problem : problem_t
}.

Definition set_svm_loaded (dbn : dbn_t) (b : bool) : dbn_t :=
  {| layers := layers dbn; svm_loaded := b; svm_model := svm_model dbn;
     problem := problem dbn |}.

Definition set_svm_model (dbn : dbn_t) (m : model_t) : dbn_t :=
  {| layers := layers dbn; svm_loaded := svm_loaded dbn; svm_model := m;
     problem := problem dbn |}.

Definition set_problem (dbn : dbn_t) (p : problem_t) : dbn_t :=
  {| layers := layers dbn; svm_loaded := svm_loaded dbn; svm_model := svm_model dbn;
     problem := p |}.

(** What the header calls: the wrappers of libsvm ([save] gives the
    characters written to the file, [load] the model read from them),
    [binary_write] and [binary_load] on a [bool] ([binary_load] gives no
    value when it stores none in its argument), and the members of the
    network. *)
Record svm_ops : Type := {
  C_SVC : svm_type_t;
  RBF : kernel_type_t;
  default_parameters : svm_parameter;
  save : model_t -> list byte;
  load : list byte -> model_t;
  svm_make_problem : list label_t -> list (list float) -> problem_t;
  check : problem_t -> svm_parameter -> bool;
  svm_train_model : problem_t -> svm_parameter -> model_t;
  rbf_grid_search : problem_t -> svm_parameter -> N -> grid_t -> list string;
  binary_write : list byte -> bool -> list byte;
  binary_load : istream -> option bool * istream;
  output_size : nat;
  new_vector : nat -> list float;
  activation_probabilities : layers_t -> input_t -> list float -> list float
}.

Variable F : svm_ops.

(** [default_svm_parameters()]; the two constants are the doubles nearest
    to [2.8] and [0.0073]. *)
Definition default_svm_parameters : svm_parameter :=
  let parameters := default_parameters F in
  {| svm_type := C_SVC F;
     kernel_type := RBF F;
     probability := 1;
     C := 0x1.6666666666666p+1;
     gamma := 0x1.de69ad42c3c9fp-8;
     others := others parameters |}.

(** [svm_store(dbn, os)]; [os] is the sequence of the characters written
    to the stream. *)
Definition svm_store (fuel : nat) (dbn : dbn_t) (os : list byte) (e : environment)
    : outcome (list byte * environment) :=
  if svm_loaded dbn
  then
    let os := binary_write F os true in
    let e := with_tmp_svm e (save F (svm_model dbn)) in
    let svm_is := {| content := tmp_svm e; good := true |} in
    '(_, os) ← copy_chunks fuel svm_is os;
    mret (os, e)
  else mret (binary_write F os false, e).

(** [svm_load(dbn, is)], with [ins] for the stream [is]. Reading the flag
    [svm] when [binary_load] stored nothing in it is undefined. *)
Definition svm_load (fuel : nat) (dbn : dbn_t) (ins : istream) (e : environment)
    : outcome (dbn_t * istream * environment) :=
  let dbn := set_svm_loaded dbn false in
  if good ins
  then
    let '(svm, ins) := binary_load F ins in
    match svm with
    | None => Undefined
    | Some true =>
        '(ins, svm_os) ← copy_chunks fuel ins [];
        let e := with_tmp_svm e svm_os in
        let dbn := set_svm_model dbn (load F (tmp_svm e)) in
        mret (set_svm_loaded dbn true, ins, e)
    | Some false => mret (dbn, ins, e)
    end
  else mret (dbn, ins, e).

(** The loop of [make_problem], [k] turns from the index [i] on. An index
    out of a vector is undefined. *)
Fixpoint make_samples (k i : nat) (dbn : dbn_t) (training_data : list input_t)
    (svm_samples : list (list float)) : outcome (list (list float)) :=
  match k with
  | O => mret svm_samples
  | S k' =>
      let svm_samples := svm_samples ++ [new_vector F (output_size F)] in
      match training_data !! i, svm_samples !! i with
      | Some x, Some v =>
          make_samples k' (S i) dbn training_data
            (<[i := activation_probabilities F (layers dbn) x v]> svm_samples)
      | _, _ => Undefined
      end
  end.

(** [make_problem(dbn, training_data, labels)]. *)
Definition make_problem (dbn : dbn_t) (training_data : list input_t)
    (labels : list label_t) : outcome dbn_t :=
  let n_samples := length training_data in
  svm_samples ← make_samples n_samples 0 dbn training_data [];
  mret (set_problem dbn (svm_make_problem F labels svm_samples)).

(** [svm_train(dbn, training_data, labels, parameters)]. *)
Definition svm_train (dbn : dbn_t) (training_data : list input_t)
    (labels : list label_t) (parameters : svm_parameter) (e : environment)
    : outcome (bool * dbn_t * environment) :=
  dbn ← make_problem dbn training_data labels;
  let e := make_quiet e in
  if negb (check F (problem dbn) parameters) then mret (false, dbn, e)
  else
    let dbn := set_svm_model dbn (svm_train_model F (problem dbn) parameters) in
    let dbn := set_svm_loaded dbn true in
    mret (true, dbn, e).

(** [svm_grid_search(dbn, training_data, labels, n_fold, g)]. *)
Definition svm_grid_search (dbn : dbn_t) (training_data : list input_t)
    (labels : list label_t) (n_fold : N) (g : grid_t) (e : environment)
    : outcome (bool * dbn_t * environment) :=
  dbn ← make_problem dbn training_data labels;
  let e := make_quiet e in
  let parameters := default_svm_parameters in
  if negb (check F (problem dbn) parameters) then mret (false, dbn, e)
  else
    let e :=
      {| tmp_svm := tmp_svm e; quiet := quiet e;
         console := console e ++ rbf_grid_search F (problem dbn) parameters n_fold g |} in
    mret (true, dbn, e).

(** [binary_load] reads back what [binary_write] wrote, and [binary_write]
    appends to the stream. *)
Record bool_round_trip : Prop := {
  write_appends : forall os b, binary_write F os b = os ++ binary_write F [] b;
  load_write :
    forall b rest,
      binary_load F {| content := binary_write F [] b ++ rest; good := true |} =
      (Some b, {| content := rest; good := true |})
}.

End Svm.

Arguments svm_parameter : clear implicits.
Arguments dbn_t : clear implicits.
Arguments svm_ops : clear implicits.

(** An instance: a model is the characters of its file, a [bool] is
    written as one character. *)
Module SvmStub.

Definition ops : svm_ops unit (list byte) (list (list float)) (list float) N N N unit unit := {|
  C_SVC := 0%N;
  RBF := 2%N;
  default_parameters :=
    {| svm_type := 3%N; kernel_type := 0%N; probability := 0; C := 1; gamma := 0;
       others := tt |};
  save m := m;
  load b := b;
  svm_make_problem _ samples := samples;
  check p _ := negb (length p =? 0);
  svm_train_model p _ := [];
  rbf_grid_search _ _ _ _ := [];
  binary_write os b := os ++ [if b then x01 else x00];
  binary_load ins :=
    match read ins 1 with
    | ([c], is') => (Some (negb (Byte.eqb c x00)), is')
    | (_, is') => (None, is')
    end;
  output_size := 2;
  new_vector n := replicate n 0%float;
  activation_probabilities _ x v := x
|}.

Definition network (loaded : bool) (model : list byte)
    : dbn_t unit (list byte) (list (list float)) :=
  {| layers := tt; svm_loaded := loaded; svm_model := model; problem := [] |}.

Definition nothing : environment := {| tmp_svm := []; quiet := false; console := [] |}.

End SvmStub.


(** ** Relations between worlds

    What the steps of a run leave alone, used to state their effect. *)

Section Relations.

Context {weights_t trainer_t generator_t rand_state : Type}.
Variable L : layer_ops weights_t trainer_t generator_t.
Variable B : build.

Abbreviation world := (world weights_t rand_state).

(** What no batch loop changes: the momentum schedule of the layer, the
    random engine, the output, the ranges and the members of the trainer
    that [init_training] sets. *)
Record same_setting (w w' : world) : Prop := {
  same_momentum : momentum (rbm w') = momentum (rbm w);
  same_initial_momentum : initial_momentum (rbm w') = initial_momentum (rbm w);
  same_final_momentum : final_momentum (rbm w') = final_momentum (rbm w);
  same_final_momentum_epoch :
    final_momentum_epoch (rbm w') = final_momentum_epoch (rbm w);
  same_layer_batch_size : layer_batch_size (rbm w') = layer_batch_size (rbm w);
  same_rand_engine : rand_engine w' = rand_engine w;
  same_cout : cout w' = cout w;
  same_ranges : ranges w' = ranges w;
  same_batch_size : batch_size (this w') = batch_size (this w);
  same_total_batches : total_batches (this w') = total_batches (this w);
  same_last_error : last_error (this w') = last_error (this w)
}.

(** What the shuffle of an epoch leaves alone. *)
Record reordered (input expected : range_id) (w w' : world) : Prop := {
  reordered_rbm : rbm w' = rbm w;
  reordered_this : this w' = this w;
  reordered_cout : cout w' = cout w;
  reordered_calls : trainer_calls w' = trainer_calls w;
  reordered_length : ∀ r, length (ranges w' r) = length (ranges w r);
  reordered_others : ∀ r, r ≠ input → r ≠ expected → ranges w' r = ranges w r;
  reordered_off : has_shuffle (traits B) = false → w' = w
}.

(** What an epoch leaves alone. *)
Record epoch_frame (input expected : range_id) (w w' : world) : Prop := {
  epoch_cout : cout w' = cout w;
  epoch_batch_size : batch_size (this w') = batch_size (this w);
  epoch_total_batches : total_batches (this w') = total_batches (this w);
  epoch_initial_momentum : initial_momentum (rbm w') = initial_momentum (rbm w);
  epoch_final_momentum : final_momentum (rbm w') = final_momentum (rbm w);
  epoch_final_momentum_epoch :
    final_momentum_epoch (rbm w') = final_momentum_epoch (rbm w);
  epoch_layer_batch_size : layer_batch_size (rbm w') = layer_batch_size (rbm w);
  epoch_length : ∀ r, length (ranges w' r) = length (ranges w r);
  epoch_others : ∀ r, r ≠ input → r ≠ expected → ranges w' r = ranges w r;
  epoch_off :
    has_shuffle (traits B) = false →
    ranges w' = ranges w ∧ rand_engine w' = rand_engine w
}.

(** The two ranges of the caller. *)
Definition is_caller (r : range_id) : Prop := r = caller_input ∨ r = caller_expected.

(** The ranges an epoch of [train] iterates over: the two ranges of the
    caller if the layer does not shuffle, two different copies in
    denoising mode, and otherwise one copy that is its own expected range. *)
Definition paired (input expected : range_id) : Prop :=
  has_shuffle (traits B) = false ∨
  (Denoising B = true ∧ input ≠ expected) ∨
  (Denoising B = false ∧ input = expected).

(** The diagnostic [init_training] prints for [size] samples. *)
Definition diagnostic (random_access : bool) (size batch : N) : list string :=
  if random_access && negb (size mod batch =? 0)%N && negb (DLL_SILENT B)
  then warning_lines else [].

(** The world at the start of the first epoch of [train]. *)
Record prepared (caller_category : bool) (ifirst efirst input expected : range_id)
    (w w' : world) : Prop := {
  prepared_input : ranges w' input = ranges w ifirst;
  prepared_expected :
    ranges w' expected =
    ranges w (if has_shuffle (traits B) && negb (Denoising B) then ifirst else efirst);
  prepared_caller : ∀ r, is_caller r → ranges w' r = ranges w r;
  prepared_copies :
    has_shuffle (traits B) = true →
    input = input_copy ∧ expected = (if Denoising B then expected_copy else input_copy);
  prepared_direct : has_shuffle (traits B) = false → input = ifirst ∧ expected = efirst;
  prepared_batch_size : batch_size (this w') = layer_batch_size (rbm w);
  prepared_momentum : momentum (rbm w') = initial_momentum (rbm w);
  prepared_initial_momentum : initial_momentum (rbm w') = initial_momentum (rbm w);
  prepared_final_momentum : final_momentum (rbm w') = final_momentum (rbm w);
  prepared_final_momentum_epoch :
    final_momentum_epoch (rbm w') = final_momentum_epoch (rbm w);
  prepared_weights :
    weights (rbm w') =
    if has_init_weights (traits B)
    then rbm_init_weights L (set_momentum (rbm w) (initial_momentum (rbm w)))
           (ranges w ifirst)
    else weights (rbm w);
  prepared_cout :
    cout w' =
    cout w ++ diagnostic (random_access_iterator caller_category input)
                (N.of_nat (length (ranges w ifirst))) (layer_batch_size (rbm w));
  prepared_calls : trainer_calls w' = trainer_calls w;
  prepared_rand_engine : rand_engine w' = rand_engine w;
  prepared_last_error : last_error (this w') = 0%float
}.

(** What a run leaves alone once [init_training] has returned. *)
Record run_frame (w w' : world) : Prop := {
  run_cout : cout w' = cout w;
  run_batch_size : batch_size (this w') = batch_size (this w);
  run_initial_momentum : initial_momentum (rbm w') = initial_momentum (rbm w);
  run_final_momentum : final_momentum (rbm w') = final_momentum (rbm w);
  run_final_momentum_epoch :
    final_momentum_epoch (rbm w') = final_momentum_epoch (rbm w);
  run_layer_batch_size : layer_batch_size (rbm w') = layer_batch_size (rbm w);
  run_length : ∀ r, length (ranges w' r) = length (ranges w r);
  run_caller : ∀ r, is_caller r → ranges w' r = ranges w r
}.

End Relations.

Arguments reordered_rbm {weights_t rand_state B} input expected w w' _.
Arguments reordered_this {weights_t rand_state B} input expected w w' _.
Arguments reordered_cout {weights_t rand_state B} input expected w w' _.
Arguments reordered_calls {weights_t rand_state B} input expected w w' _.
Arguments reordered_length {weights_t rand_state B} input expected w w' _ r.
Arguments reordered_others {weights_t rand_state B} input expected w w' _ r _ _.
Arguments reordered_off {weights_t rand_state B} input expected w w' _ _.
Arguments epoch_cout {weights_t rand_state B} input expected w w' _.
Arguments epoch_batch_size {weights_t rand_state B} input expected w w' _.
Arguments epoch_total_batches {weights_t rand_state B} input expected w w' _.
Arguments epoch_initial_momentum {weights_t rand_state B} input expected w w' _.
Arguments epoch_final_momentum {weights_t rand_state B} input expected w w' _.
Arguments epoch_final_momentum_epoch {weights_t rand_state B} input expected w w' _.
Arguments epoch_layer_batch_size {weights_t rand_state B} input expected w w' _.
Arguments epoch_length {weights_t rand_state B} input expected w w' _ r.
Arguments epoch_others {weights_t rand_state B} input expected w w' _ r _ _.
Arguments epoch_off {weights_t rand_state B} input expected w w' _ _.
Arguments prepared_input {weights_t trainer_t generator_t rand_state L B}
  caller_category ifirst efirst input expected w w' _.
Arguments prepared_expected {weights_t trainer_t generator_t rand_state L B}
  caller_category ifirst efirst input expected w w' _.
Arguments prepared_batch_size {weights_t trainer_t generator_t rand_state L B}
  caller_category ifirst efirst input expected w w' _.
Arguments prepared_momentum {weights_t trainer_t generator_t rand_state L B}
  caller_category ifirst efirst input expected w w' _.
Arguments prepared_initial_momentum {weights_t trainer_t generator_t rand_state L B}
  caller_category ifirst efirst input expected w w' _.
Arguments prepared_final_momentum {weights_t trainer_t generator_t rand_state L B}
  caller_category ifirst efirst input expected w w' _.
Arguments prepared_final_momentum_epoch {weights_t trainer_t generator_t rand_state L B}
  caller_category ifirst efirst input expected w w' _.
Arguments prepared_weights {weights_t trainer_t generator_t rand_state L B}
  caller_category ifirst efirst input expected w w' _.
Arguments prepared_cout {weights_t trainer_t generator_t rand_state L B}
  caller_category ifirst efirst input expected w w' _.
Arguments prepared_calls {weights_t trainer_t generator_t rand_state L B}
  caller_category ifirst efirst input expected w w' _.
Arguments prepared_rand_engine {weights_t trainer_t generator_t rand_state L B}
  caller_category ifirst efirst input expected w w' _.
Arguments prepared_last_error {weights_t trainer_t generator_t rand_state L B}
  caller_category ifirst efirst input expected w w' _.
Arguments prepared_caller {weights_t trainer_t generator_t rand_state L B}
  caller_category ifirst efirst input expected w w' _ r _.
Arguments prepared_copies {weights_t trainer_t generator_t rand_state L B}
  caller_category ifirst efirst input expected w w' _ _.
Arguments prepared_direct {weights_t trainer_t generator_t rand_state L B}
  caller_category ifirst efirst input expected w w' _ _.

(** * Properties *)

(** ** Batches of a range *)

Section Chunks.

Context {A : Type}.
Implicit Types l : list A.

Lemma chunks_upto_fuel fuel1 fuel2 n l :
  0 < n → length l ≤ fuel1 → length l ≤ fuel2 →
  chunks_upto fuel1 n l = chunks_upto fuel2 n l.
Proof.
  intros Hn. revert fuel2 l.
  induction fuel1 as [|fuel1 IH]; intros fuel2 l H1 H2.
  - destruct l; [by destruct fuel2 | simpl in H1; lia].
  - destruct l as [|x l]; [by destruct fuel2|].
    destruct fuel2 as [|fuel2]; [simpl in H2; lia|].
    cbn [chunks_upto]. f_equal.
    apply IH; rewrite length_drop; simpl in *; lia.
Qed.

Lemma chunks_nil n : chunks n (@nil A) = [].
Proof. reflexivity. Qed.

Lemma chunks_cons n l :
  0 < n → l ≠ [] → chunks n l = take n l :: chunks n (drop n l).
Proof.
  intros Hn Hl. unfold chunks.
  destruct l as [|x l]; [done|].
  cbn [length chunks_upto]. f_equal.
  apply chunks_upto_fuel; [done| |done].
  rewrite length_drop. simpl. lia.
Qed.

Lemma chunks_ind (n : nat) (Hn : 0 < n) (P : list A → Prop) :
  P [] → (∀ l, l ≠ [] → P (drop n l) → P l) → ∀ l, P l.
Proof.
  intros Hnil Hstep l.
  remember (length l) as m eqn:Hm.
  revert l Hm. induction m as [m IH] using lt_wf_ind. intros l ->.
  destruct l as [|x l]; [done|].
  apply Hstep; [done|].
  eapply IH; [|reflexivity]. rewrite length_drop. simpl. lia.
Qed.

Lemma concat_chunks n l : 0 < n → concat (chunks n l) = l.
Proof.
  intros Hn. induction l as [|l Hl IH] using (chunks_ind n Hn); [done|].
  rewrite chunks_cons by done. simpl. rewrite IH. apply take_drop.
Qed.

Lemma length_chunks n l : 0 < n → length (chunks n l) = ceil_div (length l) n.
Proof.
  intros Hn. unfold ceil_div.
  induction l as [|l Hl IH] using (chunks_ind n Hn).
  - simpl. symmetry. apply Nat.div_small. lia.
  - rewrite chunks_cons by done. simpl. rewrite IH, length_drop.
    assert (0 < length l) by (destruct l; [done | simpl; lia]).
    destruct (decide (length l ≤ n)) as [Hle|Hgt].
    + replace (length l - n) with 0 by lia.
      rewrite (Nat.div_small (0 + n - 1)) by lia.
      symmetry. 
      assert (length l + n - 1 = 1 * n + (length l - 1)) as -> by lia.
      rewrite Nat.div_add_l by lia. rewrite Nat.div_small by lia. lia.
    + assert (length l + n - 1 = 1 * n + (length l - n + n - 1)) as -> by lia.
      rewrite Nat.div_add_l by lia. lia.
Qed.

Lemma chunks_bounds n l :
  0 < n → Forall (λ c, 0 < length c ≤ n) (chunks n l).
Proof.
  intros Hn. induction l as [|l Hl IH] using (chunks_ind n Hn); [by constructor|].
  rewrite chunks_cons by done. constructor; [|done].
  rewrite length_take. destruct l; [done | simpl; lia].
Qed.

(** Every chunk before position [length l / n] is full. *)
Lemma chunks_lookup n l k :
  0 < n → k < ceil_div (length l) n →
  chunks n l !! k = Some (take n (drop (k * n) l)).
Proof.
  intros Hn. revert k.
  induction l as [|l Hl IH] using (chunks_ind n Hn); intros k Hk.
  - unfold ceil_div in Hk. simpl in Hk. rewrite Nat.div_small in Hk by lia. lia.
  - rewrite chunks_cons by done. destruct k as [|k]; [done|].
    simpl. rewrite IH.
    + by rewrite drop_drop.
    + rewrite <- !length_chunks in * by done.
      rewrite chunks_cons in Hk by done. simpl in Hk. lia.
Qed.
End Chunks.

(** ** The batch loops *)

Section Facts.

Context {weights_t trainer_t generator_t rand_state : Type}.
Variable rand_next : rand_state → N * rand_state.
Variable uniform_real : rand_state → float * rand_state.
Variable L : layer_ops weights_t trainer_t generator_t.
Variable G : generator_ops generator_t rand_state.
Variable B : build.

Abbreviation world := (world weights_t rand_state).
Implicit Types (w : world) (trainer : trainer_t) (context : rbm_training_context).
Implicit Types s : trainer_t * rbm_training_context * world.

#[local] Instance same_setting_refl : Reflexive (@same_setting weights_t rand_state).
Proof. by intros w; split. Qed.

#[local] Instance same_setting_trans : Transitive (@same_setting weights_t rand_state).
Proof. intros w1 w2 w3 [] []; split; congruence. Qed.

Lemma bump_samples_same k w : same_setting w (bump_samples k w).
Proof.
  revert w. induction k as [|k IH]; intros w; [reflexivity|].
  simpl. etrans; [|apply IH]. by split.
Qed.

Lemma bump_samples_calls k w : trainer_calls (bump_samples k w) = trainer_calls w.
Proof. revert w. induction k as [|k IH]; intros w; [done|]. simpl. by rewrite IH. Qed.

Lemma bump_samples_weights k w : weights (rbm (bump_samples k w)) = weights (rbm w).
Proof. revert w. induction k as [|k IH]; intros w; [done|]. simpl. by rewrite IH. Qed.

Lemma bump_samples_batches k w :
  batches (this (bump_samples k w)) = batches (this w).
Proof. revert w. induction k as [|k IH]; intros w; [done|]. simpl. by rewrite IH. Qed.

Lemma bump_samples_watcher k w :
  watcher (this (bump_samples k w)) = watcher (this w).
Proof. revert w. induction k as [|k IH]; intros w; [done|]. simpl. by rewrite IH. Qed.

Lemma bump_samples_samples k w :
  samples (this (bump_samples k w)) = Nat.iter k size_succ (samples (this w)).
Proof.
  revert w. induction k as [|k IH]; intros w; [done|].
  cbn [bump_samples]. rewrite IH, Nat.iter_succ_r. reflexivity.
Qed.

Lemma bump_samples_add j k w :
  bump_samples (j + k) w = bump_samples k (bump_samples j w).
Proof. revert w. induction j as [|j IH]; intros w; [done|]. simpl. apply IH. Qed.

(** The inner loop takes the next [batch_size] samples, or those that are
    left. *)
Lemma fill_batch_spec n last iit eit i w :
  n = last - iit → (i ≤ batch_size (this w))%N →
  fill_batch n last iit eit i w =
  (iit + Nat.min n (N.to_nat (batch_size (this w) - i)),
   eit + Nat.min n (N.to_nat (batch_size (this w) - i)),
   bump_samples (Nat.min n (N.to_nat (batch_size (this w) - i))) w).
Proof.
  revert iit eit i w. induction n as [|n IH]; intros iit eit i w Hn Hi; simpl.
  - by rewrite !Nat.add_0_r.
  - assert ((iit =? last) = false) as -> by (apply Nat.eqb_neq; lia).
    simpl. destruct (N.ltb_spec i (batch_size (this w))) as [Hlt|Hge].
    + rewrite IH; [|lia|simpl; lia]. simpl.
      replace (N.to_nat (batch_size (this w) - i))
        with (S (N.to_nat (batch_size (this w) - (i + 1)))) by lia.
      simpl. by rewrite !Nat.add_succ_r.
    + replace (N.to_nat (batch_size (this w) - i)) with 0 by lia.
      by rewrite !Nat.add_0_r.
Qed.

Lemma train_batch_range_eq input i1 i2 expected e1 e2 trainer context w :
  train_batch_range L B input i1 i2 expected e1 e2 trainer context w =
  train_batch L B (make_batch (ranges w input) i1 i2)
    (make_batch (ranges w expected) e1 e2) trainer context w.
Proof. reflexivity. Qed.

(** What one call of [train_batch] does to the world. *)
Lemma train_batch_same i e trainer context w :
  same_setting w (train_batch L B i e trainer context w).2.
Proof.
  unfold train_batch.
  destruct (trainer_train_batch _ _ _ _ _ _) as [[t p] c].
  destruct (EnableWatcher B && is_verbose (traits B)); by split.
Qed.

Lemma train_batch_calls i e trainer context w :
  trainer_calls (train_batch L B i e trainer context w).2 = trainer_calls w ++ [(i, e)].
Proof.
  unfold train_batch.
  destruct (trainer_train_batch _ _ _ _ _ _) as [[t p] c].
  by destruct (EnableWatcher B && is_verbose (traits B)).
Qed.

Lemma train_batch_counters i e trainer context w :
  batches (this (train_batch L B i e trainer context w).2) = size_succ (batches (this w)) ∧
  samples (this (train_batch L B i e trainer context w).2) = samples (this w).
Proof.
  unfold train_batch.
  destruct (trainer_train_batch _ _ _ _ _ _) as [[t p] c].
  by destruct (EnableWatcher B && is_verbose (traits B)).
Qed.

Lemma batch_step_same s b : same_setting s.2 (batch_step L B s b).2.
Proof.
  destruct s as [[t c] w]. unfold batch_step. simpl.
  etrans; [apply (bump_samples_same (length b.1))|apply train_batch_same].
Qed.

Lemma run_batches_same l s : same_setting s.2 (run_batches L B l s).2.
Proof.
  revert s. induction l as [|b l IH]; intros s; [reflexivity|].
  simpl. etrans; [apply batch_step_same|apply IH].
Qed.

Lemma run_batches_calls l s :
  trainer_calls (run_batches L B l s).2 = trainer_calls s.2 ++ l.
Proof.
  revert s. induction l as [|b l IH]; intros s; simpl.
  - by rewrite app_nil_r.
  - rewrite IH. destruct s as [[t c] w]. unfold batch_step. simpl.
    rewrite train_batch_calls, bump_samples_calls, <- app_assoc. by destruct b.
Qed.

Lemma batches_of_nil n expected : batches_of n [] expected = [].
Proof. reflexivity. Qed.

Lemma batches_of_cons n (input expected : list sample) :
  0 < n → input ≠ [] → length input ≤ length expected →
  batches_of n input expected =
  (take (Nat.min n (length input)) input, take (Nat.min n (length input)) expected)
    :: batches_of n (drop (Nat.min n (length input)) input)
         (drop (Nat.min n (length input)) expected).
Proof.
  intros Hn Hi Hlen. unfold batches_of.
  assert (0 < length input) by (destruct input; [done|simpl; lia]).
  rewrite (chunks_cons n input) by done.
  rewrite (chunks_cons n (take _ expected)).
  2: done.
  2: { intros Heq. apply (f_equal length) in Heq. rewrite length_take in Heq.
       simpl in Heq. lia. }
  simpl. rewrite take_take.
  destruct (decide (n ≤ length input)) as [Hle|Hgt].
  - rewrite !Nat.min_l by done. do 2 f_equal.
    rewrite length_drop.
    replace (length input) with (n + (length input - n)) at 1 by lia.
    by rewrite <- take_drop_commute.
  - rewrite !Nat.min_r by lia.
    rewrite (take_ge input n) by lia. f_equal.
    { by rewrite firstn_all. }
    rewrite (drop_ge input n) by lia.
    rewrite (drop_ge input (length input)) by lia.
    rewrite (drop_ge (take _ _) n) by (rewrite length_take; lia).
    reflexivity.
Qed.

(** The range form of [train_sub] trains on the batches of the two ranges,
    in order, provided the batch size is not zero and the expected range is
    no shorter than the input range. *)
Lemma train_sub_from_spec fuel input expected iit trainer context w :
  0 < N.to_nat (batch_size (this w)) → iit ≤ length (ranges w input) →
  length (ranges w input) ≤ length (ranges w expected) →
  length (ranges w input) - iit ≤ fuel →
  train_sub_from L B fuel input expected iit iit trainer context w =
  Done (run_batches L B
          (batches_of (N.to_nat (batch_size (this w)))
             (drop iit (ranges w input)) (drop iit (ranges w expected)))
          (trainer, context, w)).
Proof.
  revert iit trainer context w.
  induction fuel as [|fuel IH]; intros iit trainer context w Hn Hiit Hlen Hfuel.
  - assert (iit = length (ranges w input)) as -> by lia.
    simpl. rewrite Nat.eqb_refl, drop_all. reflexivity.
  - cbn [train_sub_from].
    destruct (Nat.eqb_spec iit (length (ranges w input))) as [->|Hne].
    { rewrite drop_all. reflexivity. }
    rewrite fill_batch_spec by (done || lia).
    rewrite N.sub_0_r.
    set (n := N.to_nat (batch_size (this w))) in *.
    set (k := Nat.min (length (ranges w input) - iit) n).
    assert (Hk : 0 < k ∧ iit + k ≤ length (ranges w input)) by lia.
    assert ((length (ranges w expected) <? iit + k) = false) as ->
      by (apply Nat.ltb_ge; lia).
    rewrite train_batch_range_eq.
    pose proof (bump_samples_same k w) as Hb.
    rewrite (same_ranges _ _ Hb).
    rewrite (batches_of_cons n (drop iit (ranges w input))).
    2: done.
    2: { intros Heq. apply (f_equal length) in Heq. rewrite length_drop in Heq.
         simpl in Heq. lia. }
    2: rewrite !length_drop; lia.
    rewrite length_drop, (Nat.min_comm n). fold k.
    unfold make_batch. replace (iit + k - iit) with k by lia.
    cbn [run_batches fold_left batch_step fst snd].
    rewrite length_take, length_drop.
    replace (Nat.min k (length (ranges w input) - iit)) with k by lia.
    pose proof (train_batch_same (take k (drop iit (ranges w input)))
                  (take k (drop iit (ranges w expected))) trainer context
                  (bump_samples k w)) as Ht.
    destruct (train_batch _ _ _ _ _ _ _) as [[t' c'] w2]. simpl in Ht.
    assert (Hs : same_setting w w2) by (etrans; eassumption).
    rewrite IH.
    + rewrite (same_ranges _ _ Hs), (same_batch_size _ _ Hs), !drop_drop. reflexivity.
    + by rewrite (same_batch_size _ _ Hs).
    + rewrite (same_ranges _ _ Hs). lia.
    + by rewrite (same_ranges _ _ Hs).
    + rewrite (same_ranges _ _ Hs). lia.
Qed.

Lemma train_sub_spec fuel input expected trainer context w :
  batch_size (this w) ≠ 0%N →
  length (ranges w input) ≤ length (ranges w expected) →
  length (ranges w input) ≤ fuel →
  train_sub L B fuel input expected trainer context w =
  Done (run_batches L B
          (batches_of (N.to_nat (batch_size (this w)))
             (ranges w input) (ranges w expected))
          (trainer, context, w)).
Proof.
  intros Hn Hlen Hfuel. unfold train_sub.
  rewrite train_sub_from_spec by lia. reflexivity.
Qed.

Lemma ceil_div_exact size n : 0 < n → size mod n = 0 → ceil_div size n = size / n.
Proof.
  intros Hn Hm. unfold ceil_div.
  pose proof (Nat.div_mod_eq size n) as Hd. rewrite Hm, Nat.add_0_r in Hd.
  rewrite Hd at 1. replace (n * (size / n) + n - 1) with ((size / n) * n + (n - 1)) by lia.
  rewrite Nat.div_add_l by lia. rewrite (Nat.div_small (n - 1)) by lia. lia.
Qed.

Lemma ceil_div_remainder size n :
  0 < n → size mod n ≠ 0 → ceil_div size n = S (size / n).
Proof.
  intros Hn Hm. unfold ceil_div.
  pose proof (Nat.div_mod_eq size n) as Hd.
  pose proof (Nat.mod_upper_bound size n) as Hu.
  rewrite Hd at 1.
  replace (n * (size / n) + size mod n + n - 1)
    with ((S (size / n)) * n + (size mod n - 1)) by lia.
  rewrite Nat.div_add_l by lia. rewrite (Nat.div_small (size mod n - 1)) by lia. lia.
Qed.

Lemma batches_of_fst n (input expected : list sample) :
  0 < n → length input ≤ length expected →
  (batches_of n input expected).*1 = chunks n input.
Proof.
  intros Hn Hlen. unfold batches_of. apply fst_zip.
  rewrite !length_chunks, length_take by done.
  by rewrite Nat.min_l.
Qed.

Lemma batches_of_snd n (input expected : list sample) :
  0 < n → length input ≤ length expected →
  (batches_of n input expected).*2 = chunks n (take (length input) expected).
Proof.
  intros Hn Hlen. unfold batches_of. apply snd_zip.
  rewrite !length_chunks, length_take by done.
  by rewrite Nat.min_l.
Qed.

Lemma length_batches_of n (input expected : list sample) :
  0 < n → length input ≤ length expected →
  length (batches_of n input expected) = ceil_div (length input) n.
Proof.
  intros Hn Hlen.
  rewrite <- (length_fmap fst), batches_of_fst by done. by apply length_chunks.
Qed.

Lemma batches_of_lookup n (input expected : list sample) k :
  0 < n → length input ≤ length expected → k < ceil_div (length input) n →
  batches_of n input expected !! k =
  Some (take n (drop (k * n) input),
        take n (drop (k * n) (take (length input) expected))).
Proof.
  intros Hn Hlen Hk. unfold batches_of.
  rewrite lookup_zip_with.
  rewrite (chunks_lookup n input) by done.
  rewrite chunks_lookup; [done|done|].
  by rewrite length_take, Nat.min_l.
Qed.

(** ** Range-based runs and the remainder of the samples *)

(** C1 (as amended). One pass of the range form of [train_sub] over [size]
    samples with a batch size [n] that is not zero hands the trainer
    [ceil_div size n] batches and no other: the [size / n] full batches in
    order and, when [size] is not a multiple of [n], a last batch of the
    [size mod n] trailing samples. Together the batches are the whole input
    range: no sample is dropped. *)
Theorem train_sub_trains_on_every_sample fuel input expected trainer context w :
  let size := length (ranges w input) in
  let n := N.to_nat (batch_size (this w)) in
  batch_size (this w) ≠ 0%N →
  size ≤ length (ranges w expected) →
  size ≤ fuel →
  ∃ trainer' context' w' passed,
    train_sub L B fuel input expected trainer context w = Done (trainer', context', w') ∧
    trainer_calls w' = trainer_calls w ++ passed ∧
    length passed = ceil_div size n ∧
    concat passed.*1 = ranges w input ∧
    concat passed.*2 = take size (ranges w expected) ∧
    (∀ k, k < size / n →
       passed !! k = Some (take n (drop (k * n) (ranges w input)),
                           take n (drop (k * n) (ranges w expected)))) ∧
    (size mod n ≠ 0 →
       length passed = S (size / n) ∧
       ∃ rest, passed !! (size / n) = Some (drop (size / n * n) (ranges w input), rest) ∧
               length (drop (size / n * n) (ranges w input)) = size mod n).
Proof.
  intros size n Hbs Hlen Hfuel.
  assert (Hn : 0 < n) by (unfold n; lia).
  rewrite train_sub_spec by done. fold n.
  set (passed := batches_of n (ranges w input) (ranges w expected)).
  destruct (run_batches L B passed (trainer, context, w)) as [[t' c'] w'] eqn:Hrun.
  exists t', c', w', passed.
  split; [done|].
  split. { change w' with (t', c', w').2. rewrite <- Hrun. apply run_batches_calls. }
  split. { by apply length_batches_of. }
  split. { unfold passed. rewrite batches_of_fst by done. by apply concat_chunks. }
  split. { unfold passed. rewrite batches_of_snd by done. by apply concat_chunks. }
  split.
  - intros k Hk. unfold passed.
    assert (k < ceil_div size n).
    { destruct (decide (size mod n = 0)).
      - by rewrite ceil_div_exact.
      - rewrite ceil_div_remainder by done. lia. }
    rewrite batches_of_lookup by done. fold size.
    pose proof (Nat.div_mod_eq size n).
    assert (k * n + n ≤ size) by nia.
    replace size with (k * n + (size - k * n)) at 1 by lia.
    rewrite <- take_drop_commute, take_take.
    by rewrite Nat.min_l by lia.
  - intros Hrem.
    pose proof (Nat.div_mod_eq size n) as Hd.
    assert (Hc : ceil_div size n = S (size / n)) by by apply ceil_div_remainder.
    split. { unfold passed. rewrite length_batches_of by done. done. }
    unfold passed. rewrite batches_of_lookup by (done || fold size; lia).
    eexists. split.
    + f_equal. f_equal. apply take_ge. rewrite length_drop. fold size.
      pose proof (Nat.mod_upper_bound size n). lia.
    + rewrite length_drop. fold size. lia.
Qed.

(** ** Shuffling *)

Lemma length_swap {A : Type} (l : list A) i j : length (swap l i j) = length l.
Proof.
  unfold swap. destruct (l !! i), (l !! j); try done.
  by rewrite !length_insert.
Qed.

Lemma swap_Permutation {A : Type} (l : list A) i j : swap l i j ≡ₚ l.
Proof.
  unfold swap. destruct (l !! i) as [x|] eqn:Hi, (l !! j) as [y|] eqn:Hj; try done.
  by apply Permutation_insert_swap.
Qed.

Lemma swap_zip {A C : Type} (l1 : list A) (l2 : list C) i j :
  length l1 = length l2 → zip (swap l1 i j) (swap l2 i j) = swap (zip l1 l2) i j.
Proof.
  intros Hlen. unfold swap. rewrite !lookup_zip_with.
  destruct (l1 !! i) as [x1|] eqn:Hi1, (l2 !! i) as [x2|] eqn:Hi2; simpl;
    try (apply lookup_lt_Some in Hi1 || apply lookup_lt_Some in Hi2);
    try (apply lookup_ge_None in Hi1 || apply lookup_ge_None in Hi2);
    try lia; [|done].
  destruct (l1 !! j) as [y1|] eqn:Hj1, (l2 !! j) as [y2|] eqn:Hj2; simpl;
    try (apply lookup_lt_Some in Hj1 || apply lookup_lt_Some in Hj2);
    try (apply lookup_ge_None in Hj1 || apply lookup_ge_None in Hj2);
    try lia; [|done].
  by rewrite !insert_zip_with.
Qed.

Lemma length_parallel_shuffle_from {A C : Type} i (l1 : list A) (l2 : list C) g :
  length (parallel_shuffle_from rand_next i l1 l2 g).1.1 = length l1 ∧
  length (parallel_shuffle_from rand_next i l1 l2 g).1.2 = length l2.
Proof.
  revert l1 l2 g. induction i as [|i IH]; intros l1 l2 g; [done|].
  cbn [parallel_shuffle_from]. destruct (uniform_int rand_next g (S i)) as [new_i g'].
  destruct (IH (swap l1 (S i) new_i) (swap l2 (S i) new_i) g') as [-> ->].
  by rewrite !length_swap.
Qed.

Lemma parallel_shuffle_from_pairs {A C : Type} i (l1 : list A) (l2 : list C) g :
  length l1 = length l2 →
  zip (parallel_shuffle_from rand_next i l1 l2 g).1.1
      (parallel_shuffle_from rand_next i l1 l2 g).1.2 ≡ₚ zip l1 l2.
Proof.
  revert l1 l2 g. induction i as [|i IH]; intros l1 l2 g Hlen; [done|].
  cbn [parallel_shuffle_from]. destruct (uniform_int rand_next g (S i)) as [new_i g'].
  rewrite IH by (by rewrite !length_swap).
  rewrite swap_zip by done. apply swap_Permutation.
Qed.

Lemma std_shuffle_from_Permutation {A : Type} i (l : list A) g :
  (std_shuffle_from rand_next i l g).1 ≡ₚ l.
Proof.
  revert l g. induction i as [|i IH]; intros l g; [done|].
  cbn [std_shuffle_from]. destruct (uniform_int rand_next g (S i)) as [new_i g'].
  rewrite IH. apply swap_Permutation.
Qed.

Lemma std_shuffle_Permutation {A : Type} (l : list A) g :
  (std_shuffle rand_next l g).1 ≡ₚ l.
Proof. apply std_shuffle_from_Permutation. Qed.

Lemma shuffle_done input expected w :
  length (ranges w input) = length (ranges w expected) →
  ∃ w', shuffle rand_next B input expected w = Done w' ∧ reordered B input expected w w'.
Proof.
  intros Hlen. unfold shuffle.
  destruct (has_shuffle (traits B)) eqn:Hs; [|by eexists].
  destruct (Denoising B).
  - unfold parallel_shuffle. rewrite decide_True by done.
    pose proof (length_parallel_shuffle_from (length (ranges w input) - 1)
                  (ranges w input) (ranges w expected) (rand_engine w)) as [H1 H2].
    destruct (parallel_shuffle_from _ _ _ _ _) as [[l1 l2] g]. simpl in H1, H2.
    eexists. split; [reflexivity|].
    split; simpl; [done..| | |congruence].
    + intros r. repeat case_decide; subst; congruence.
    + intros r ??. by rewrite !decide_False.
  - pose proof (std_shuffle_Permutation (ranges w input) (rand_engine w)) as Hp.
    destruct (std_shuffle _ _ _) as [l g]. simpl in Hp.
    eexists. split; [reflexivity|].
    split; simpl; [done..| | |congruence].
    + intros r. case_decide; subst; [by rewrite Hp|done].
    + intros r ??. by rewrite decide_False.
Qed.

Lemma shuffle_direct_reordered input w :
  reordered B input input w (shuffle_direct rand_next B input w).
Proof.
  unfold shuffle_direct.
  destruct (has_shuffle (traits B)) eqn:Hs; [|by split].
  pose proof (std_shuffle_Permutation (ranges w input) (rand_engine w)) as Hp.
  destruct (std_shuffle _ _ _) as [l g]. simpl in Hp.
  split; simpl; [done..| | |congruence].
  - intros r. case_decide; subst; [by rewrite Hp|done].
  - intros r ??. by rewrite decide_False.
Qed.

(** ** The joint shuffle of a denoising layer *)

(** C6. For a layer that declares shuffle support, trained in denoising
    mode, the shuffle of an epoch permutes the pairs of an input and its
    expected value: the pair found at a position after the shuffle stood at
    some position before it. [train] shuffles [input_copy] and
    [expected_copy], as [prepare_it] returns them. *)
Theorem shuffle_keeps_pairs_together w :
  has_shuffle (traits B) = true → Denoising B = true →
  length (ranges w input_copy) = length (ranges w expected_copy) →
  ∃ w',
    shuffle rand_next B input_copy expected_copy w = Done w' ∧
    zip (ranges w' input_copy) (ranges w' expected_copy)
      ≡ₚ zip (ranges w input_copy) (ranges w expected_copy) ∧
    ∀ i x y,
      ranges w' input_copy !! i = Some x → ranges w' expected_copy !! i = Some y →
      ∃ j, ranges w input_copy !! j = Some x ∧ ranges w expected_copy !! j = Some y.
Proof.
  intros Hs Hd Hlen. unfold shuffle. rewrite Hs, Hd.
  unfold parallel_shuffle. rewrite decide_True by done.
  pose proof (parallel_shuffle_from_pairs (length (ranges w input_copy) - 1)
                (ranges w input_copy) (ranges w expected_copy) (rand_engine w) Hlen) as Hp.
  destruct (parallel_shuffle_from _ _ _ _ _) as [[l1 l2] g]. simpl in Hp.
  eexists. split; [reflexivity|]. simpl.
  assert (Hz : zip l1 l2 ≡ₚ zip (ranges w input_copy) (ranges w expected_copy)) by done.
  split; [done|].
  intros i x y Hx Hy.
  assert (Hin : (x, y) ∈ zip l1 l2).
  { apply list_elem_of_lookup. exists i. by rewrite lookup_zip_with, Hx, Hy. }
  rewrite Hz in Hin. apply list_elem_of_lookup in Hin as [j Hj].
  exists j. rewrite lookup_zip_with in Hj.
  destruct (ranges w input_copy !! j) as [x'|], (ranges w expected_copy !! j) as [y'|];
    simpl in Hj; try discriminate Hj.
  injection Hj as -> ->. by split.
Qed.

(** ** One epoch over two ranges *)

#[local] Instance epoch_frame_refl input expected : Reflexive (@epoch_frame weights_t rand_state B input expected).
Proof. by intros w; split. Qed.

#[local] Instance epoch_frame_trans input expected :
  Transitive (@epoch_frame weights_t rand_state B input expected).
Proof.
  intros w1 w2 w3 H1 H2; split.
  - by rewrite (epoch_cout _ _ _ _ H2), (epoch_cout _ _ _ _ H1).
  - by rewrite (epoch_batch_size _ _ _ _ H2), (epoch_batch_size _ _ _ _ H1).
  - by rewrite (epoch_total_batches _ _ _ _ H2), (epoch_total_batches _ _ _ _ H1).
  - by rewrite (epoch_initial_momentum _ _ _ _ H2), (epoch_initial_momentum _ _ _ _ H1).
  - by rewrite (epoch_final_momentum _ _ _ _ H2), (epoch_final_momentum _ _ _ _ H1).
  - by rewrite (epoch_final_momentum_epoch _ _ _ _ H2),
      (epoch_final_momentum_epoch _ _ _ _ H1).
  - by rewrite (epoch_layer_batch_size _ _ _ _ H2), (epoch_layer_batch_size _ _ _ _ H1).
  - intros r. by rewrite (epoch_length _ _ _ _ H2), (epoch_length _ _ _ _ H1).
  - intros r ??. by rewrite (epoch_others _ _ _ _ H2), (epoch_others _ _ _ _ H1).
  - intros Hs. destruct (epoch_off _ _ _ _ H1 Hs), (epoch_off _ _ _ _ H2 Hs).
    split; congruence.
Qed.

Lemma reordered_frame input expected w w' :
  reordered B input expected w w' → epoch_frame B input expected w w'.
Proof.
  intros []. split; try congruence; try done.
  intros Hs. by rewrite (reordered_off0 Hs).
Qed.

Lemma same_setting_frame input expected w w' :
  same_setting w w' → epoch_frame B input expected w w'.
Proof.
  intros []. split; try congruence; try done; intros; by rewrite same_ranges0.
Qed.

Lemma init_epoch_same w : same_setting w (init_epoch w).
Proof. by split. Qed.

(** [finalize_epoch] applies the momentum schedule and touches nothing else
    that a later epoch reads. *)
Lemma finalize_epoch_frame input expected epoch context w :
  epoch_frame B input expected w (finalize_epoch L B epoch context w).2.
Proof.
  unfold finalize_epoch.
  destruct (has_momentum (traits B) && (epoch =? final_momentum_epoch (rbm w))%N),
    (EnableWatcher B); by split.
Qed.

Lemma finalize_epoch_momentum epoch context w :
  momentum (rbm (finalize_epoch L B epoch context w).2) =
  if has_momentum (traits B) && (epoch =? final_momentum_epoch (rbm w))%N
  then final_momentum (rbm w) else momentum (rbm w).
Proof.
  unfold finalize_epoch.
  by destruct (has_momentum (traits B) && (epoch =? final_momentum_epoch (rbm w))%N),
    (EnableWatcher B).
Qed.

Lemma finalize_epoch_calls epoch context w :
  trainer_calls (finalize_epoch L B epoch context w).2 = trainer_calls w.
Proof.
  unfold finalize_epoch.
  by destruct (has_momentum (traits B) && (epoch =? final_momentum_epoch (rbm w))%N),
    (EnableWatcher B).
Qed.

Lemma finalize_epoch_weights epoch context w :
  weights (rbm (finalize_epoch L B epoch context w).2) = weights (rbm w).
Proof.
  unfold finalize_epoch.
  by destruct (has_momentum (traits B) && (epoch =? final_momentum_epoch (rbm w))%N),
    (EnableWatcher B).
Qed.

(** The epoch of [train] in closed form. *)
Lemma train_epoch_spec fuel input expected epoch trainer w :
  batch_size (this w) ≠ 0%N →
  length (ranges w input) = length (ranges w expected) →
  length (ranges w input) ≤ fuel →
  ∃ w1,
    shuffle rand_next B input expected w = Done w1 ∧
    reordered B input expected w w1 ∧
    train_epoch rand_next L B fuel input expected epoch trainer w =
    Done (let s := run_batches L B
                     (batches_of (N.to_nat (batch_size (this w)))
                        (ranges w1 input) (ranges w1 expected))
                     (trainer, new_context, init_epoch w1) in
          (s.1.1, (finalize_epoch L B epoch s.1.2 s.2).1,
           (finalize_epoch L B epoch s.1.2 s.2).2)).
Proof.
  intros Hbs Hlen Hfuel.
  destruct (shuffle_done input expected w Hlen) as (w1 & Hsh & Hre).
  exists w1. split; [done|]. split; [done|].
  unfold train_epoch. rewrite Hsh. cbn [mbind outcome_bind].
  pose proof (reordered_length _ _ _ _ Hre) as Hl.
  rewrite train_sub_spec; cbn [init_epoch set_samples set_batches with_this ranges this batch_size].
  - rewrite (reordered_this _ _ _ _ Hre).
    cbn [mbind outcome_bind].
    destruct (run_batches _ _ _ _) as [[t c] w2]. cbn [fst snd].
    by destruct (finalize_epoch L B epoch c w2).
  - by rewrite (reordered_this _ _ _ _ Hre).
  - by rewrite !Hl, Hlen.
  - by rewrite Hl.
Qed.

(** The effect of one epoch of [train], as far as the later epochs and the
    caller can tell. *)
Lemma train_epoch_summary fuel input expected epoch trainer w :
  batch_size (this w) ≠ 0%N →
  length (ranges w input) = length (ranges w expected) →
  length (ranges w input) ≤ fuel →
  ∃ trainer' context' w',
    train_epoch rand_next L B fuel input expected epoch trainer w =
      Done (trainer', context', w') ∧
    epoch_frame B input expected w w' ∧
    momentum (rbm w') =
      (if has_momentum (traits B) && (epoch =? final_momentum_epoch (rbm w))%N
       then final_momentum (rbm w) else momentum (rbm w)) ∧
    (has_shuffle (traits B) = false →
     trainer_calls w' =
     trainer_calls w ++
       batches_of (N.to_nat (batch_size (this w))) (ranges w input) (ranges w expected)).
Proof.
  intros Hbs Hlen Hfuel.
  destruct (train_epoch_spec fuel input expected epoch trainer w Hbs Hlen Hfuel)
    as (w1 & _ & Hre & ->).
  set (l := batches_of _ _ _).
  pose proof (run_batches_same l (trainer, new_context, init_epoch w1)) as Hsame.
  pose proof (run_batches_calls l (trainer, new_context, init_epoch w1)) as Hcalls.
  destruct (run_batches L B l _) as [[t c] w2]. cbn [fst snd] in *.
  assert (Hs : same_setting w1 w2) by (etrans; [apply init_epoch_same|done]).
  eexists _, _, _. split; [reflexivity|]. cbn [fst snd].
  split.
  { etrans; [by apply reordered_frame|].
    etrans; [by apply same_setting_frame|]. apply finalize_epoch_frame. }
  split.
  { rewrite finalize_epoch_momentum.
    by rewrite (same_final_momentum_epoch _ _ Hs), (same_final_momentum _ _ Hs),
      (same_momentum _ _ Hs), (reordered_rbm _ _ _ _ Hre). }
  intros Hoff. rewrite finalize_epoch_calls, Hcalls. cbn.
  rewrite (reordered_calls _ _ _ _ Hre). unfold l.
  by rewrite (reordered_off _ _ _ _ Hre Hoff).
Qed.

(** An invariant of the epochs holds after the loop. *)
Lemma train_epochs_invariant (P : N → world → Prop) fuel input expected :
  (∀ epoch trainer w,
     P epoch w →
     ∃ trainer' context' w',
       train_epoch rand_next L B fuel input expected epoch trainer w =
         Done (trainer', context', w') ∧
       P (epoch + 1)%N w') →
  ∀ n epoch trainer w,
    P epoch w →
    ∃ trainer' w',
      train_epochs rand_next L B fuel n input expected epoch trainer w =
        Done (trainer', w') ∧
      P (epoch + N.of_nat n)%N w'.
Proof.
  intros Hstep. induction n as [|n IH]; intros epoch trainer w HP.
  - exists trainer, w. split; [done|]. by rewrite N.add_0_r.
  - destruct (Hstep epoch trainer w HP) as (t1 & c1 & w1 & Hrun & HP1).
    destruct (IH (epoch + 1)%N t1 w1 HP1) as (t2 & w2 & Hrun2 & HP2).
    exists t2, w2. cbn [train_epochs]. rewrite Hrun. cbn [mbind outcome_bind].
    split; [done|].
    by replace (epoch + N.of_nat (S n))%N with (epoch + 1 + N.of_nat n)%N by lia.
Qed.

(** ** A whole run over two ranges *)

Lemma prepare_it_spec ifirst efirst w :
  is_caller ifirst → is_caller efirst →
  ∃ input expected w',
    prepare_it B ifirst efirst (write (write w input_copy []) expected_copy []) =
      (input, expected, w') ∧
    rbm w' = rbm w ∧ this w' = this w ∧ rand_engine w' = rand_engine w ∧
    cout w' = cout w ∧ trainer_calls w' = trainer_calls w ∧
    ranges w' input = ranges w ifirst ∧
    ranges w' expected =
      ranges w (if has_shuffle (traits B) && negb (Denoising B) then ifirst else efirst) ∧
    (∀ r, is_caller r → ranges w' r = ranges w r) ∧
    (has_shuffle (traits B) = true →
     input = input_copy ∧ expected = (if Denoising B then expected_copy else input_copy)) ∧
    (has_shuffle (traits B) = false → input = ifirst ∧ expected = efirst).
Proof.
  intros Hi He. unfold prepare_it.
  destruct (has_shuffle (traits B)) eqn:Hs, (Denoising B) eqn:Hd;
    eexists _, _, _; (split; [reflexivity|]);
    destruct Hi as [-> | ->], He as [-> | ->]; cbn;
    repeat split; try done; try (intros r [-> | ->]; done).
Qed.

Lemma init_training_spec random_access input w :
  layer_batch_size (rbm w) ≠ 0%N →
  ∃ w',
    init_training B random_access input w = Done w' ∧
    ranges w' = ranges w ∧ rand_engine w' = rand_engine w ∧
    trainer_calls w' = trainer_calls w ∧
    rbm w' = set_momentum (rbm w) (initial_momentum (rbm w)) ∧
    batch_size (this w') = layer_batch_size (rbm w) ∧
    last_error (this w') = 0%float ∧
    cout w' =
      cout w ++ diagnostic B random_access (N.of_nat (length (ranges w input)))
                  (layer_batch_size (rbm w)).
Proof.
  intros Hbs. apply N.eqb_neq in Hbs.
  unfold init_training, diagnostic, get_batch_size.
  destruct random_access, (EnableWatcher B); cbn; rewrite ?Hbs;
    try destruct (N.of_nat (length (ranges w input)) mod layer_batch_size (rbm w) =? 0)%N;
    try destruct (DLL_SILENT B); cbn;
    eexists; (split; [reflexivity|]); cbn; by rewrite ?app_nil_r.
Qed.

Lemma train_ranges_prepared fuel caller_category ifirst efirst max_epochs w :
  is_caller ifirst → is_caller efirst →
  layer_batch_size (rbm w) ≠ 0%N →
  ∃ input expected w',
    prepared L B caller_category ifirst efirst input expected w w' ∧
    train_ranges rand_next L B fuel caller_category ifirst efirst max_epochs w =
    '(_, w'') ← train_epochs rand_next L B fuel (N.to_nat max_epochs) input expected 0%N
                 (get_trainer L w') w';
    mret (finalize_training B w'').
Proof.
  intros Hi He Hbs.
  destruct (prepare_it_spec ifirst efirst w Hi He)
    as (input & expected & w1 & Hprep & Hrbm & Hthis & Hrand & Hcout & Hcalls
        & Hin & Hex & Hcaller & Hcopies & Hdirect).
  assert (Hbs1 : layer_batch_size (rbm w1) ≠ 0%N) by by rewrite Hrbm.
  destruct (init_training_spec (random_access_iterator caller_category input) input w1 Hbs1)
    as (w2 & Hinit & Hranges2 & Hrand2 & Hcalls2 & Hrbm2 & Hbs2 & Herr2 & Hcout2).
  exists input, expected, (init_weights L B input w2).
  split.
  - rewrite Hrbm in Hrbm2, Hbs2, Hcout2. rewrite Hin, Hcout in Hcout2.
    unfold init_weights.
    destruct (has_init_weights (traits B)) eqn:Hiw; split; cbn;
      rewrite ?Hiw, ?Hranges2, ?Hrbm2, ?Hbs2, ?Herr2, ?Hcout2, ?Hcalls2, ?Hrand2;
      try done.
    all: try (intros r Hr; by apply Hcaller).
    by rewrite Hin.
  - unfold train_ranges. rewrite Hprep, Hinit. reflexivity.
Qed.

(** The effect of [n] epochs of [train] from epoch 0. *)
Lemma train_epochs_summary fuel n input expected trainer w :
  batch_size (this w) ≠ 0%N →
  length (ranges w input) = length (ranges w expected) →
  length (ranges w input) ≤ fuel →
  ∃ trainer' w',
    train_epochs rand_next L B fuel n input expected 0%N trainer w = Done (trainer', w') ∧
    epoch_frame B input expected w w' ∧
    momentum (rbm w') =
      (if has_momentum (traits B) && (final_momentum_epoch (rbm w) <? N.of_nat n)%N
       then final_momentum (rbm w) else momentum (rbm w)) ∧
    (has_shuffle (traits B) = false →
     trainer_calls w' =
     trainer_calls w ++
       concat (replicate n
                 (batches_of (N.to_nat (batch_size (this w)))
                    (ranges w input) (ranges w expected)))).
Proof.
  intros Hbs Hlen Hfuel.
  pose (P := λ (epoch : N) (w' : world),
    epoch_frame B input expected w w' ∧
    momentum (rbm w') =
      (if has_momentum (traits B) && (final_momentum_epoch (rbm w) <? epoch)%N
       then final_momentum (rbm w) else momentum (rbm w)) ∧
    (has_shuffle (traits B) = false →
     trainer_calls w' =
     trainer_calls w ++
       concat (replicate (N.to_nat epoch)
                 (batches_of (N.to_nat (batch_size (this w)))
                    (ranges w input) (ranges w expected))))).
  destruct (train_epochs_invariant P fuel input expected) with (n := n) (epoch := 0%N)
    (trainer := trainer) (w := w) as (t' & w' & Hrun & Hf & Hm & Hc).
  - clear trainer. intros epoch trainer w1 (Hf & Hm & Hc).
    destruct (train_epoch_summary fuel input expected epoch trainer w1)
      as (t' & c' & w' & Hrun & Hf' & Hm' & Hc').
    { by rewrite (epoch_batch_size _ _ _ _ Hf). }
    { by rewrite !(epoch_length _ _ _ _ Hf). }
    { by rewrite (epoch_length _ _ _ _ Hf). }
    exists t', c', w'. split; [done|]. split; [by etrans|]. split.
    + rewrite Hm', Hm.
      rewrite (epoch_final_momentum_epoch _ _ _ _ Hf), (epoch_final_momentum _ _ _ _ Hf).
      destruct (has_momentum (traits B)); [|done]. cbn [andb].
      destruct (N.eqb_spec epoch (final_momentum_epoch (rbm w))) as [->|Hne].
      * by rewrite (proj2 (N.ltb_lt _ _)) by lia.
      * destruct (N.ltb_spec (final_momentum_epoch (rbm w)) epoch).
        -- by rewrite (proj2 (N.ltb_lt _ _)) by lia.
        -- by rewrite (proj2 (N.ltb_ge _ _)) by lia.
    + intros Hoff. rewrite (Hc' Hoff), (Hc Hoff).
      destruct (epoch_off _ _ _ _ Hf Hoff) as [-> _].
      rewrite (epoch_batch_size _ _ _ _ Hf).
      rewrite <- app_assoc. f_equal.
      replace (N.to_nat (epoch + 1)) with (N.to_nat epoch + 1) by lia.
      rewrite replicate_add, concat_app. simpl. by rewrite app_nil_r.
  - split; [reflexivity|]. split.
    + assert ((final_momentum_epoch (rbm w) <? 0)%N = false) as ->
        by (apply N.ltb_ge; lia).
      by rewrite andb_false_r.
    + intros _. simpl. by rewrite app_nil_r.
  - exists t', w'. rewrite N.add_0_l, Nat2N.id in *. done.
Qed.

Lemma finalize_training_spec w :
  (finalize_training B w).1 = last_error (this w) ∧
  rbm (finalize_training B w).2 = rbm w ∧
  ranges (finalize_training B w).2 = ranges w ∧
  cout (finalize_training B w).2 = cout w ∧
  rand_engine (finalize_training B w).2 = rand_engine w ∧
  trainer_calls (finalize_training B w).2 = trainer_calls w.
Proof. unfold finalize_training. by destruct (EnableWatcher B). Qed.

(** The effect of a whole run of [train]. *)
Lemma train_ranges_summary fuel caller_category ifirst efirst max_epochs w :
  is_caller ifirst → is_caller efirst →
  layer_batch_size (rbm w) ≠ 0%N →
  length (ranges w ifirst) = length (ranges w efirst) →
  length (ranges w ifirst) ≤ fuel →
  ∃ input expected w1 trainer' w2,
    prepared L B caller_category ifirst efirst input expected w w1 ∧
    train_epochs rand_next L B fuel (N.to_nat max_epochs) input expected 0%N
      (get_trainer L w1) w1 = Done (trainer', w2) ∧
    train_ranges rand_next L B fuel caller_category ifirst efirst max_epochs w =
      Done (finalize_training B w2) ∧
    epoch_frame B input expected w1 w2 ∧
    momentum (rbm w2) =
      (if has_momentum (traits B) && (final_momentum_epoch (rbm w) <? max_epochs)%N
       then final_momentum (rbm w) else initial_momentum (rbm w)) ∧
    (has_shuffle (traits B) = false →
     trainer_calls w2 =
     trainer_calls w ++
       concat (replicate (N.to_nat max_epochs)
                 (batches_of (N.to_nat (layer_batch_size (rbm w)))
                    (ranges w ifirst) (ranges w efirst)))).
Proof.
  intros Hi He Hbs Hlen Hfuel.
  destruct (train_ranges_prepared fuel caller_category ifirst efirst max_epochs w Hi He Hbs)
    as (input & expected & w1 & Hprep & Hrun).
  assert (Hlen1 : length (ranges w1 input) = length (ranges w1 expected)).
  { rewrite (prepared_input _ _ _ _ _ _ _ Hprep), (prepared_expected _ _ _ _ _ _ _ Hprep).
    by destruct (has_shuffle (traits B) && negb (Denoising B)). }
  destruct (train_epochs_summary fuel (N.to_nat max_epochs) input expected
              (get_trainer L w1) w1) as (t' & w2 & Hepochs & Hf & Hm & Hc).
  { by rewrite (prepared_batch_size _ _ _ _ _ _ _ Hprep). }
  { done. }
  { by rewrite (prepared_input _ _ _ _ _ _ _ Hprep). }
  exists input, expected, w1, t', w2.
  split; [done|]. split; [done|]. split.
  { rewrite Hrun, Hepochs. reflexivity. }
  split; [done|]. split.
  - rewrite Hm, N2Nat.id.
    by rewrite (prepared_final_momentum_epoch _ _ _ _ _ _ _ Hprep),
      (prepared_final_momentum _ _ _ _ _ _ _ Hprep),
      (prepared_momentum _ _ _ _ _ _ _ Hprep).
  - intros Hoff. rewrite (Hc Hoff).
    rewrite (prepared_calls _ _ _ _ _ _ _ Hprep),
      (prepared_batch_size _ _ _ _ _ _ _ Hprep),
      (prepared_input _ _ _ _ _ _ _ Hprep), (prepared_expected _ _ _ _ _ _ _ Hprep).
    by rewrite Hoff.
Qed.

(** ** The caller's ranges *)

(** C10. For a layer that declares shuffle support, [train] iterates over
    [input_copy] (and, in denoising mode, [expected_copy]), which
    [prepare_it] fills with the samples of the caller; the run ends and
    leaves both ranges of the caller as they were. *)
Theorem train_leaves_caller_ranges fuel caller_category ifirst efirst max_epochs w :
  has_shuffle (traits B) = true →
  is_caller ifirst → is_caller efirst →
  layer_batch_size (rbm w) ≠ 0%N →
  length (ranges w ifirst) = length (ranges w efirst) →
  length (ranges w ifirst) ≤ fuel →
  ∃ w0 e w',
    prepare_it B ifirst efirst (write (write w input_copy []) expected_copy []) =
      (input_copy, if Denoising B then expected_copy else input_copy, w0) ∧
    ranges w0 input_copy = ranges w ifirst ∧
    (Denoising B = true → ranges w0 expected_copy = ranges w efirst) ∧
    train_ranges rand_next L B fuel caller_category ifirst efirst max_epochs w =
      Done (e, w') ∧
    ranges w' caller_input = ranges w caller_input ∧
    ranges w' caller_expected = ranges w caller_expected.
Proof.
  intros Hs Hi He Hbs Hlen Hfuel.
  destruct (prepare_it_spec ifirst efirst w Hi He)
    as (input0 & expected0 & w0 & Hprep & _ & _ & _ & _ & _ & Hin & Hex & _ & Hcopies & _).
  destruct (Hcopies Hs) as [-> ->].
  destruct (train_ranges_summary fuel caller_category ifirst efirst max_epochs w
              Hi He Hbs Hlen Hfuel)
    as (input & expected & w1 & t' & w2 & Hp & _ & Hrun & Hf & _ & _).
  destruct (prepared_copies _ _ _ _ _ _ _ Hp Hs) as [-> ->].
  destruct (finalize_training_spec w2) as (_ & _ & Hr & _).
  exists w0, (finalize_training B w2).1, (finalize_training B w2).2.
  split; [done|]. split; [done|]. split.
  { intros Hd. rewrite Hd in Hex. by rewrite Hex, Hs. }
  split. { rewrite Hrun. by destruct (finalize_training B w2). }
  rewrite Hr.
  split.
  - rewrite (epoch_others _ _ _ _ Hf) by (by destruct (Denoising B)).
    apply (prepared_caller _ _ _ _ _ _ _ Hp). by left.
  - rewrite (epoch_others _ _ _ _ Hf) by (by destruct (Denoising B)).
    apply (prepared_caller _ _ _ _ _ _ _ Hp). by right.
Qed.

(** ** Layers that do not shuffle *)

(** C7. For a layer that does not declare shuffle support, the shuffle of
    an epoch does nothing, and a run of [train] presents to the trainer, in
    every epoch, the batches of the caller's ranges in their order: two runs
    that start from the same layer and the same data present the same
    batches in the same order, whatever the rest of the world (the random
    engine among it) is. *)
Theorem train_without_shuffle_is_ordered fuel caller_category ifirst efirst max_epochs
    w1 w2 :
  has_shuffle (traits B) = false →
  is_caller ifirst → is_caller efirst →
  rbm w1 = rbm w2 →
  ranges w1 ifirst = ranges w2 ifirst →
  ranges w1 efirst = ranges w2 efirst →
  layer_batch_size (rbm w1) ≠ 0%N →
  length (ranges w1 ifirst) = length (ranges w1 efirst) →
  length (ranges w1 ifirst) ≤ fuel →
  (∀ input expected w, shuffle rand_next B input expected w = Done w) ∧
  ∃ e1 w1' e2 w2',
    train_ranges rand_next L B fuel caller_category ifirst efirst max_epochs w1 =
      Done (e1, w1') ∧
    train_ranges rand_next L B fuel caller_category ifirst efirst max_epochs w2 =
      Done (e2, w2') ∧
    let order :=
      batches_of (N.to_nat (layer_batch_size (rbm w1)))
        (ranges w1 ifirst) (ranges w1 efirst) in
    trainer_calls w1' = trainer_calls w1 ++ concat (replicate (N.to_nat max_epochs) order) ∧
    trainer_calls w2' = trainer_calls w2 ++ concat (replicate (N.to_nat max_epochs) order) ∧
    rand_engine w1' = rand_engine w1.
Proof.
  intros Hs Hi He Hrbm Hin Hex Hbs Hlen Hfuel.
  split. { intros input expected w. unfold shuffle. by rewrite Hs. }
  destruct (train_ranges_summary fuel caller_category ifirst efirst max_epochs w1
              Hi He Hbs Hlen Hfuel)
    as (input & expected & u1 & t1 & v1 & Hp1 & _ & Hrun1 & Hf1 & _ & Hc1).
  destruct (train_ranges_summary fuel caller_category ifirst efirst max_epochs w2)
    as (input' & expected' & u2 & t2 & v2 & Hp2 & _ & Hrun2 & _ & _ & Hc2);
    [done|done|by rewrite <- Hrbm|by rewrite <- Hin, <- Hex|by rewrite <- Hin|].
  destruct (finalize_training_spec v1) as (_ & _ & Hr1 & _ & Hg1 & Hcalls1).
  destruct (finalize_training_spec v2) as (_ & _ & _ & _ & _ & Hcalls2).
  exists (finalize_training B v1).1, (finalize_training B v1).2,
    (finalize_training B v2).1, (finalize_training B v2).2.
  split. { rewrite Hrun1. by destruct (finalize_training B v1). }
  split. { rewrite Hrun2. by destruct (finalize_training B v2). }
  cbn zeta. rewrite Hcalls1, Hcalls2, Hg1, (Hc1 Hs), (Hc2 Hs).
  rewrite <- Hrbm, <- Hin, <- Hex.
  split; [done|]. split; [done|].
  destruct (epoch_off _ _ _ _ Hf1 Hs) as [_ ->].
  apply (prepared_rand_engine _ _ _ _ _ _ _ Hp1).
Qed.

(** ** Runs over a generator *)

Lemma train_sub_generator_spec fuel (valid : generator_t → Prop) generator trainer
    context w :
  (∀ g, valid g → valid (next_batch G g)) → valid generator →
  exhausted_within G fuel generator = true →
  ∃ generator' trainer' context' w',
    train_sub_generator L G B fuel generator trainer context w =
      Done (generator', trainer', context', w') ∧
    valid generator' ∧
    same_setting w w' ∧
    samples (this w') = samples (this w).
Proof.
  intros Hnb. revert generator trainer context w.
  induction fuel as [|fuel IH]; intros generator trainer context w Hv Hex;
    cbn [train_sub_generator exhausted_within] in *;
    destruct (has_next_batch G generator) eqn:Hnext; try done;
    try (by eexists _, _, _, _).
  pose proof (train_batch_same (data_batch G generator) (label_batch G generator)
                trainer context w) as Hs.
  pose proof (train_batch_counters (data_batch G generator) (label_batch G generator)
                trainer context w) as [_ Hc].
  destruct (train_batch _ _ _ _ _ _ _) as [[t1 c1] w1]. cbn [snd] in *.
  destruct (IH (next_batch G generator) t1 c1 w1 (Hnb _ Hv) Hex)
    as (g' & t' & c' & w' & -> & Hv' & Hs' & Hc').
  exists g', t', c', w'. split; [done|]. split; [done|].
  split; [by etrans|congruence].
Qed.

(** Division of a [double] by the [size_t] zero. *)
Lemma div_by_size_zero (x : float) :
  (x / size_to_double 0)%float = nan ∨
  (x / size_to_double 0)%float = infinity ∨
  (x / size_to_double 0)%float = neg_infinity.
Proof.
  rewrite <- (SF2Prim_Prim2SF (x / size_to_double 0)), div_spec.
  change (Prim2SF (size_to_double 0)) with (S754_zero false).
  destruct (Prim2SF x) as [s|s| |s m e]; cbn; try destruct s; auto.
Qed.

(** The epoch of the generator form of [train] in closed form: the pass
    over the generator leaves [samples] at the zero [init_epoch] gave it. *)
Lemma train_epoch_generator_spec fuel valid epoch generator trainer w :
  ending_generator L G fuel valid → valid generator →
  ∃ generator' trainer' context' w',
    train_sub_generator L G B fuel
      (set_train G (if has_shuffle (traits B)
                    then (reset_shuffle G generator (rand_engine w)).1
                    else reset G generator))
      trainer new_context
      (init_epoch (if has_shuffle (traits B)
                   then with_rand_engine w (reset_shuffle G generator (rand_engine w)).2
                   else w)) = Done (generator', trainer', context', w') ∧
    valid generator' ∧
    same_setting (if has_shuffle (traits B)
                  then with_rand_engine w (reset_shuffle G generator (rand_engine w)).2
                  else w) w' ∧
    samples (this w') = 0%N ∧
    train_epoch_generator L G B fuel epoch generator trainer w =
      Done (generator', trainer', (finalize_epoch L B epoch context' w').1,
            (finalize_epoch L B epoch context' w').2).
Proof.
  intros Hg Hv. unfold train_epoch_generator.
  destruct (has_shuffle (traits B)).
  - pose proof (valid_reset_shuffle _ _ _ _ Hg generator (rand_engine w) Hv) as Hv0.
    destruct (reset_shuffle G generator (rand_engine w)) as [g0 r0]. cbn [fst snd] in *.
    pose proof (valid_set_train _ _ _ _ Hg _ Hv0) as Hv1.
    destruct (train_sub_generator_spec fuel valid (set_train G g0) trainer new_context
                (init_epoch (with_rand_engine w r0))
                (valid_next_batch _ _ _ _ Hg) Hv1 (valid_exhausted _ _ _ _ Hg _ Hv1))
      as (g' & t' & c' & w' & Hrun & Hv' & Hs & Hc).
    exists g', t', c', w'. split; [done|]. split; [done|].
    split; [by etrans; [apply init_epoch_same|]|]. split; [done|].
    rewrite Hrun. cbn [mbind outcome_bind].
    by destruct (finalize_epoch L B epoch c' w').
  - pose proof (valid_set_train _ _ _ _ Hg _ (valid_reset _ _ _ _ Hg _ Hv)) as Hv1.
    destruct (train_sub_generator_spec fuel valid (set_train G (reset G generator))
                trainer new_context (init_epoch w)
                (valid_next_batch _ _ _ _ Hg) Hv1 (valid_exhausted _ _ _ _ Hg _ Hv1))
      as (g' & t' & c' & w' & Hrun & Hv' & Hs & Hc).
    exists g', t', c', w'. split; [done|]. split; [done|].
    split; [by etrans; [apply init_epoch_same|]|]. split; [done|].
    rewrite Hrun. cbn [mbind outcome_bind].
    by destruct (finalize_epoch L B epoch c' w').
Qed.

(** ** The sample counter of a run over a generator *)

(** C4. In an epoch of a run over a generator whose passes end, the pass
    leaves the counter [samples] at zero, whatever the number of batches,
    and [finalize_epoch] divides the accumulated free energy by that zero:
    the free energy of the epoch is not a finite number. *)
Theorem generator_epoch_divides_by_zero fuel valid epoch generator trainer w :
  ending_generator L G fuel valid → valid generator →
  ∃ generator' trainer' accumulated before,
    train_sub_generator L G B fuel
      (set_train G (if has_shuffle (traits B)
                    then (reset_shuffle G generator (rand_engine w)).1
                    else reset G generator))
      trainer new_context
      (init_epoch (if has_shuffle (traits B)
                   then with_rand_engine w (reset_shuffle G generator (rand_engine w)).2
                   else w)) = Done (generator', trainer', accumulated, before) ∧
    samples (this before) = 0%N ∧
    train_epoch_generator L G B fuel epoch generator trainer w =
      Done (generator', trainer', (finalize_epoch L B epoch accumulated before).1,
            (finalize_epoch L B epoch accumulated before).2) ∧
    free_energy (finalize_epoch L B epoch accumulated before).1 =
      (free_energy accumulated / size_to_double 0)%float ∧
    (free_energy (finalize_epoch L B epoch accumulated before).1 = nan ∨
     free_energy (finalize_epoch L B epoch accumulated before).1 = infinity ∨
     free_energy (finalize_epoch L B epoch accumulated before).1 = neg_infinity).
Proof.
  intros Hg Hv.
  destruct (train_epoch_generator_spec fuel valid epoch generator trainer w Hg Hv)
    as (g' & t' & c' & w' & Hpass & _ & _ & Hc & Hrun).
  exists g', t', c', w'.
  split; [done|]. split; [done|]. split; [done|].
  assert (Hfe : free_energy (finalize_epoch L B epoch c' w').1 =
                (free_energy c' / size_to_double 0)%float).
  { unfold finalize_epoch. by rewrite Hc. }
  split; [done|]. rewrite Hfe. apply div_by_size_zero.
Qed.

#[local] Instance run_frame_refl : Reflexive (@run_frame weights_t rand_state).
Proof. by intros w; split. Qed.

#[local] Instance run_frame_trans : Transitive (@run_frame weights_t rand_state).
Proof.
  intros w1 w2 w3 H1 H2; split.
  - by rewrite (run_cout _ _ H2), (run_cout _ _ H1).
  - by rewrite (run_batch_size _ _ H2), (run_batch_size _ _ H1).
  - by rewrite (run_initial_momentum _ _ H2), (run_initial_momentum _ _ H1).
  - by rewrite (run_final_momentum _ _ H2), (run_final_momentum _ _ H1).
  - by rewrite (run_final_momentum_epoch _ _ H2), (run_final_momentum_epoch _ _ H1).
  - by rewrite (run_layer_batch_size _ _ H2), (run_layer_batch_size _ _ H1).
  - intros r. by rewrite (run_length _ _ H2), (run_length _ _ H1).
  - intros r Hr. by rewrite (run_caller _ _ H2), (run_caller _ _ H1).
Qed.

Lemma same_setting_run w w' : same_setting w w' → run_frame w w'.
Proof. intros []. split; try congruence; try done; intros; by rewrite same_ranges0. Qed.

Lemma finalize_epoch_run epoch context w :
  run_frame w (finalize_epoch L B epoch context w).2.
Proof.
  unfold finalize_epoch.
  destruct (has_momentum (traits B) && (epoch =? final_momentum_epoch (rbm w))%N),
    (EnableWatcher B); by split.
Qed.

(** The momentum after one more epoch. *)
Lemma momentum_step (has : bool) (target epoch : N) (final initial : float) :
  (if has && (epoch =? target)%N then final
   else if has && (target <? epoch)%N then final else initial) =
  (if has && (target <? epoch + 1)%N then final else initial).
Proof.
  destruct has; [|done]. cbn [andb].
  destruct (N.eqb_spec epoch target) as [->|Hne].
  - by rewrite (proj2 (N.ltb_lt _ _)) by lia.
  - destruct (N.ltb_spec target epoch).
    + by rewrite (proj2 (N.ltb_lt _ _)) by lia.
    + by rewrite (proj2 (N.ltb_ge _ _)) by lia.
Qed.

Lemma momentum_start (has : bool) (target : N) (final initial : float) :
  (if has && (target <? 0)%N then final else initial) = initial.
Proof.
  assert ((target <? 0)%N = false) as -> by (apply N.ltb_ge; lia).
  by rewrite andb_false_r.
Qed.

Lemma train_epoch_generator_summary fuel valid epoch generator trainer w :
  ending_generator L G fuel valid → valid generator →
  ∃ generator' trainer' context' w',
    train_epoch_generator L G B fuel epoch generator trainer w =
      Done (generator', trainer', context', w') ∧
    valid generator' ∧
    run_frame w w' ∧
    momentum (rbm w') =
      (if has_momentum (traits B) && (epoch =? final_momentum_epoch (rbm w))%N
       then final_momentum (rbm w) else momentum (rbm w)).
Proof.
  intros Hg Hv.
  destruct (train_epoch_generator_spec fuel valid epoch generator trainer w Hg Hv)
    as (g' & t' & c' & w' & _ & Hv' & Hs & _ & Hrun).
  eexists _, _, _, _. split; [exact Hrun|]. split; [done|].
  set (w0 := if has_shuffle (traits B) then _ else w) in Hs.
  assert (Hrbm : rbm w0 = rbm w) by (unfold w0; by destruct (has_shuffle (traits B))).
  assert (Hf0 : run_frame w w0) by (unfold w0; by destruct (has_shuffle (traits B))).
  split.
  - etrans; [exact Hf0|]. etrans; [by apply same_setting_run|apply finalize_epoch_run].
  - rewrite finalize_epoch_momentum.
    by rewrite (same_final_momentum_epoch _ _ Hs), (same_final_momentum _ _ Hs),
      (same_momentum _ _ Hs), Hrbm.
Qed.

Lemma train_epochs_generator_summary fuel valid n generator trainer w :
  ending_generator L G fuel valid → valid generator →
  ∃ generator' trainer' w',
    train_epochs_generator L G B fuel n 0%N generator trainer w =
      Done (generator', trainer', w') ∧
    run_frame w w' ∧
    momentum (rbm w') =
      (if has_momentum (traits B) && (final_momentum_epoch (rbm w) <? N.of_nat n)%N
       then final_momentum (rbm w) else momentum (rbm w)).
Proof.
  intros Hg.
  enough (Hgen : ∀ n epoch generator trainer w0,
    valid generator →
    run_frame w w0 →
    momentum (rbm w0) =
      (if has_momentum (traits B) && (final_momentum_epoch (rbm w) <? epoch)%N
       then final_momentum (rbm w) else momentum (rbm w)) →
    ∃ generator' trainer' w',
      train_epochs_generator L G B fuel n epoch generator trainer w0 =
        Done (generator', trainer', w') ∧
      run_frame w w' ∧
      momentum (rbm w') =
        (if has_momentum (traits B)
            && (final_momentum_epoch (rbm w) <? epoch + N.of_nat n)%N
         then final_momentum (rbm w) else momentum (rbm w))).
  { intros Hv. destruct (Hgen n 0%N generator trainer w Hv) as (g' & t' & w' & ? & ? & ?).
    - reflexivity.
    - by rewrite momentum_start.
    - exists g', t', w'. by rewrite N.add_0_l in *. }
  clear n generator trainer.
  induction n as [|n IH]; intros epoch generator trainer w0 Hv Hf Hm.
  - exists generator, trainer, w0. by rewrite N.add_0_r.
  - destruct (train_epoch_generator_summary fuel valid epoch generator trainer w0 Hg Hv)
      as (g1 & t1 & c1 & w1 & Hrun & Hv1 & Hf1 & Hm1).
    destruct (IH (epoch + 1)%N g1 t1 w1 Hv1) as (g2 & t2 & w2 & Hrun2 & Hf2 & Hm2).
    { by etrans. }
    { rewrite Hm1, Hm, (run_final_momentum_epoch _ _ Hf), (run_final_momentum _ _ Hf).
      apply momentum_step. }
    exists g2, t2, w2. cbn [train_epochs_generator]. rewrite Hrun.
    cbn [mbind outcome_bind]. split; [done|]. split; [done|].
    by replace (epoch + N.of_nat (S n))%N with (epoch + 1 + N.of_nat n)%N by lia.
Qed.

Lemma init_training_generator_spec generator w :
  layer_batch_size (rbm w) ≠ 0%N →
  ∃ w',
    init_training_generator G B generator w = Done w' ∧
    ranges w' = ranges w ∧ rand_engine w' = rand_engine w ∧
    trainer_calls w' = trainer_calls w ∧
    rbm w' = set_momentum (rbm w) (initial_momentum (rbm w)) ∧
    batch_size (this w') = layer_batch_size (rbm w) ∧
    last_error (this w') = 0%float ∧
    cout w' =
      cout w ++ diagnostic B true (generator_size G generator) (layer_batch_size (rbm w)).
Proof.
  intros Hbs. apply N.eqb_neq in Hbs.
  unfold init_training_generator, diagnostic, get_batch_size.
  destruct (EnableWatcher B); cbn; rewrite ?Hbs;
    try destruct (generator_size G generator mod layer_batch_size (rbm w) =? 0)%N;
    try destruct (DLL_SILENT B); cbn;
    eexists; (split; [reflexivity|]); cbn; by rewrite ?app_nil_r.
Qed.

(** The effect of a whole run of [train] over a generator. *)
Lemma train_generator_summary fuel valid generator max_epochs w :
  ending_generator L G fuel valid → valid generator →
  layer_batch_size (rbm w) ≠ 0%N →
  ∃ e generator' w',
    train_generator L G B fuel generator max_epochs w = Done (e, generator', w') ∧
    cout w' =
      cout w ++ diagnostic B true (generator_size G generator) (layer_batch_size (rbm w)) ∧
    momentum (rbm w') =
      (if has_momentum (traits B) && (final_momentum_epoch (rbm w) <? max_epochs)%N
       then final_momentum (rbm w) else initial_momentum (rbm w)).
Proof.
  intros Hg Hv Hbs.
  destruct (init_training_generator_spec generator w Hbs)
    as (w1 & Hinit & _ & _ & _ & Hrbm & _ & _ & Hcout).
  unfold train_generator. rewrite Hinit. cbn [mbind outcome_bind].
  assert (Hiw : ∃ g2 w2, init_weights_generator L B generator w1 = (g2, w2) ∧ valid g2 ∧
            cout w2 = cout w1 ∧ momentum (rbm w2) = momentum (rbm w1) ∧
            final_momentum (rbm w2) = final_momentum (rbm w1) ∧
            final_momentum_epoch (rbm w2) = final_momentum_epoch (rbm w1)).
  { unfold init_weights_generator. destruct (has_init_weights (traits B)).
    - pose proof (valid_init_weights _ _ _ _ Hg (rbm w1) generator Hv).
      destruct (rbm_init_weights_generator L (rbm w1) generator) as [p g2].
      by eexists _, _.
    - by eexists _, _. }
  destruct Hiw as (g2 & w2 & -> & Hv2 & Hcout2 & Hm2 & Hfm2 & Hfme2).
  destruct (train_epochs_generator_summary fuel valid (N.to_nat max_epochs) g2
              (get_trainer L w2) w2 Hg Hv2) as (g3 & t3 & w3 & -> & Hf & Hm).
  cbn [mbind outcome_bind].
  destruct (finalize_training_spec w3) as (_ & Hr & _ & Hc & _).
  destruct (finalize_training B w3) as [e w4]. cbn [fst snd] in *.
  exists e, g3, w4. split; [done|]. split.
  - by rewrite Hc, (run_cout _ _ Hf), Hcout2, Hcout.
  - by rewrite Hr, Hm, N2Nat.id, Hfme2, Hfm2, Hm2, Hrbm.
Qed.

(** ** Corruption of the input *)

Lemma length_draws n g : length (draws uniform_real n g).1 = n.
Proof.
  revert g. induction n as [|n IH]; intros g; [done|].
  cbn [draws]. destruct (uniform_real g) as [d g1].
  specialize (IH g1). destruct (draws uniform_real n g1) as [ds g2].
  simpl in *. by rewrite IH.
Qed.

Lemma draws_add a b g :
  draws uniform_real (a + b) g =
  ((draws uniform_real a g).1 ++ (draws uniform_real b (draws uniform_real a g).2).1,
   (draws uniform_real b (draws uniform_real a g).2).2).
Proof.
  revert g. induction a as [|a IH]; intros g.
  - simpl. by destruct (draws uniform_real b g).
  - cbn [draws Nat.add]. destruct (uniform_real g) as [d g1].
    rewrite IH. destruct (draws uniform_real a g1) as [ds g2]. cbn [fst snd].
    by destruct (draws uniform_real b g2).
Qed.

Lemma input_transformer_spec noise value g :
  input_transformer uniform_real noise value g =
  (zip_with (mask noise) value (draws uniform_real (length value) g).1,
   (draws uniform_real (length value) g).2).
Proof.
  revert g. induction value as [|v value IH]; intros g; [done|].
  cbn [input_transformer length draws]. destruct (uniform_real g) as [d g1].
  rewrite IH. by destruct (draws uniform_real (length value) g1).
Qed.

Lemma corrupt_spec noise inputs g :
  length <$> (corrupt uniform_real noise inputs g).1 = length <$> inputs ∧
  concat (corrupt uniform_real noise inputs g).1 =
    zip_with (mask noise) (concat inputs)
      (draws uniform_real (length (concat inputs)) g).1 ∧
  (corrupt uniform_real noise inputs g).2 =
    (draws uniform_real (length (concat inputs)) g).2.
Proof.
  revert g. induction inputs as [|input inputs IH]; intros g; [done|].
  cbn [corrupt concat]. rewrite input_transformer_spec.
  destruct (IH (draws uniform_real (length input) g).2) as (IH1 & IH2 & IH3).
  destruct (corrupt uniform_real noise inputs _) as [rest g2]. cbn [fst snd] in *.
  rewrite length_app, draws_add. cbn [fst snd concat fmap list_fmap].
  split; [|split].
  - rewrite IH1. f_equal. rewrite length_zip_with, length_draws. lia.
  - rewrite IH2. symmetry. apply zip_with_app. by rewrite length_draws.
  - done.
Qed.

Lemma length_corrupt noise inputs g :
  length (corrupt uniform_real noise inputs g).1 = length inputs.
Proof.
  destruct (corrupt_spec noise inputs g) as (H & _).
  apply (f_equal length) in H. by rewrite !length_fmap in H.
Qed.

(** Multiplying a finite element by the zero of the mask gives a zero. *)
Lemma mask_zero noise v d :
  finite v = true → (d <? noise * 1000)%float = true →
  mask noise v d = 0%float ∨ mask noise v d = (-0)%float.
Proof.
  intros Hv Hd. unfold mask. rewrite Hd. unfold finite in Hv.
  rewrite <- (SF2Prim_Prim2SF (v * 0)), mul_spec.
  change (Prim2SF 0) with (S754_zero false).
  destruct (Prim2SF v) as [s|s| |s m e]; try done; cbn; destruct s; auto.
Qed.

(** The epoch of [train_denoising_auto] in closed form: the input batches
    are made of the corruption of the clean samples as the shuffle of this
    epoch left them, the expected batches of these clean samples. *)
Lemma train_epoch_denoising_auto_spec fuel noise epoch trainer w :
  batch_size (this w) ≠ 0%N →
  length (ranges w input_copy) = length (ranges w input_clean) →
  length (ranges w input_clean) ≤ fuel →
  let w1 := shuffle_direct rand_next B input_clean w in
  let clean := ranges w1 input_clean in
  let corrupted := (corrupt uniform_real noise clean (rand_engine w1)).1 in
  let g := (corrupt uniform_real noise clean (rand_engine w1)).2 in
  let w2 := write (with_rand_engine (write w1 input_copy clean) g) input_copy corrupted in
  train_epoch_denoising_auto rand_next uniform_real L B fuel noise epoch trainer w =
  Done (let s := run_batches L B
                   (batches_of (N.to_nat (batch_size (this w))) corrupted clean)
                   (trainer, new_context, init_epoch w2) in
        (s.1.1, (finalize_epoch L B epoch s.1.2 s.2).1,
         (finalize_epoch L B epoch s.1.2 s.2).2)).
Proof.
  intros Hbs Hlen Hfuel w1 clean corrupted g w2.
  pose proof (shuffle_direct_reordered input_clean w) as Hre. fold w1 in Hre.
  pose proof (reordered_length _ _ _ _ Hre) as Hl.
  unfold train_epoch_denoising_auto. fold w1. fold clean.
  rewrite (drop_ge (ranges w1 input_copy)) by (unfold clean; rewrite !Hl; lia).
  rewrite app_nil_r.
  assert (Hcopy : ranges (write w1 input_copy clean) input_copy = clean)
    by (cbn; by rewrite decide_True).
  rewrite Hcopy.
  change (rand_engine (write w1 input_copy clean)) with (rand_engine w1).
  pose proof (length_corrupt noise clean (rand_engine w1)) as Hlc.
  fold corrupted g in Hlc |- *.
  replace (corrupt uniform_real noise clean (rand_engine w1)) with (corrupted, g)
    by (unfold corrupted, g; by destruct (corrupt _ _ _ _)).
  fold w2.
  assert (Hin : ranges (init_epoch w2) input_copy = corrupted)
    by (cbn; by rewrite decide_True).
  assert (Hex : ranges (init_epoch w2) input_clean = clean)
    by (cbn; by rewrite !decide_False).
  assert (Hb : batch_size (this (init_epoch w2)) = batch_size (this w))
    by (cbn; by rewrite (reordered_this _ _ _ _ Hre)).
  rewrite train_sub_spec; rewrite ?Hin, ?Hex, ?Hb, ?Hlc; try done.
  - cbn [mbind outcome_bind].
    destruct (run_batches _ _ _ _) as [[t c] w3]. cbn [fst snd].
    by destruct (finalize_epoch L B epoch c w3).
  - unfold clean. by rewrite Hl.
Qed.

Lemma train_epoch_denoising_auto_summary fuel noise epoch trainer w :
  batch_size (this w) ≠ 0%N →
  length (ranges w input_copy) = length (ranges w input_clean) →
  length (ranges w input_clean) ≤ fuel →
  ∃ trainer' context' w',
    train_epoch_denoising_auto rand_next uniform_real L B fuel noise epoch trainer w =
      Done (trainer', context', w') ∧
    run_frame w w' ∧
    momentum (rbm w') =
      (if has_momentum (traits B) && (epoch =? final_momentum_epoch (rbm w))%N
       then final_momentum (rbm w) else momentum (rbm w)).
Proof.
  intros Hbs Hlen Hfuel.
  rewrite train_epoch_denoising_auto_spec by done. cbn zeta.
  pose proof (shuffle_direct_reordered input_clean w) as Hre.
  set (w1 := shuffle_direct rand_next B input_clean w) in *.
  set (clean := ranges w1 input_clean).
  pose proof (length_corrupt noise clean (rand_engine w1)) as Hlc.
  set (corrupted := (corrupt uniform_real noise clean (rand_engine w1)).1) in *.
  set (g := (corrupt uniform_real noise clean (rand_engine w1)).2).
  set (w2 := write _ input_copy corrupted).
  set (l := batches_of _ _ _).
  pose proof (run_batches_same l (trainer, new_context, init_epoch w2)) as Hsame.
  destruct (run_batches L B l _) as [[t c] w3]. cbn [fst snd] in *.
  eexists _, _, _. split; [reflexivity|].
  assert (Hf2 : run_frame w (init_epoch w2)).
  { destruct Hre. split; cbn; try congruence.
    - intros r. repeat case_decide; subst; try done.
      rewrite Hlc. unfold clean. by rewrite reordered_length0.
    - intros r [-> | ->]; rewrite !decide_False by done;
        by apply reordered_others0. }
  split.
  - etrans; [exact Hf2|]. etrans; [by apply same_setting_run|apply finalize_epoch_run].
  - rewrite finalize_epoch_momentum.
    rewrite (same_final_momentum_epoch _ _ Hsame), (same_final_momentum _ _ Hsame),
      (same_momentum _ _ Hsame). cbn.
    by rewrite (reordered_rbm _ _ _ _ Hre).
Qed.

Lemma train_epochs_denoising_auto_summary fuel n noise trainer w :
  batch_size (this w) ≠ 0%N →
  length (ranges w input_copy) = length (ranges w input_clean) →
  length (ranges w input_clean) ≤ fuel →
  ∃ trainer' w',
    train_epochs_denoising_auto rand_next uniform_real L B fuel n noise 0%N trainer w =
      Done (trainer', w') ∧
    run_frame w w' ∧
    momentum (rbm w') =
      (if has_momentum (traits B) && (final_momentum_epoch (rbm w) <? N.of_nat n)%N
       then final_momentum (rbm w) else momentum (rbm w)).
Proof.
  intros Hbs Hlen Hfuel.
  enough (Hgen : ∀ n epoch trainer w0,
    run_frame w w0 →
    momentum (rbm w0) =
      (if has_momentum (traits B) && (final_momentum_epoch (rbm w) <? epoch)%N
       then final_momentum (rbm w) else momentum (rbm w)) →
    ∃ trainer' w',
      train_epochs_denoising_auto rand_next uniform_real L B fuel n noise epoch trainer w0 =
        Done (trainer', w') ∧
      run_frame w w' ∧
      momentum (rbm w') =
        (if has_momentum (traits B)
            && (final_momentum_epoch (rbm w) <? epoch + N.of_nat n)%N
         then final_momentum (rbm w) else momentum (rbm w))).
  { destruct (Hgen n 0%N trainer w) as (t' & w' & ? & ? & ?).
    - reflexivity.
    - by rewrite momentum_start.
    - exists t', w'. by rewrite N.add_0_l in *. }
  clear n trainer.
  induction n as [|n IH]; intros epoch trainer w0 Hf Hm.
  - exists trainer, w0. by rewrite N.add_0_r.
  - destruct (train_epoch_denoising_auto_summary fuel noise epoch trainer w0)
      as (t1 & c1 & w1 & Hrun & Hf1 & Hm1).
    { by rewrite (run_batch_size _ _ Hf). }
    { by rewrite !(run_length _ _ Hf). }
    { by rewrite (run_length _ _ Hf). }
    destruct (IH (epoch + 1)%N t1 w1) as (t2 & w2 & Hrun2 & Hf2 & Hm2).
    { by etrans. }
    { rewrite Hm1, Hm, (run_final_momentum_epoch _ _ Hf), (run_final_momentum _ _ Hf).
      apply momentum_step. }
    exists t2, w2. cbn [train_epochs_denoising_auto]. rewrite Hrun.
    cbn [mbind outcome_bind]. split; [done|]. split; [done|].
    by replace (epoch + N.of_nat (S n))%N with (epoch + 1 + N.of_nat n)%N by lia.
Qed.

(** The effect of a whole run of [train_denoising_auto]. *)
Lemma train_denoising_auto_summary fuel max_epochs noise w :
  Denoising B = false →
  layer_batch_size (rbm w) ≠ 0%N →
  length (ranges w caller_input) ≤ fuel →
  ∃ e w',
    train_denoising_auto rand_next uniform_real L B fuel max_epochs noise w =
      Done (e, w') ∧
    cout w' =
      cout w ++ diagnostic B true (N.of_nat (length (ranges w caller_input)))
                  (layer_batch_size (rbm w)) ∧
    momentum (rbm w') =
      (if has_momentum (traits B) && (final_momentum_epoch (rbm w) <? max_epochs)%N
       then final_momentum (rbm w) else initial_momentum (rbm w)) ∧
    (∀ r, is_caller r → ranges w' r = ranges w r).
Proof.
  intros Hd Hbs Hfuel. unfold train_denoising_auto. rewrite Hd.
  set (n := length (ranges w caller_input)).
  set (w0 := write (write (write w input_clean (replicate n [])) input_copy _) _ _).
  assert (Hclean : ranges w0 input_clean = ranges w caller_input).
  { cbn. repeat case_decide; try done.
    rewrite drop_ge by (by rewrite length_replicate).
    by rewrite app_nil_r. }
  assert (Hcopy : ranges w0 input_copy = replicate n []).
  { cbn. by repeat case_decide. }
  assert (Hcaller : ∀ r, is_caller r → ranges w0 r = ranges w r).
  { intros r [-> | ->]; cbn; by repeat case_decide. }
  destruct (init_training_spec true input_clean w0)
    as (w1 & -> & Hranges1 & _ & _ & Hrbm1 & Hbs1 & _ & Hcout1); [done|].
  cbn [mbind outcome_bind].
  set (w2 := init_weights L B input_clean w1).
  assert (H2 : ranges w2 = ranges w1 ∧ cout w2 = cout w1 ∧
               this w2 = this w1 ∧ momentum (rbm w2) = momentum (rbm w1) ∧
               final_momentum (rbm w2) = final_momentum (rbm w1) ∧
               final_momentum_epoch (rbm w2) = final_momentum_epoch (rbm w1)).
  { unfold w2, init_weights. by destruct (has_init_weights (traits B)). }
  destruct H2 as (Hranges2 & Hcout2 & Hthis2 & Hm2 & Hfm2 & Hfme2).
  destruct (train_epochs_denoising_auto_summary fuel (N.to_nat max_epochs) noise
              (get_trainer L w2) w2) as (t3 & w3 & -> & Hf & Hm).
  { by rewrite Hthis2, Hbs1. }
  { rewrite Hranges2, Hranges1, Hclean, Hcopy. by rewrite length_replicate. }
  { by rewrite Hranges2, Hranges1, Hclean. }
  cbn [mbind outcome_bind].
  destruct (finalize_training_spec w3) as (_ & Hr & Hrg & Hc & _).
  destruct (finalize_training B w3) as [e w4]. cbn [fst snd] in *.
  exists e, w4. split; [done|]. split; [|split].
  - by rewrite Hc, (run_cout _ _ Hf), Hcout2, Hcout1, Hclean.
  - by rewrite Hr, Hm, N2Nat.id, Hfme2, Hfm2, Hm2, Hrbm1.
  - intros r Hr'. rewrite Hrg, (run_caller _ _ Hf) by done.
    rewrite Hranges2, Hranges1. by apply Hcaller.
Qed.

(** The first [k] epochs of a run are a run of [k] epochs. *)
Lemma train_epochs_prefix fuel k n input expected epoch trainer w :
  train_epochs rand_next L B fuel (k + n) input expected epoch trainer w =
  '(trainer', w') ← train_epochs rand_next L B fuel k input expected epoch trainer w;
  train_epochs rand_next L B fuel n input expected (epoch + N.of_nat k)%N trainer' w'.
Proof.
  revert epoch trainer w. induction k as [|k IH]; intros epoch trainer w.
  - cbn. by rewrite N.add_0_r.
  - cbn [train_epochs Nat.add].
    destruct (train_epoch _ _ _ _ _ _ _ _ _) as [[[t1 c1] w1]| |]; cbn; [|done..].
    rewrite IH. by replace (epoch + 1 + N.of_nat k)%N with (epoch + N.pos (Pos.of_succ_nat k))%N by lia.
Qed.

(** ** The diagnostic of [init_training] *)

(** C8 (as amended). When the number of samples is not a multiple of the
    batch size, a run prints the two lines of the warning once, in
    [init_training], and nothing in its epochs, whatever their number; it
    prints nothing if [DLL_SILENT] is defined. This holds for a run over a
    generator, for [train_denoising_auto] and for a run of [train] whose
    iterators are random-access, as those of the copies of a layer that
    shuffles are. A run of [train] over iterators of the caller that are not
    random-access prints nothing. *)
Theorem warning_is_printed_once w :
  layer_batch_size (rbm w) ≠ 0%N →
  let warning := if DLL_SILENT B then [] else warning_lines in
  (∀ fuel caller_category ifirst efirst max_epochs,
     is_caller ifirst → is_caller efirst →
     length (ranges w ifirst) = length (ranges w efirst) →
     length (ranges w ifirst) ≤ fuel →
     (N.of_nat (length (ranges w ifirst)) mod layer_batch_size (rbm w) ≠ 0)%N →
     ∃ e w',
       train_ranges rand_next L B fuel caller_category ifirst efirst max_epochs w =
         Done (e, w') ∧
       cout w' =
         cout w ++ (if has_shuffle (traits B) || caller_category then warning else [])) ∧
  (∀ fuel valid generator max_epochs,
     ending_generator L G fuel valid → valid generator →
     (generator_size G generator mod layer_batch_size (rbm w) ≠ 0)%N →
     ∃ e generator' w',
       train_generator L G B fuel generator max_epochs w = Done (e, generator', w') ∧
       cout w' = cout w ++ warning) ∧
  (∀ fuel max_epochs noise,
     Denoising B = false →
     length (ranges w caller_input) ≤ fuel →
     (N.of_nat (length (ranges w caller_input)) mod layer_batch_size (rbm w) ≠ 0)%N →
     ∃ e w',
       train_denoising_auto rand_next uniform_real L B fuel max_epochs noise w =
         Done (e, w') ∧
       cout w' = cout w ++ warning).
Proof.
  intros Hbs warning.
  assert (Hdiag : ∀ size, (size mod layer_batch_size (rbm w) ≠ 0)%N →
            diagnostic B true size (layer_batch_size (rbm w)) = warning).
  { intros size Hmod%N.eqb_neq. unfold diagnostic, warning. rewrite Hmod.
    by destruct (DLL_SILENT B). }
  split; [|split].
  - intros fuel caller_category ifirst efirst max_epochs Hi He Hlen Hfuel Hmod.
    destruct (train_ranges_summary fuel caller_category ifirst efirst max_epochs w
                Hi He Hbs Hlen Hfuel)
      as (input & expected & w1 & t' & w2 & Hp & _ & Hrun & Hf & _ & _).
    destruct (finalize_training_spec w2) as (_ & _ & _ & Hc & _).
    exists (finalize_training B w2).1, (finalize_training B w2).2.
    split. { rewrite Hrun. by destruct (finalize_training B w2). }
    rewrite Hc, (epoch_cout _ _ _ _ Hf), (prepared_cout _ _ _ _ _ _ _ Hp). f_equal.
    destruct (has_shuffle (traits B)) eqn:Hs.
    + destruct (prepared_copies _ _ _ _ _ _ _ Hp Hs) as [-> _]. by apply Hdiag.
    + destruct (prepared_direct _ _ _ _ _ _ _ Hp Hs) as [-> _].
      destruct Hi as [-> | ->], caller_category; cbn; by try apply Hdiag.
  - intros fuel valid generator max_epochs Hg Hv Hmod.
    destruct (train_generator_summary fuel valid generator max_epochs w Hg Hv Hbs)
      as (e & g' & w' & Hrun & Hcout & _).
    exists e, g', w'. split; [done|]. by rewrite Hcout, Hdiag.
  - intros fuel max_epochs noise Hd Hfuel Hmod.
    destruct (train_denoising_auto_summary fuel max_epochs noise w Hd Hbs Hfuel)
      as (e & w' & Hrun & Hcout & _).
    exists e, w'. split; [done|]. by rewrite Hcout, Hdiag.
Qed.

(** ** Runs of no epoch *)

(** C2 (as amended). With [max_epochs = 0] a run returns [0.0] and calls the
    trainer on no batch. It leaves the parameters of the layer as they were
    unless the layer declares the [init_weights] capability: then they are
    what the [init_weights] hook of the layer makes of the input, or of the
    generator. *)
Theorem train_zero_epochs w :
  layer_batch_size (rbm w) ≠ 0%N →
  let at_start := set_momentum (rbm w) (initial_momentum (rbm w)) in
  (∀ fuel caller_category ifirst efirst,
     is_caller ifirst → is_caller efirst →
     ∃ w',
       train_ranges rand_next L B fuel caller_category ifirst efirst 0 w =
         Done (0%float, w') ∧
       trainer_calls w' = trainer_calls w ∧
       weights (rbm w') =
         if has_init_weights (traits B)
         then rbm_init_weights L at_start (ranges w ifirst)
         else weights (rbm w)) ∧
  (∀ fuel generator,
     ∃ generator' w',
       train_generator L G B fuel generator 0 w = Done (0%float, generator', w') ∧
       trainer_calls w' = trainer_calls w ∧
       weights (rbm w') =
         if has_init_weights (traits B)
         then (rbm_init_weights_generator L at_start generator).1
         else weights (rbm w)).
Proof.
  intros Hbs at_start. split.
  - intros fuel caller_category ifirst efirst Hi He.
    destruct (train_ranges_prepared fuel caller_category ifirst efirst 0 w Hi He Hbs)
      as (input & expected & w1 & Hp & Hrun).
    destruct (finalize_training_spec w1) as (He0 & Hr & _ & _ & _ & Hc).
    exists (finalize_training B w1).2.
    split.
    { rewrite Hrun. change (N.to_nat 0) with 0.
      cbn [train_epochs mbind outcome_bind mret outcome_ret].
      rewrite (surjective_pairing (finalize_training B w1)) at 1.
      by rewrite He0, (prepared_last_error _ _ _ _ _ _ _ Hp). }
    rewrite Hc, Hr. split; [apply (prepared_calls _ _ _ _ _ _ _ Hp)|].
    apply (prepared_weights _ _ _ _ _ _ _ Hp).
  - intros fuel generator.
    destruct (init_training_generator_spec generator w Hbs)
      as (w1 & Hinit & _ & _ & Hcalls & Hrbm & _ & Herr & _).
    unfold train_generator. rewrite Hinit. cbn [mbind outcome_bind].
    unfold init_weights_generator. fold at_start in Hrbm.
    destruct (has_init_weights (traits B)).
    + rewrite Hrbm. destruct (rbm_init_weights_generator L at_start generator) as [p g2].
      change (N.to_nat 0) with 0. unfold finalize_training.
      destruct (EnableWatcher B); cbn; rewrite Herr; by eexists _, _.
    + change (N.to_nat 0) with 0. unfold finalize_training.
      destruct (EnableWatcher B); cbn; rewrite Herr;
        eexists _, _; (split; [reflexivity|]); cbn; by rewrite Hrbm.
Qed.

Lemma finalize_epoch_data epoch context w :
  ranges (finalize_epoch L B epoch context w).2 = ranges w ∧
  rand_engine (finalize_epoch L B epoch context w).2 = rand_engine w.
Proof.
  unfold finalize_epoch.
  by destruct (has_momentum (traits B) && (epoch =? final_momentum_epoch (rbm w))%N),
    (EnableWatcher B).
Qed.

Lemma shuffle_direct_Permutation input w :
  ranges (shuffle_direct rand_next B input w) input ≡ₚ ranges w input.
Proof.
  unfold shuffle_direct. destruct (has_shuffle (traits B)); [|done].
  pose proof (std_shuffle_Permutation (ranges w input) (rand_engine w)) as Hp.
  destruct (std_shuffle _ _ _) as [l g]. cbn. by rewrite decide_True.
Qed.

(** ** The corrupted input of [train_denoising_auto] *)

(** C9 (as amended). In every epoch of [train_denoising_auto] the input
    the trainer receives is made anew from the clean samples as the shuffle
    of this epoch left them: each scalar element, in order, is multiplied by
    the mask of a draw of its own, taken from the random engine in this
    epoch, which is [0.0] when the draw is below [noise * 1000] and [1.0]
    otherwise. The expected samples are the clean ones. The corrupted input
    of the epoch before plays no part. An element multiplied by [0.0]
    becomes a zero if it is finite. *)
Theorem denoising_auto_corrupts_afresh fuel noise epoch trainer w :
  batch_size (this w) ≠ 0%N →
  length (ranges w input_copy) = length (ranges w input_clean) →
  length (ranges w input_clean) ≤ fuel →
  let shuffled := shuffle_direct rand_next B input_clean w in
  let clean := ranges shuffled input_clean in
  let fresh := draws uniform_real (length (concat clean)) (rand_engine shuffled) in
  ∃ corrupted trainer' context' w',
    clean ≡ₚ ranges w input_clean ∧
    length <$> corrupted = length <$> clean ∧
    concat corrupted = zip_with (mask noise) (concat clean) fresh.1 ∧
    train_epoch_denoising_auto rand_next uniform_real L B fuel noise epoch trainer w =
      Done (trainer', context', w') ∧
    trainer_calls w' =
      trainer_calls w ++ batches_of (N.to_nat (batch_size (this w))) corrupted clean ∧
    ranges w' input_copy = corrupted ∧
    ranges w' input_clean = clean ∧
    rand_engine w' = fresh.2 ∧
    (∀ v d, (d <? noise * 1000)%float = false → mask noise v d = (v * 1)%float) ∧
    (∀ v d, (d <? noise * 1000)%float = true → mask noise v d = (v * 0)%float) ∧
    (∀ v d, (d <? noise * 1000)%float = true → finite v = true →
            mask noise v d = 0%float ∨ mask noise v d = (-0)%float).
Proof.
  intros Hbs Hlen Hfuel shuffled clean fresh.
  pose proof (train_epoch_denoising_auto_spec fuel noise epoch trainer w Hbs Hlen Hfuel)
    as Hrun. cbn zeta in Hrun. fold shuffled clean in Hrun.
  destruct (corrupt_spec noise clean (rand_engine shuffled)) as (Hshape & Hcat & Hg).
  set (corrupted := (corrupt uniform_real noise clean (rand_engine shuffled)).1) in *.
  set (g := (corrupt uniform_real noise clean (rand_engine shuffled)).2) in *.
  set (w2 := write _ input_copy corrupted) in Hrun.
  set (l := batches_of _ _ _) in *.
  pose proof (run_batches_same l (trainer, new_context, init_epoch w2)) as Hsame.
  pose proof (run_batches_calls l (trainer, new_context, init_epoch w2)) as Hcalls.
  destruct (run_batches L B l _) as [[t c] w3]. cbn [fst snd] in *.
  destruct (finalize_epoch_data epoch c w3) as [Hr Hre].
  exists corrupted, t, (finalize_epoch L B epoch c w3).1, (finalize_epoch L B epoch c w3).2.
  split; [apply shuffle_direct_Permutation|].
  split; [done|]. split; [done|]. split; [done|].
  split.
  { rewrite finalize_epoch_calls, Hcalls. cbn. f_equal.
    apply (reordered_calls _ _ _ _ (shuffle_direct_reordered input_clean w)). }
  rewrite Hr, Hre, (same_ranges _ _ Hsame), (same_rand_engine _ _ Hsame).
  split; [cbn; by rewrite decide_True|].
  split; [cbn; by rewrite !decide_False|].
  split; [done|].
  split; [intros v d Hd; unfold mask; by rewrite Hd|].
  split; [intros v d Hd; unfold mask; by rewrite Hd|].
  intros v d Hd Hv. by apply mask_zero.
Qed.

(** ** The means of an epoch *)

Lemma fold_add_free_energy r (l : list sample) context :
  reconstruction_error (fold_left (add_free_energy L r) l context) =
    reconstruction_error context ∧
  sparsity (fold_left (add_free_energy L r) l context) = sparsity context ∧
  batch_error (fold_left (add_free_energy L r) l context) = batch_error context ∧
  batch_sparsity (fold_left (add_free_energy L r) l context) = batch_sparsity context.
Proof.
  revert context. induction l as [|v l IH]; intros context; [done|].
  cbn [fold_left]. by destruct (IH (add_free_energy L r context v)) as (-> & -> & -> & ->).
Qed.

(** A batch adds the error and the sparsity the trainer reports for it to
    the accumulators. *)
Lemma train_batch_accumulates i e trainer context w :
  keeps_accumulators L →
  let context' := (train_batch L B i e trainer context w).1.2 in
  reconstruction_error context' =
    (reconstruction_error context + batch_error context')%float ∧
  sparsity context' = (sparsity context + batch_sparsity context')%float.
Proof.
  intros Hk. unfold train_batch.
  specialize (Hk trainer (rbm (set_batches w (size_succ (batches (this w))))) i e context).
  destruct (trainer_train_batch _ _ _ _ _ _) as [[t p] c]. cbn [snd] in Hk.
  destruct Hk as (Hre & Hsp & _).
  destruct (EnableWatcher B && has_free_energy (traits B)),
    (EnableWatcher B && is_verbose (traits B)); cbn [fst snd];
    rewrite ?(proj1 (fold_add_free_energy _ _ _)),
      ?(proj1 (proj2 (fold_add_free_energy _ _ _))),
      ?(proj1 (proj2 (proj2 (fold_add_free_energy _ _ _)))),
      ?(proj2 (proj2 (proj2 (fold_add_free_energy _ _ _)))); cbn;
    by rewrite Hre, Hsp.
Qed.

Lemma run_batches_accumulates l s :
  keeps_accumulators L →
  reconstruction_error (run_batches L B l s).1.2 =
    fold_left (λ a c, (a + batch_error c)%float) (reported L B l s)
      (reconstruction_error s.1.2) ∧
  sparsity (run_batches L B l s).1.2 =
    fold_left (λ a c, (a + batch_sparsity c)%float) (reported L B l s) (sparsity s.1.2).
Proof.
  intros Hk. revert s. induction l as [|b l IH]; intros s; [done|].
  change (run_batches L B (b :: l) s) with (run_batches L B l (batch_step L B s b)).
  cbn [reported fold_left].
  destruct (IH (batch_step L B s b)) as [-> ->].
  destruct s as [[t c] w]. unfold batch_step at 2 4 6 8. cbn [fst snd].
  by destruct (train_batch_accumulates b.1 b.2 t c (bump_samples (length b.1) w) Hk)
    as [-> ->].
Qed.

Lemma length_reported l s : length (reported L B l s) = length l.
Proof. revert s. induction l as [|b l IH]; intros s; [done|]. cbn. by rewrite IH. Qed.

Lemma iter_size_succ k n :
  (n + N.of_nat k < 2 ^ 64)%N → Nat.iter k size_succ n = (n + N.of_nat k)%N.
Proof.
  induction k as [|k IH]; intros Hk.
  - simpl. lia.
  - rewrite Nat.iter_succ, IH by lia. unfold size_succ. rewrite N.mod_small by lia. lia.
Qed.

Lemma run_batches_counters l s :
  batches (this (run_batches L B l s).2) =
    Nat.iter (length l) size_succ (batches (this s.2)) ∧
  samples (this (run_batches L B l s).2) =
    Nat.iter (length (concat l.*1)) size_succ (samples (this s.2)).
Proof.
  revert s. induction l as [|b l IH]; intros s; [done|].
  change (run_batches L B (b :: l) s) with (run_batches L B l (batch_step L B s b)).
  destruct (IH (batch_step L B s b)) as [-> ->].
  destruct s as [[t c] w]. unfold batch_step. cbn [fst snd].
  destruct (train_batch_counters b.1 b.2 t c (bump_samples (length b.1) w)) as [-> ->].
  rewrite bump_samples_batches, bump_samples_samples.
  cbn [fmap list_fmap concat length]. rewrite length_app.
  split.
  - by rewrite <- Nat.iter_succ_r.
  - by rewrite Nat.add_comm, Nat.iter_add.
Qed.

(** At the end of an epoch over ranges, the error and the sparsity are the
    sums of the values the trainer reported, batch after batch, divided by
    the number of batches; the free energy is divided by the number of
    samples; the error is what [train] will return. *)
Lemma epoch_means l epoch trainer w :
  keeps_accumulators L →
  (N.of_nat (length (concat l.*1)) < 2 ^ 64)%N →
  (N.of_nat (length l) < 2 ^ 64)%N →
  let s := run_batches L B l (trainer, new_context, init_epoch w) in
  let values := reported L B l (trainer, new_context, init_epoch w) in
  let context' := (finalize_epoch L B epoch s.1.2 s.2).1 in
  reconstruction_error context' =
    (fold_left (λ a c, a + batch_error c) values 0
     / size_to_double (N.of_nat (length values)))%float ∧
  sparsity context' =
    (fold_left (λ a c, a + batch_sparsity c) values 0
     / size_to_double (N.of_nat (length values)))%float ∧
  free_energy context' =
    (free_energy s.1.2 / size_to_double (N.of_nat (length (concat l.*1))))%float ∧
  last_error (this (finalize_epoch L B epoch s.1.2 s.2).2) =
    weight_cast L (reconstruction_error context').
Proof.
  intros Hk Hsamples Hbatches s values context'.
  destruct (run_batches_accumulates l (trainer, new_context, init_epoch w) Hk)
    as [Hre Hsp].
  destruct (run_batches_counters l (trainer, new_context, init_epoch w)) as [Hb Hs].
  fold s in Hre, Hsp, Hb, Hs. fold values in Hre, Hsp.
  cbn [fst snd init_epoch set_samples set_batches with_this this batches samples] in Hb, Hs.
  rewrite iter_size_succ in Hb, Hs by lia. rewrite N.add_0_l in Hb, Hs.
  unfold context', finalize_epoch, values. rewrite length_reported.
  destruct (has_momentum (traits B) && _), (EnableWatcher B); cbn;
    by rewrite Hre, Hsp, Hb, Hs.
Qed.

(** ** The notifications of the watcher *)

Lemma epoch_ends_app (l1 l2 : list (watcher_event weights_t)) :
  epoch_ends (l1 ++ l2) = epoch_ends l1 ++ epoch_ends l2.
Proof. unfold epoch_ends. apply omap_app. Qed.

Lemma epoch_ends_batch_ends (l : list (watcher_event weights_t)) :
  Forall (λ e, is_batch_end e = true) l → epoch_ends l = [].
Proof.
  induction 1 as [|e l He _ IH]; [done|].
  unfold epoch_ends in *. cbn. rewrite IH. by destruct e.
Qed.

Lemma filter_batch_ends (l : list (watcher_event weights_t)) :
  Forall (λ e, is_batch_end e = true) l →
  length (filter (λ e, is_batch_end e = true) l) = length l.
Proof.
  induction 1 as [|e l He _ IH]; [done|].
  rewrite filter_cons_True by done. cbn. by rewrite IH.
Qed.

(** What one batch tells the watcher. *)
Lemma train_batch_watcher i e trainer context w :
  ∃ r c,
    watcher (this (train_batch L B i e trainer context w).2) =
    watcher (this w) ++
      (if EnableWatcher B && is_verbose (traits B)
       then [batch_end r c (size_succ (batches (this w))) (total_batches (this w))]
       else []) ∧
    total_batches (this (train_batch L B i e trainer context w).2) =
      total_batches (this w).
Proof.
  unfold train_batch.
  destruct (trainer_train_batch _ _ _ _ _ _) as [[t p] c].
  destruct (EnableWatcher B && is_verbose (traits B)); eexists _, _; cbn;
    (split; [|done]); [reflexivity|].
  by rewrite app_nil_r.
  Unshelve. all: first [exact (rbm w) | exact context].
Qed.

Lemma run_batches_watcher l s :
  ∃ evs,
    watcher (this (run_batches L B l s).2) = watcher (this s.2) ++ evs ∧
    length evs = (if EnableWatcher B && is_verbose (traits B) then length l else 0) ∧
    Forall (λ e, is_batch_end e = true) evs ∧
    ∀ k ev,
      evs !! k = Some ev →
      ∃ r c, ev = batch_end r c (Nat.iter (S k) size_succ (batches (this s.2)))
                    (total_batches (this s.2)).
Proof.
  revert s. induction l as [|b l IH]; intros s.
  - exists []. rewrite app_nil_r. repeat split; try done.
    by destruct (EnableWatcher B && is_verbose (traits B)).
  - change (run_batches L B (b :: l) s) with (run_batches L B l (batch_step L B s b)).
    destruct (IH (batch_step L B s b)) as (evs & Hw & Hlen & Hall & Hidx).
    destruct s as [[t c] w]. unfold batch_step in *. cbn [fst snd] in *.
    destruct (train_batch_watcher b.1 b.2 t c (bump_samples (length b.1) w))
      as (r1 & c1 & Hw1 & Ht1).
    destruct (train_batch_counters b.1 b.2 t c (bump_samples (length b.1) w))
      as [Hb1 _].
    rewrite bump_samples_watcher, bump_samples_batches in *.
    assert (Htot : total_batches (this (bump_samples (length b.1) w)) =
                   total_batches (this w))
      by apply (same_total_batches _ _ (bump_samples_same _ _)).
    rewrite Htot in *. rewrite Hw, Hw1, Hb1, Ht1 in *.
    destruct (EnableWatcher B && is_verbose (traits B)).
    + exists (batch_end r1 c1 (size_succ (batches (this w))) (total_batches (this w))
              :: evs).
      split; [by rewrite <- app_assoc|]. split; [cbn; by rewrite Hlen|].
      split; [by constructor|].
      intros [|k] ev Hev.
      * injection Hev as <-. by eexists _, _.
      * destruct (Hidx k ev Hev) as (r & c' & ->). exists r, c'.
        by rewrite <- Nat.iter_succ_r.
    + exists evs. rewrite app_nil_r. split; [done|]. split; [done|]. split; [done|].
      intros k ev Hev. apply length_zero_iff_nil in Hlen. by subst.
Qed.

Lemma finalize_epoch_watcher epoch context w :
  watcher (this (finalize_epoch L B epoch context w).2) =
  watcher (this w) ++
    (if EnableWatcher B
     then [epoch_end epoch (finalize_epoch L B epoch context w).1
             (rbm (finalize_epoch L B epoch context w).2)]
     else []).
Proof.
  unfold finalize_epoch.
  destruct (has_momentum (traits B) && (epoch =? final_momentum_epoch (rbm w))%N),
    (EnableWatcher B); cbn; by rewrite ?app_nil_r.
Qed.

(** What an epoch of [train] tells the watcher: its batches, numbered
    from one by the counter [batches], then its end. *)
Lemma train_epoch_watcher fuel input expected epoch trainer w :
  batch_size (this w) ≠ 0%N →
  length (ranges w input) = length (ranges w expected) →
  length (ranges w input) ≤ fuel →
  ∃ trainer' context' w' evs,
    train_epoch rand_next L B fuel input expected epoch trainer w =
      Done (trainer', context', w') ∧
    watcher (this w') =
      watcher (this w) ++ evs ++
        (if EnableWatcher B then [epoch_end epoch context' (rbm w')] else []) ∧
    length evs =
      (if EnableWatcher B && is_verbose (traits B)
       then ceil_div (length (ranges w input)) (N.to_nat (batch_size (this w)))
       else 0) ∧
    Forall (λ e, is_batch_end e = true) evs ∧
    ∀ k ev,
      evs !! k = Some ev →
      ∃ r c, ev = batch_end r c (Nat.iter (S k) size_succ 0%N) (total_batches (this w)).
Proof.
  intros Hbs Hlen Hfuel.
  destruct (train_epoch_spec fuel input expected epoch trainer w Hbs Hlen Hfuel)
    as (w1 & _ & Hre & ->).
  pose proof (reordered_length _ _ _ _ Hre) as Hl.
  pose proof (length_batches_of (N.to_nat (batch_size (this w)))
                (ranges w1 input) (ranges w1 expected)) as Hnb.
  rewrite Hl in Hnb.
  set (l := batches_of _ _ _) in *.
  destruct (run_batches_watcher l (trainer, new_context, init_epoch w1))
    as (evs & Hw & Hn & Hall & Hidx).
  destruct (run_batches L B l _) as [[t c] w2]. cbn [fst snd] in *.
  exists t, (finalize_epoch L B epoch c w2).1, (finalize_epoch L B epoch c w2).2, evs.
  split; [done|].
  split. { rewrite finalize_epoch_watcher, Hw. cbn.
           by rewrite (reordered_this _ _ _ _ Hre), <- app_assoc. }
  split. { rewrite Hn, Hnb; [done|lia|by rewrite !Hl, Hlen]. }
  split; [done|].
  intros k ev Hev. destruct (Hidx k ev Hev) as (r & c' & ->). exists r, c'.
  cbn. by rewrite (reordered_this _ _ _ _ Hre).
Qed.

Lemma init_training_watcher random_access input w w' :
  init_training B random_access input w = Done w' →
  watcher (this w') =
    watcher (this w) ++
      (if EnableWatcher B
       then [training_begin (set_momentum (rbm w) (initial_momentum (rbm w)))]
       else []) ∧
  total_batches (this w') =
    (if random_access
     then N.of_nat (length (ranges w input)) / layer_batch_size (rbm w)
     else 0)%N.
Proof.
  unfold init_training, get_batch_size.
  destruct random_access, (EnableWatcher B); cbn;
    try destruct (layer_batch_size (rbm w) =? 0)%N; try done;
    try destruct (N.of_nat (length (ranges w input)) mod layer_batch_size (rbm w) =? 0)%N;
    try destruct (DLL_SILENT B); cbn;
    intros [= <-]; cbn; by rewrite ?app_nil_r.
Qed.

Lemma finalize_training_watcher w :
  watcher (this (finalize_training B w).2) =
  watcher (this w) ++
    (if EnableWatcher B then [training_end (rbm (finalize_training B w).2)] else []).
Proof. unfold finalize_training. destruct (EnableWatcher B); cbn; by rewrite ?app_nil_r. Qed.

(** The world [train] starts its first epoch in, with what the watcher
    has been told by then. *)
Lemma train_ranges_start fuel caller_category ifirst efirst max_epochs w :
  is_caller ifirst → is_caller efirst →
  layer_batch_size (rbm w) ≠ 0%N →
  ∃ input expected w',
    prepared L B caller_category ifirst efirst input expected w w' ∧
    train_ranges rand_next L B fuel caller_category ifirst efirst max_epochs w =
    ('(_, w'') ← train_epochs rand_next L B fuel (N.to_nat max_epochs) input expected 0%N
                  (get_trainer L w') w';
     mret (finalize_training B w'')) ∧
    watcher (this w') =
      watcher (this w) ++
        (if EnableWatcher B
         then [training_begin (set_momentum (rbm w) (initial_momentum (rbm w)))]
         else []) ∧
    total_batches (this w') =
      (if random_access_iterator caller_category input
       then N.of_nat (length (ranges w ifirst)) / layer_batch_size (rbm w)
       else 0)%N.
Proof.
  intros Hi He Hbs.
  destruct (prepare_it_spec ifirst efirst w Hi He)
    as (input & expected & w1 & Hprep & Hrbm & Hthis & Hrand & Hcout & Hcalls
        & Hin & Hex & Hcaller & Hcopies & Hdirect).
  assert (Hbs1 : layer_batch_size (rbm w1) ≠ 0%N) by by rewrite Hrbm.
  destruct (init_training_spec (random_access_iterator caller_category input) input w1 Hbs1)
    as (w2 & Hinit & Hranges2 & Hrand2 & Hcalls2 & Hrbm2 & Hbs2 & Herr2 & Hcout2).
  destruct (init_training_watcher _ _ _ _ Hinit) as [Hw2 Ht2].
  exists input, expected, (init_weights L B input w2).
  split; [|split; [|split]].
  - rewrite Hrbm in Hrbm2, Hbs2, Hcout2. rewrite Hin, Hcout in Hcout2.
    unfold init_weights.
    destruct (has_init_weights (traits B)) eqn:Hiw; split; cbn;
      rewrite ?Hiw, ?Hranges2, ?Hrbm2, ?Hbs2, ?Herr2, ?Hcout2, ?Hcalls2, ?Hrand2;
      try done.
    all: try (intros r Hr; by apply Hcaller).
    by rewrite Hin.
  - unfold train_ranges. rewrite Hprep, Hinit. reflexivity.
  - rewrite Hthis, Hrbm in Hw2. unfold init_weights.
    by destruct (has_init_weights (traits B)).
  - rewrite Hin, Hrbm in Ht2. unfold init_weights.
    by destruct (has_init_weights (traits B)).
Qed.

(** What [n] epochs of [train] from the epoch [epoch] on tell the
    watcher. *)
Lemma train_epochs_watcher fuel n input expected epoch trainer w :
  batch_size (this w) ≠ 0%N →
  length (ranges w input) = length (ranges w expected) →
  length (ranges w input) ≤ fuel →
  ∃ trainer' w' body,
    train_epochs rand_next L B fuel n input expected epoch trainer w =
      Done (trainer', w') ∧
    epoch_frame B input expected w w' ∧
    watcher (this w') = watcher (this w) ++ body ∧
    Forall (λ ev, is_batch_end ev || is_epoch_end ev = true) body ∧
    (EnableWatcher B = false → body = []) ∧
    (EnableWatcher B = true →
     epoch_ends body = (λ k, epoch + N.of_nat k)%N <$> seq 0 n ∧
     length (filter (λ ev, is_batch_end ev = true) body) =
       if is_verbose (traits B)
       then n * ceil_div (length (ranges w input)) (N.to_nat (batch_size (this w)))
       else 0).
Proof.
  revert epoch trainer w. induction n as [|n IH]; intros epoch trainer w Hbs Hlen Hfuel.
  { exists trainer, w, []. rewrite app_nil_r. repeat split; try done.
    by destruct (is_verbose (traits B)). }
  destruct (train_epoch_watcher fuel input expected epoch trainer w Hbs Hlen Hfuel)
    as (t1 & c1 & w1 & evs & Hstep & Hw1 & Hn & Hb & _).
  destruct (train_epoch_summary fuel input expected epoch trainer w Hbs Hlen Hfuel)
    as (t'' & c'' & u'' & Hstep' & Hf & _).
  rewrite Hstep in Hstep'. injection Hstep' as <- <- <-.
  destruct (IH (epoch + 1)%N t1 w1) as (t2 & w2 & body & Hrun & Hf2 & Hw2 & Hall & Hoff & Hon).
  { by rewrite (epoch_batch_size _ _ _ _ Hf). }
  { by rewrite !(epoch_length _ _ _ _ Hf). }
  { by rewrite (epoch_length _ _ _ _ Hf). }
  rewrite (epoch_length _ _ _ _ Hf), (epoch_batch_size _ _ _ _ Hf) in Hon.
  exists t2, w2,
    (evs ++ (if EnableWatcher B then [epoch_end epoch c1 (rbm w1)] else []) ++ body).
  split. { cbn [train_epochs]. rewrite Hstep. cbn [mbind outcome_bind]. exact Hrun. }
  split; [by etrans|].
  split. { by rewrite Hw2, Hw1, <- !app_assoc. }
  split.
  { apply Forall_app. split.
    - eapply Forall_impl; [exact Hb|]. intros ev ->. done.
    - apply Forall_app. split; [|done]. destruct (EnableWatcher B); by repeat constructor. }
  split.
  { intros Hw0. rewrite Hw0 in *. rewrite (Hoff eq_refl). cbn in Hn.
    apply length_zero_iff_nil in Hn. by subst. }
  intros Hw0. destruct (Hon Hw0) as [Hends Hcount]. rewrite Hw0 in *. split.
  - rewrite !epoch_ends_app, Hends, (epoch_ends_batch_ends evs) by done. cbn.
    rewrite N.add_0_r. f_equal. rewrite <- fmap_S_seq, <- list_fmap_compose.
    apply list_fmap_ext. intros _ k _. cbn. lia.
  - rewrite !filter_app, !length_app, Hcount, filter_batch_ends by done.
    rewrite filter_cons_False, filter_nil by done. cbn [length andb] in *.
    rewrite Hn. destruct (is_verbose (traits B)); lia.
Qed.

(** X1. A run of [train] with a watcher tells it the start of the training,
    then, epoch after epoch from epoch zero, the batches of the epoch (if
    the layer is verbose, one notification per batch the trainer is called
    on) and the end of the epoch, and last the end of the training. Without
    a watcher nothing is notified. *)
Theorem train_notifies_in_order fuel caller_category ifirst efirst max_epochs w :
  is_caller ifirst → is_caller efirst →
  layer_batch_size (rbm w) ≠ 0%N →
  length (ranges w ifirst) = length (ranges w efirst) →
  length (ranges w ifirst) ≤ fuel →
  ∃ e w',
    train_ranges rand_next L B fuel caller_category ifirst efirst max_epochs w =
      Done (e, w') ∧
    (EnableWatcher B = false → watcher (this w') = watcher (this w)) ∧
    (EnableWatcher B = true →
     ∃ body,
       watcher (this w') =
         watcher (this w) ++
           training_begin (set_momentum (rbm w) (initial_momentum (rbm w)))
             :: body ++ [training_end (rbm w')] ∧
       Forall (λ ev, is_batch_end ev || is_epoch_end ev = true) body ∧
       epoch_ends body = N.of_nat <$> seq 0 (N.to_nat max_epochs) ∧
       length (filter (λ ev, is_batch_end ev = true) body) =
         if is_verbose (traits B)
         then N.to_nat max_epochs *
              ceil_div (length (ranges w ifirst)) (N.to_nat (layer_batch_size (rbm w)))
         else 0).
Proof.
  intros Hi He Hbs Hlen Hfuel.
  destruct (train_ranges_start fuel caller_category ifirst efirst max_epochs w Hi He Hbs)
    as (input & expected & w1 & Hp & Hrun & Hw1 & _).
  destruct (train_epochs_watcher fuel (N.to_nat max_epochs) input expected 0%N
              (get_trainer L w1) w1)
    as (t' & w2 & body & Hepochs & Hf & Hw2 & Hall & Hoff & Hon).
  { by rewrite (prepared_batch_size _ _ _ _ _ _ _ Hp). }
  { rewrite (prepared_input _ _ _ _ _ _ _ Hp), (prepared_expected _ _ _ _ _ _ _ Hp).
    by destruct (has_shuffle (traits B) && negb (Denoising B)). }
  { by rewrite (prepared_input _ _ _ _ _ _ _ Hp). }
  rewrite (prepared_input _ _ _ _ _ _ _ Hp), (prepared_batch_size _ _ _ _ _ _ _ Hp) in Hon.
  exists (finalize_training B w2).1, (finalize_training B w2).2.
  split. { rewrite Hrun, Hepochs. cbn [mbind outcome_bind mret outcome_ret].
           by destruct (finalize_training B w2). }
  rewrite finalize_training_watcher, Hw2, Hw1. split.
  - intros Hw0. rewrite Hw0 in *. rewrite (Hoff eq_refl). by rewrite !app_nil_r.
  - intros Hw0. rewrite Hw0 in *. exists body.
    split. { by rewrite <- !app_assoc. }
    split; [done|]. destruct (Hon eq_refl) as [-> ->]. split; [|done].
    apply list_fmap_ext. intros _ k _. cbn. lia.
Qed.

(** X2. With a watcher and a verbose layer, the notifications of the first
    epoch of [train] follow the start of the training and number the
    batches from one, one per batch the trainer is called on; each gives as
    the total the number [init_training] computed: the number of samples
    divided by the batch size, rounded down, when the iterators are
    random-access (those of the copies a shuffling layer trains on are),
    and zero otherwise. With a remainder the last batch is thus numbered
    one above the total. *)
Theorem batch_notifications_are_numbered fuel caller_category ifirst efirst max_epochs w :
  EnableWatcher B = true → is_verbose (traits B) = true →
  is_caller ifirst → is_caller efirst →
  layer_batch_size (rbm w) ≠ 0%N →
  length (ranges w ifirst) = length (ranges w efirst) →
  length (ranges w ifirst) ≤ fuel →
  (N.of_nat (length (ranges w ifirst)) < 2 ^ 64)%N →
  (0 < max_epochs)%N →
  let size := length (ranges w ifirst) in
  let n := layer_batch_size (rbm w) in
  let total := (if has_shuffle (traits B) || caller_category
                then N.of_nat size / n else 0)%N in
  ∃ e w' evs rest,
    train_ranges rand_next L B fuel caller_category ifirst efirst max_epochs w =
      Done (e, w') ∧
    watcher (this w') =
      watcher (this w) ++
        training_begin (set_momentum (rbm w) (initial_momentum (rbm w))) :: evs ++ rest ∧
    length evs = ceil_div size (N.to_nat n) ∧
    (∀ k ev, evs !! k = Some ev → ∃ r c, ev = batch_end r c (N.of_nat (S k)) total) ∧
    (size mod N.to_nat n ≠ 0 → has_shuffle (traits B) || caller_category = true →
     ∃ r c, evs !! (N.to_nat total) = Some (batch_end r c (total + 1)%N total)).
Proof.
  intros Hw0 Hv Hi He Hbs Hlen Hfuel Hsize Hmax size n total.
  destruct (train_ranges_start fuel caller_category ifirst efirst max_epochs w Hi He Hbs)
    as (input & expected & w1 & Hp & Hrun & Hw1 & Ht1).
  assert (Hra : random_access_iterator caller_category input =
                has_shuffle (traits B) || caller_category).
  { destruct (has_shuffle (traits B)) eqn:Hs.
    - by destruct (prepared_copies _ _ _ _ _ _ _ Hp Hs) as [-> _].
    - destruct (prepared_direct _ _ _ _ _ _ _ Hp Hs) as [-> _].
      by destruct Hi as [-> | ->]. }
  rewrite Hra in Ht1. fold size n total in Ht1.
  assert (Hbs1 : batch_size (this w1) ≠ 0%N)
    by by rewrite (prepared_batch_size _ _ _ _ _ _ _ Hp).
  assert (Hlen1 : length (ranges w1 input) = length (ranges w1 expected)).
  { rewrite (prepared_input _ _ _ _ _ _ _ Hp), (prepared_expected _ _ _ _ _ _ _ Hp).
    by destruct (has_shuffle (traits B) && negb (Denoising B)). }
  assert (Hfuel1 : length (ranges w1 input) ≤ fuel)
    by by rewrite (prepared_input _ _ _ _ _ _ _ Hp).
  replace (N.to_nat max_epochs) with (1 + (N.to_nat max_epochs - 1)) in Hrun by lia.
  rewrite train_epochs_prefix in Hrun. cbn [train_epochs] in Hrun.
  destruct (train_epoch_watcher fuel input expected 0%N (get_trainer L w1) w1
              Hbs1 Hlen1 Hfuel1)
    as (t2 & c2 & w2 & evs & Hstep & Hw2 & Hn & _ & Hidx).
  destruct (train_epoch_summary fuel input expected 0%N (get_trainer L w1) w1
              Hbs1 Hlen1 Hfuel1)
    as (t'' & c'' & u'' & Hstep' & Hf & _).
  rewrite Hstep in Hstep'. injection Hstep' as <- <- <-.
  rewrite Hstep in Hrun. cbn [mbind outcome_bind mret outcome_ret] in Hrun.
  destruct (train_epochs_watcher fuel (N.to_nat max_epochs - 1) input expected
              (0 + N.of_nat 1)%N t2 w2)
    as (t3 & w3 & body & Hepochs & _ & Hw3 & _).
  { by rewrite (epoch_batch_size _ _ _ _ Hf). }
  { by rewrite !(epoch_length _ _ _ _ Hf). }
  { by rewrite (epoch_length _ _ _ _ Hf). }
  rewrite Hepochs in Hrun. cbn [mbind outcome_bind mret outcome_ret] in Hrun.
  rewrite Hw0, Hv in *. cbn [andb] in Hn.
  rewrite (prepared_input _ _ _ _ _ _ _ Hp), (prepared_batch_size _ _ _ _ _ _ _ Hp) in Hn.
  fold size n in Hn.
  assert (Hceil : ceil_div size (N.to_nat n) ≤ size).
  { unfold ceil_div. destruct (decide (size = 0)) as [->|].
    - rewrite Nat.div_small; lia.
    - apply Nat.Div0.div_le_upper_bound. nia. }
  assert (Hnum : ∀ k ev, evs !! k = Some ev →
                 ∃ r c, ev = batch_end r c (N.of_nat (S k)) total).
  { intros k ev Hev. destruct (Hidx k ev Hev) as (r & c & ->).
    exists r, c. rewrite iter_size_succ, N.add_0_l, Ht1; [done|].
    apply lookup_lt_Some in Hev. lia. }
  exists (finalize_training B w3).1, (finalize_training B w3).2, evs,
    (epoch_end 0 c2 (rbm w2) :: body ++ [training_end (rbm (finalize_training B w3).2)]).
  split. { rewrite Hrun. by destruct (finalize_training B w3). }
  split.
  { rewrite finalize_training_watcher, Hw3, Hw2, Hw1, Hw0. cbn.
    by rewrite <- !app_assoc. }
  split; [done|]. split; [done|].
  intros Hrem Hacc.
  assert (Htot : N.to_nat total = size / N.to_nat n).
  { unfold total. rewrite Hacc, N2Nat.inj_div, Nat2N.id. done. }
  assert (Hk : N.to_nat total < length evs).
  { rewrite Hn, Htot, ceil_div_remainder by (done || lia). lia. }
  destruct (lookup_lt_is_Some_2 evs _ Hk) as [ev Hev].
  destruct (Hnum _ _ Hev) as (r & c & ->). exists r, c. rewrite Hev.
  do 2 f_equal. lia.
Qed.

(** ** The pairs of an input and its expected value *)

Lemma shuffle_pairs input expected w w' :
  paired B input expected →
  length (ranges w input) = length (ranges w expected) →
  shuffle rand_next B input expected w = Done w' →
  zip (ranges w' input) (ranges w' expected) ≡ₚ zip (ranges w input) (ranges w expected).
Proof.
  intros Hp Hlen. unfold shuffle.
  destruct (has_shuffle (traits B)) eqn:Hs; [|by intros [= <-]].
  destruct Hp as [?|[[Hd Hne]|[Hd ->]]]; [congruence| |]; rewrite Hd.
  - unfold parallel_shuffle. rewrite decide_True by done.
    pose proof (parallel_shuffle_from_pairs (length (ranges w input) - 1)
                  (ranges w input) (ranges w expected) (rand_engine w) Hlen) as Hperm.
    destruct (parallel_shuffle_from _ _ _ _ _) as [[l1 l2] g]. cbn [fst snd] in Hperm.
    intros [= <-]. cbn. by repeat case_decide.
  - pose proof (std_shuffle_Permutation (ranges w expected) (rand_engine w)) as Hperm.
    destruct (std_shuffle _ _ _) as [l g]. cbn [fst] in Hperm.
    intros [= <-]. cbn. case_decide; [|done].
    rewrite !zip_diag. by rewrite Hperm.
Qed.

(** One epoch of [train] calls the trainer on all the pairs, each once. *)
Lemma train_epoch_pairs fuel input expected epoch trainer w :
  paired B input expected →
  batch_size (this w) ≠ 0%N →
  length (ranges w input) = length (ranges w expected) →
  length (ranges w input) ≤ fuel →
  ∃ trainer' context' w' passed,
    train_epoch rand_next L B fuel input expected epoch trainer w =
      Done (trainer', context', w') ∧
    epoch_frame B input expected w w' ∧
    trainer_calls w' = trainer_calls w ++ passed ∧
    length passed =
      ceil_div (length (ranges w input)) (N.to_nat (batch_size (this w))) ∧
    zip (concat passed.*1) (concat passed.*2)
      ≡ₚ zip (ranges w input) (ranges w expected) ∧
    zip (ranges w' input) (ranges w' expected)
      ≡ₚ zip (ranges w input) (ranges w expected) ∧
    passed =
      batches_of (N.to_nat (batch_size (this w))) (ranges w' input) (ranges w' expected).
Proof.
  intros Hp Hbs Hlen Hfuel.
  destruct (train_epoch_summary fuel input expected epoch trainer w Hbs Hlen Hfuel)
    as (t' & c' & w' & Hrun & Hf & _).
  destruct (train_epoch_spec fuel input expected epoch trainer w Hbs Hlen Hfuel)
    as (w1 & Hsh & Hre & Hrun').
  rewrite Hrun in Hrun'. injection Hrun' as -> -> ->.
  pose proof (shuffle_pairs input expected w w1 Hp Hlen Hsh) as Hperm.
  pose proof (reordered_length _ _ _ _ Hre) as Hl.
  assert (Hn : 0 < N.to_nat (batch_size (this w))) by lia.
  assert (Hlen1 : length (ranges w1 input) ≤ length (ranges w1 expected))
    by (rewrite !Hl; lia).
  set (l := batches_of _ _ _) in *.
  pose proof (run_batches_same l (trainer, new_context, init_epoch w1)) as Hsame.
  pose proof (run_batches_calls l (trainer, new_context, init_epoch w1)) as Hcalls.
  destruct (run_batches L B l _) as [[t c] w2]. cbn [fst snd] in *.
  exists t, (finalize_epoch L B epoch c w2).1, (finalize_epoch L B epoch c w2).2, l.
  split; [done|]. split; [done|].
  split. { rewrite finalize_epoch_calls, Hcalls. cbn.
           by rewrite (reordered_calls _ _ _ _ Hre). }
  split. { unfold l. rewrite length_batches_of by done. by rewrite Hl. }
  destruct (finalize_epoch_data epoch c w2) as [-> _].
  rewrite (same_ranges _ _ Hsame). cbn [init_epoch set_samples set_batches with_this ranges].
  split; [|done].
  unfold l. rewrite batches_of_fst, batches_of_snd, !concat_chunks by done.
  rewrite take_ge by (rewrite !Hl; lia). done.
Qed.

Lemma zip_diagonal {A : Type} (a b l : list A) :
  length a = length b → zip a b ≡ₚ zip l l → a = b.
Proof.
  intros Hlen Hperm.
  assert (Hall : Forall (λ p, p.1 = p.2) (zip a b)).
  { rewrite Hperm. clear. induction l; by constructor. }
  clear Hperm. revert b Hlen Hall.
  induction a as [|x a IH]; intros [|y b] Hlen Hall; try done.
  cbn in *. inversion Hall as [|? ? Hxy Hrest]; subst. cbn in Hxy. subst.
  f_equal. apply IH; [lia|done].
Qed.

Lemma batches_of_diagonal n (l : list sample) :
  Forall (λ b, b.1 = b.2) (batches_of n l l).
Proof.
  unfold batches_of. rewrite firstn_all.
  induction (chunks n l); by constructor.
Qed.

Lemma train_epochs_pairs fuel n input expected epoch trainer w :
  paired B input expected →
  batch_size (this w) ≠ 0%N →
  length (ranges w input) = length (ranges w expected) →
  length (ranges w input) ≤ fuel →
  ∃ trainer' w' epochs,
    train_epochs rand_next L B fuel n input expected epoch trainer w =
      Done (trainer', w') ∧
    trainer_calls w' = trainer_calls w ++ concat epochs ∧
    length epochs = n ∧
    Forall (λ passed,
      length passed =
        ceil_div (length (ranges w input)) (N.to_nat (batch_size (this w))) ∧
      zip (concat passed.*1) (concat passed.*2)
        ≡ₚ zip (ranges w input) (ranges w expected)) epochs.
Proof.
  intros Hp. revert epoch trainer w.
  induction n as [|n IH]; intros epoch trainer w Hbs Hlen Hfuel.
  { exists trainer, w, []. cbn. by rewrite app_nil_r. }
  destruct (train_epoch_pairs fuel input expected epoch trainer w Hp Hbs Hlen Hfuel)
    as (t1 & c1 & w1 & passed & Hstep & Hf & Hc1 & Hn1 & Hperm & Hperm1 & _).
  destruct (IH (epoch + 1)%N t1 w1) as (t2 & w2 & epochs & Hrun & Hc2 & Hn2 & Hall).
  { by rewrite (epoch_batch_size _ _ _ _ Hf). }
  { by rewrite !(epoch_length _ _ _ _ Hf). }
  { by rewrite (epoch_length _ _ _ _ Hf). }
  exists t2, w2, (passed :: epochs).
  split. { cbn [train_epochs]. rewrite Hstep. cbn [mbind outcome_bind]. exact Hrun. }
  split. { by rewrite Hc2, Hc1, <- app_assoc. }
  split; [cbn; by rewrite Hn2|].
  constructor; [done|].
  eapply Forall_impl; [exact Hall|]. intros p [Hlp Hpp]. cbn beta in *.
  rewrite (epoch_length _ _ _ _ Hf), (epoch_batch_size _ _ _ _ Hf) in Hlp.
  split; [done|]. by rewrite Hpp.
Qed.

(** X3. In every epoch of a run of [train] the trainer is called on
    [ceil_div size n] batches that hold, together, every sample of the
    caller once, each with its expected value, in some order. For a layer
    that shuffles outside denoising mode the expected value is the sample
    itself, whatever the expected range of the caller holds. *)
Theorem every_epoch_trains_on_every_pair fuel caller_category ifirst efirst max_epochs w :
  is_caller ifirst → is_caller efirst →
  layer_batch_size (rbm w) ≠ 0%N →
  length (ranges w ifirst) = length (ranges w efirst) →
  length (ranges w ifirst) ≤ fuel →
  ∃ e w' epochs,
    train_ranges rand_next L B fuel caller_category ifirst efirst max_epochs w =
      Done (e, w') ∧
    trainer_calls w' = trainer_calls w ++ concat epochs ∧
    length epochs = N.to_nat max_epochs ∧
    Forall (λ passed,
      length passed =
        ceil_div (length (ranges w ifirst)) (N.to_nat (layer_batch_size (rbm w))) ∧
      zip (concat passed.*1) (concat passed.*2)
        ≡ₚ zip (ranges w ifirst)
             (ranges w (if has_shuffle (traits B) && negb (Denoising B)
                        then ifirst else efirst))) epochs.
Proof.
  intros Hi He Hbs Hlen Hfuel.
  destruct (train_ranges_prepared fuel caller_category ifirst efirst max_epochs w Hi He Hbs)
    as (input & expected & w1 & Hp & Hrun).
  assert (Hpaired : paired B input expected).
  { unfold paired. destruct (has_shuffle (traits B)) eqn:Hs; [right|by left].
    destruct (prepared_copies _ _ _ _ _ _ _ Hp Hs) as [-> ->].
    destruct (Denoising B); [by left|by right]. }
  destruct (train_epochs_pairs fuel (N.to_nat max_epochs) input expected 0%N
              (get_trainer L w1) w1 Hpaired)
    as (t' & w2 & epochs & Hepochs & Hc & Hn & Hall).
  { by rewrite (prepared_batch_size _ _ _ _ _ _ _ Hp). }
  { rewrite (prepared_input _ _ _ _ _ _ _ Hp), (prepared_expected _ _ _ _ _ _ _ Hp).
    by destruct (has_shuffle (traits B) && negb (Denoising B)). }
  { by rewrite (prepared_input _ _ _ _ _ _ _ Hp). }
  destruct (finalize_training_spec w2) as (_ & _ & _ & _ & _ & Hcalls).
  exists (finalize_training B w2).1, (finalize_training B w2).2, epochs.
  split. { rewrite Hrun, Hepochs. cbn [mbind outcome_bind mret outcome_ret].
           by destruct (finalize_training B w2). }
  split. { by rewrite Hcalls, Hc, (prepared_calls _ _ _ _ _ _ _ Hp). }
  split; [done|].
  by rewrite (prepared_input _ _ _ _ _ _ _ Hp), (prepared_expected _ _ _ _ _ _ _ Hp),
    (prepared_batch_size _ _ _ _ _ _ _ Hp) in Hall.
Qed.

Lemma train_epochs_diagonal fuel n input expected epoch trainer w :
  paired B input expected →
  batch_size (this w) ≠ 0%N →
  ranges w input = ranges w expected →
  length (ranges w input) ≤ fuel →
  ∃ trainer' w' passed,
    train_epochs rand_next L B fuel n input expected epoch trainer w =
      Done (trainer', w') ∧
    trainer_calls w' = trainer_calls w ++ passed ∧
    Forall (λ b, b.1 = b.2) passed.
Proof.
  intros Hp. revert epoch trainer w.
  induction n as [|n IH]; intros epoch trainer w Hbs Heq Hfuel.
  { exists trainer, w, []. cbn. by rewrite app_nil_r. }
  assert (Hlen : length (ranges w input) = length (ranges w expected)) by by rewrite Heq.
  destruct (train_epoch_pairs fuel input expected epoch trainer w Hp Hbs Hlen Hfuel)
    as (t1 & c1 & w1 & passed & Hstep & Hf & Hc1 & _ & _ & Hperm1 & Hpassed).
  assert (Heq1 : ranges w1 input = ranges w1 expected).
  { rewrite <- Heq in Hperm1. eapply zip_diagonal; [|exact Hperm1].
    by rewrite !(epoch_length _ _ _ _ Hf). }
  destruct (IH (epoch + 1)%N t1 w1) as (t2 & w2 & rest & Hrun & Hc2 & Hall).
  { by rewrite (epoch_batch_size _ _ _ _ Hf). }
  { done. }
  { by rewrite (epoch_length _ _ _ _ Hf). }
  exists t2, w2, (passed ++ rest).
  split. { cbn [train_epochs]. rewrite Hstep. cbn [mbind outcome_bind]. exact Hrun. }
  split. { by rewrite Hc2, Hc1, <- app_assoc. }
  apply Forall_app. split; [|done].
  rewrite Hpassed, Heq1. apply batches_of_diagonal.
Qed.

(** X4. [train(rbm, first, last, max_epochs)] trains the layer on its own
    input: in every call of the trainer the expected batch is the input
    batch, also for a layer that shuffles, in denoising mode or not. *)
Theorem train_single_expects_its_input fuel caller_category max_epochs w :
  layer_batch_size (rbm w) ≠ 0%N →
  length (ranges w caller_input) ≤ fuel →
  ∃ e w' passed,
    train_single rand_next L B fuel caller_category max_epochs w = Done (e, w') ∧
    trainer_calls w' = trainer_calls w ++ passed ∧
    Forall (λ b, b.1 = b.2) passed.
Proof.
  intros Hbs Hfuel. unfold train_single.
  destruct (train_ranges_prepared fuel caller_category caller_input caller_input
              max_epochs w) as (input & expected & w1 & Hp & Hrun);
    [by left|by left|done|].
  assert (Hpaired : paired B input expected).
  { unfold paired. destruct (has_shuffle (traits B)) eqn:Hs; [right|by left].
    destruct (prepared_copies _ _ _ _ _ _ _ Hp Hs) as [-> ->].
    destruct (Denoising B); [by left|by right]. }
  destruct (train_epochs_diagonal fuel (N.to_nat max_epochs) input expected 0%N
              (get_trainer L w1) w1 Hpaired)
    as (t' & w2 & passed & Hepochs & Hc & Hall).
  { by rewrite (prepared_batch_size _ _ _ _ _ _ _ Hp). }
  { rewrite (prepared_input _ _ _ _ _ _ _ Hp), (prepared_expected _ _ _ _ _ _ _ Hp).
    by destruct (has_shuffle (traits B) && negb (Denoising B)). }
  { by rewrite (prepared_input _ _ _ _ _ _ _ Hp). }
  destruct (finalize_training_spec w2) as (_ & _ & _ & _ & _ & Hcalls).
  exists (finalize_training B w2).1, (finalize_training B w2).2, passed.
  split. { rewrite Hrun, Hepochs. cbn [mbind outcome_bind mret outcome_ret].
           by destruct (finalize_training B w2). }
  split; [|done]. by rewrite Hcalls, Hc, (prepared_calls _ _ _ _ _ _ _ Hp).
Qed.

(** ** A batch size of zero *)

Lemma init_training_zero input w :
  layer_batch_size (rbm w) = 0%N → init_training B true input w = Undefined.
Proof.
  intros Hz. unfold init_training, get_batch_size.
  destruct (EnableWatcher B); cbn; by rewrite Hz.
Qed.

(** With a batch size of zero the inner loop of [train_sub] moves no
    cursor, and the outer loop goes on for ever. *)
Lemma train_sub_from_zero fuel input expected iit eit trainer context w :
  batch_size (this w) = 0%N →
  iit < length (ranges w input) → eit ≤ length (ranges w expected) →
  train_sub_from L B fuel input expected iit eit trainer context w = OutOfFuel.
Proof.
  revert trainer context w.
  induction fuel as [|fuel IH]; intros trainer context w Hz Hi He; cbn [train_sub_from];
    assert ((iit =? length (ranges w input)) = false) as Hne
      by (apply Nat.eqb_neq; lia); rewrite Hne; [done|].
  destruct (length (ranges w input) - iit) as [|n] eqn:Hn; [lia|].
  cbn [fill_batch]. rewrite Hne, Hz. cbn [negb andb N.ltb N.compare].
  assert ((length (ranges w expected) <? eit) = false) as -> by (apply Nat.ltb_ge; lia).
  rewrite train_batch_range_eq.
  pose proof (train_batch_same (make_batch (ranges w input) iit iit)
                (make_batch (ranges w expected) eit eit) trainer context w) as Hs.
  destruct (train_batch _ _ _ _ _ _ _) as [[t' c'] w']. cbn [snd] in Hs.
  apply IH.
  - by rewrite (same_batch_size _ _ Hs).
  - by rewrite (same_ranges _ _ Hs).
  - by rewrite (same_ranges _ _ Hs).
Qed.

(** X5. A layer whose batch size is zero cannot be trained. Where
    [init_training] knows the number of samples (a run over a generator,
    [train_denoising_auto], and [train] on random-access iterators, which
    those of the copies of a shuffling layer are), it divides this number by
    the batch size: the behaviour is undefined. *)
Theorem zero_batch_size_is_undefined w :
  layer_batch_size (rbm w) = 0%N →
  (∀ fuel caller_category ifirst efirst max_epochs,
     is_caller ifirst → is_caller efirst →
     has_shuffle (traits B) || caller_category = true →
     train_ranges rand_next L B fuel caller_category ifirst efirst max_epochs w =
       Undefined) ∧
  (∀ fuel generator max_epochs,
     train_generator L G B fuel generator max_epochs w = Undefined) ∧
  (∀ fuel max_epochs noise,
     train_denoising_auto rand_next uniform_real L B fuel max_epochs noise w = Undefined).
Proof.
  intros Hz. split; [|split].
  - intros fuel caller_category ifirst efirst max_epochs Hi He Hra.
    destruct (prepare_it_spec ifirst efirst w Hi He)
      as (input & expected & w1 & Hprep & Hrbm & _ & _ & _ & _ & _ & _ & _
          & Hcopies & Hdirect).
    unfold train_ranges. rewrite Hprep.
    assert (random_access_iterator caller_category input = true) as ->.
    { destruct (has_shuffle (traits B)) eqn:Hs.
      - by destruct (Hcopies eq_refl) as [-> _].
      - destruct (Hdirect eq_refl) as [-> _]. by destruct Hi as [-> | ->]. }
    rewrite init_training_zero; [done|by rewrite Hrbm].
  - intros fuel generator max_epochs.
    unfold train_generator, init_training_generator, get_batch_size.
    destruct (EnableWatcher B); cbn; by rewrite Hz.
  - intros fuel max_epochs noise. unfold train_denoising_auto.
    destruct (Denoising B); [done|]. by rewrite init_training_zero.
Qed.

(** X6. Where [init_training] does not know the number of samples ([train]
    on iterators of the caller that are not random-access, for a layer that
    does not shuffle), a batch size of zero makes the first epoch loop for
    ever on batches of no sample, unless there is no sample or no epoch. *)
Theorem zero_batch_size_never_returns fuel ifirst efirst max_epochs w :
  layer_batch_size (rbm w) = 0%N →
  has_shuffle (traits B) = false →
  is_caller ifirst → is_caller efirst →
  ranges w ifirst ≠ [] → (0 < max_epochs)%N →
  train_ranges rand_next L B fuel false ifirst efirst max_epochs w = OutOfFuel.
Proof.
  intros Hz Hs Hi He Hne Hmax.
  destruct (prepare_it_spec ifirst efirst w Hi He)
    as (input & expected & w1 & Hprep & Hrbm & _ & _ & _ & _ & Hin & _ & _
        & _ & Hdirect).
  destruct (Hdirect Hs) as [-> ->].
  unfold train_ranges. rewrite Hprep.
  assert (random_access_iterator false ifirst = false) as ->
    by by destruct Hi as [-> | ->].
  destruct (N.to_nat max_epochs) as [|n] eqn:Hn; [lia|].
  assert (Hloop : ∀ trainer u,
    batch_size (this u) = 0%N → ranges u ifirst = ranges w ifirst →
    train_epoch rand_next L B fuel ifirst efirst 0 trainer u = OutOfFuel).
  { intros trainer u Hbu Hru. unfold train_epoch, shuffle. rewrite Hs.
    cbn [mbind outcome_bind mret outcome_ret]. unfold train_sub.
    rewrite train_sub_from_zero; [done|done| |lia].
    cbn. rewrite Hru. destruct (ranges w ifirst); [done|cbn; lia]. }
  unfold init_training, get_batch_size, init_weights.
  cbn [train_epochs].
  destruct (EnableWatcher B), (has_init_weights (traits B));
    cbn [mbind outcome_bind mret outcome_ret];
    rewrite Hloop; try done; cbn; by rewrite ?Hrbm.
Qed.

(** ** What a run returns *)

Lemma finalize_epoch_last_error epoch context w :
  last_error (this (finalize_epoch L B epoch context w).2) =
  weight_cast L (reconstruction_error (finalize_epoch L B epoch context w).1).
Proof.
  unfold finalize_epoch.
  by destruct (has_momentum (traits B) && (epoch =? final_momentum_epoch (rbm w))%N),
    (EnableWatcher B).
Qed.

Lemma train_epoch_last_error fuel input expected epoch trainer w trainer' context' w' :
  train_epoch rand_next L B fuel input expected epoch trainer w =
    Done (trainer', context', w') →
  last_error (this w') = weight_cast L (reconstruction_error context').
Proof.
  unfold train_epoch.
  destruct (shuffle _ _ _ _ _) as [w1| |]; [|done..]. cbn [mbind outcome_bind].
  destruct (train_sub _ _ _ _ _ _ _ _) as [[[t c] w2]| |]; [|done..].
  cbn [mbind outcome_bind].
  pose proof (finalize_epoch_last_error epoch c w2) as Hle.
  destruct (finalize_epoch L B epoch c w2) as [cf wf]. by intros [= <- <- <-].
Qed.

(** A run of at least one epoch, cut before its last epoch. *)
Lemma train_ranges_last_epoch fuel caller_category ifirst efirst max_epochs w :
  is_caller ifirst → is_caller efirst →
  layer_batch_size (rbm w) ≠ 0%N →
  length (ranges w ifirst) = length (ranges w efirst) →
  length (ranges w ifirst) ≤ fuel →
  (0 < max_epochs)%N →
  ∃ input expected w1 trainer u trainer' context' u',
    prepared L B caller_category ifirst efirst input expected w w1 ∧
    train_epochs rand_next L B fuel (N.to_nat max_epochs - 1) input expected 0%N
      (get_trainer L w1) w1 = Done (trainer, u) ∧
    epoch_frame B input expected w1 u ∧
    train_epoch rand_next L B fuel input expected (max_epochs - 1)%N trainer u =
      Done (trainer', context', u') ∧
    train_ranges rand_next L B fuel caller_category ifirst efirst max_epochs w =
      Done (finalize_training B u').
Proof.
  intros Hi He Hbs Hlen Hfuel Hmax.
  destruct (train_ranges_prepared fuel caller_category ifirst efirst max_epochs w Hi He Hbs)
    as (input & expected & w1 & Hp & Hrun).
  assert (Hbs1 : batch_size (this w1) ≠ 0%N)
    by by rewrite (prepared_batch_size _ _ _ _ _ _ _ Hp).
  assert (Hlen1 : length (ranges w1 input) = length (ranges w1 expected)).
  { rewrite (prepared_input _ _ _ _ _ _ _ Hp), (prepared_expected _ _ _ _ _ _ _ Hp).
    by destruct (has_shuffle (traits B) && negb (Denoising B)). }
  assert (Hfuel1 : length (ranges w1 input) ≤ fuel)
    by by rewrite (prepared_input _ _ _ _ _ _ _ Hp).
  destruct (train_epochs_summary fuel (N.to_nat max_epochs - 1) input expected
              (get_trainer L w1) w1 Hbs1 Hlen1 Hfuel1) as (t & u & Hfirst & Hf & _).
  destruct (train_epoch_summary fuel input expected (max_epochs - 1)%N t u)
    as (t' & c' & u' & Hlast & _).
  { by rewrite (epoch_batch_size _ _ _ _ Hf). }
  { by rewrite !(epoch_length _ _ _ _ Hf). }
  { by rewrite (epoch_length _ _ _ _ Hf). }
  exists input, expected, w1, t, u, t', c', u'.
  split; [done|]. split; [done|]. split; [done|]. split; [done|].
  rewrite Hrun.
  replace (N.to_nat max_epochs) with ((N.to_nat max_epochs - 1) + 1) at 1 by lia.
  rewrite train_epochs_prefix, Hfirst. cbn [mbind outcome_bind train_epochs].
  replace (0 + N.of_nat (N.to_nat max_epochs - 1))%N with (max_epochs - 1)%N by lia.
  rewrite Hlast. reflexivity.
Qed.

(** X8. A run of [train] of at least one epoch returns the reconstruction
    error its last epoch ended with, cast to the weight type of the layer,
    and leaves it in [last_error]; the epochs before play no part in the
    value. *)
Theorem train_returns_last_epoch_error fuel caller_category ifirst efirst max_epochs w :
  is_caller ifirst → is_caller efirst →
  layer_batch_size (rbm w) ≠ 0%N →
  length (ranges w ifirst) = length (ranges w efirst) →
  length (ranges w ifirst) ≤ fuel →
  (0 < max_epochs)%N →
  ∃ input expected w1 trainer u trainer' context' u' e w',
    prepared L B caller_category ifirst efirst input expected w w1 ∧
    train_epochs rand_next L B fuel (N.to_nat max_epochs - 1) input expected 0%N
      (get_trainer L w1) w1 = Done (trainer, u) ∧
    train_epoch rand_next L B fuel input expected (max_epochs - 1)%N trainer u =
      Done (trainer', context', u') ∧
    train_ranges rand_next L B fuel caller_category ifirst efirst max_epochs w =
      Done (e, w') ∧
    e = weight_cast L (reconstruction_error context') ∧
    last_error (this w') = e.
Proof.
  intros Hi He Hbs Hlen Hfuel Hmax.
  destruct (train_ranges_last_epoch fuel caller_category ifirst efirst max_epochs w
              Hi He Hbs Hlen Hfuel Hmax)
    as (input & expected & w1 & t & u & t' & c' & u' & Hp & Hfirst & Hf & Hlast & Hrun).
  exists input, expected, w1, t, u, t', c', u',
    (finalize_training B u').1, (finalize_training B u').2.
  split; [done|]. split; [done|]. split; [done|].
  split. { rewrite Hrun. by destruct (finalize_training B u'). }
  pose proof (train_epoch_last_error _ _ _ _ _ _ _ _ _ Hlast) as Hle.
  unfold finalize_training.
  by destruct (EnableWatcher B); cbn [fst snd notify with_this this last_error].
Qed.

(** X9. At the end of an epoch of [train], for a trainer that leaves the
    accumulators of the context alone, the reconstruction error and the
    sparsity are the sums of the values the trainer reported for the
    batches of the epoch, divided by the number of these batches,
    [ceil_div size n]; the free energy is the accumulated one divided by
    the number of samples; [last_error] is the reconstruction error. *)
Theorem epoch_reports_means fuel input expected epoch trainer w :
  keeps_accumulators L →
  batch_size (this w) ≠ 0%N →
  length (ranges w input) = length (ranges w expected) →
  length (ranges w input) ≤ fuel →
  (N.of_nat (length (ranges w input)) < 2 ^ 64)%N →
  ∃ w1 trainer' context' w',
    shuffle rand_next B input expected w = Done w1 ∧
    train_epoch rand_next L B fuel input expected epoch trainer w =
      Done (trainer', context', w') ∧
    let size := length (ranges w input) in
    let l := batches_of (N.to_nat (batch_size (this w)))
               (ranges w1 input) (ranges w1 expected) in
    let start := (trainer, new_context, init_epoch w1) in
    let values := reported L B l start in
    let count := size_to_double (N.of_nat (ceil_div size (N.to_nat (batch_size (this w))))) in
    length values = ceil_div size (N.to_nat (batch_size (this w))) ∧
    reconstruction_error context' =
      (fold_left (λ a c, a + batch_error c) values 0 / count)%float ∧
    sparsity context' =
      (fold_left (λ a c, a + batch_sparsity c) values 0 / count)%float ∧
    free_energy context' =
      (free_energy (run_batches L B l start).1.2 / size_to_double (N.of_nat size))%float ∧
    last_error (this w') = weight_cast L (reconstruction_error context').
Proof.
  intros Hk Hbs Hlen Hfuel Hsize.
  destruct (train_epoch_spec fuel input expected epoch trainer w Hbs Hlen Hfuel)
    as (w1 & Hsh & Hre & Hrun).
  pose proof (reordered_length _ _ _ _ Hre) as Hl.
  assert (Hn : 0 < N.to_nat (batch_size (this w))) by lia.
  assert (Hlen1 : length (ranges w1 input) ≤ length (ranges w1 expected))
    by (rewrite !Hl; lia).
  eexists w1, _, _, _. split; [done|]. split; [exact Hrun|]. cbn zeta.
  set (l := batches_of _ _ _).
  assert (Hcat : length (concat l.*1) = length (ranges w input)).
  { unfold l. by rewrite batches_of_fst, concat_chunks, Hl by done. }
  assert (Hcount : length l =
            ceil_div (length (ranges w input)) (N.to_nat (batch_size (this w)))).
  { unfold l. by rewrite length_batches_of, Hl by done. }
  assert (Hceil : ceil_div (length (ranges w input)) (N.to_nat (batch_size (this w)))
                  ≤ length (ranges w input)).
  { unfold ceil_div. destruct (decide (length (ranges w input) = 0)) as [->|].
    - rewrite Nat.div_small; lia.
    - apply Nat.Div0.div_le_upper_bound. nia. }
  destruct (epoch_means l epoch trainer w1 Hk) as (Hre' & Hsp & Hfe & Hle);
    [lia|lia|].
  cbn zeta in Hre', Hsp, Hfe, Hle.
  rewrite length_reported, Hcount in Hre', Hsp. rewrite Hcat in Hfe.
  split; [by rewrite length_reported|]. done.
Qed.

(** X10. A run of [train] of at least one epoch over no sample calls the
    trainer on nothing and returns the quotient of [0.0] by zero, which is
    not a number. *)
Theorem train_on_no_sample fuel caller_category ifirst efirst max_epochs w :
  is_caller ifirst → is_caller efirst →
  layer_batch_size (rbm w) ≠ 0%N →
  ranges w ifirst = [] → ranges w efirst = [] →
  (0 < max_epochs)%N →
  ∃ w',
    train_ranges rand_next L B fuel caller_category ifirst efirst max_epochs w =
      Done (weight_cast L nan, w') ∧
    trainer_calls w' = trainer_calls w.
Proof.
  intros Hi He Hbs Hin Hex Hmax.
  destruct (train_ranges_last_epoch fuel caller_category ifirst efirst max_epochs w)
    as (input & expected & w1 & t & u & t' & c' & u' & Hp & Hfirst & Hf & Hlast & Hrun);
    [done|done|done|by rewrite Hin, Hex|rewrite Hin; cbn; lia|done|].
  assert (Hpaired : paired B input expected).
  { unfold paired. destruct (has_shuffle (traits B)) eqn:Hs; [right|by left].
    destruct (prepared_copies _ _ _ _ _ _ _ Hp Hs) as [-> ->].
    destruct (Denoising B); [by left|by right]. }
  assert (Hin1 : ranges w1 input = []) by by rewrite (prepared_input _ _ _ _ _ _ _ Hp).
  assert (Hex1 : ranges w1 expected = []).
  { rewrite (prepared_expected _ _ _ _ _ _ _ Hp).
    by destruct (has_shuffle (traits B) && negb (Denoising B)). }
  assert (Hbs1 : batch_size (this w1) ≠ 0%N)
    by by rewrite (prepared_batch_size _ _ _ _ _ _ _ Hp).
  destruct (train_epochs_pairs fuel (N.to_nat max_epochs - 1) input expected 0%N
              (get_trainer L w1) w1 Hpaired Hbs1)
    as (t0 & u0 & epochs & Hfirst' & Hcalls & _ & Hall);
    [by rewrite Hin1, Hex1|rewrite Hin1; cbn; lia|].
  rewrite Hfirst in Hfirst'. injection Hfirst' as <- <-.
  assert (Hnone : concat epochs = []).
  { assert (Hz : ceil_div 0 (N.to_nat (batch_size (this w1))) = 0)
      by (unfold ceil_div; apply Nat.div_small; lia).
    clear -Hall Hin1 Hz. induction Hall as [|p ps [Hp _] _ IH]; [done|].
    rewrite Hin1 in Hp. cbn [length] in Hp. rewrite Hz in Hp.
    apply length_zero_iff_nil in Hp. by subst. }
  rewrite Hnone, app_nil_r in Hcalls.
  assert (Hinu : ranges u input = []).
  { apply length_zero_iff_nil. by rewrite (epoch_length _ _ _ _ Hf), Hin1. }
  assert (Hexu : ranges u expected = []).
  { apply length_zero_iff_nil. by rewrite (epoch_length _ _ _ _ Hf), Hex1. }
  destruct (train_epoch_spec fuel input expected (max_epochs - 1)%N t u)
    as (u1 & _ & Hre & Hspec);
    [by rewrite (epoch_batch_size _ _ _ _ Hf)|by rewrite Hinu, Hexu
    |rewrite Hinu; cbn; lia|].
  rewrite Hlast in Hspec.
  assert (Hin2 : ranges u1 input = []).
  { apply length_zero_iff_nil. by rewrite (reordered_length _ _ _ _ Hre), Hinu. }
  rewrite Hin2, batches_of_nil in Hspec. cbn [run_batches fold_left fst snd] in Hspec.
  pose proof (train_epoch_last_error _ _ _ _ _ _ _ _ _ Hlast) as Hle.
  assert (Hnan : reconstruction_error
                   (finalize_epoch L B (max_epochs - 1) new_context (init_epoch u1)).1 = nan)
    by reflexivity.
  pose proof (finalize_epoch_calls (max_epochs - 1)%N new_context (init_epoch u1)) as Hfc.
  destruct (finalize_epoch L B (max_epochs - 1) new_context (init_epoch u1)) as [cf wf].
  cbn [fst snd] in *. injection Hspec as <- <- <-.
  destruct (finalize_training_spec u') as (He0 & _ & _ & _ & _ & Hc).
  exists (finalize_training B u').2.
  split.
  - rewrite Hrun. f_equal.
    rewrite (surjective_pairing (finalize_training B _)) at 1. f_equal.
    by rewrite He0, Hle, Hnan.
  - rewrite Hc, Hfc. cbn.
    by rewrite (reordered_calls _ _ _ _ Hre), Hcalls, (prepared_calls _ _ _ _ _ _ _ Hp).
Qed.

(** ** The batches of [train_denoising_auto] *)

Lemma train_epoch_denoising_auto_calls fuel noise epoch trainer w :
  batch_size (this w) ≠ 0%N →
  length (ranges w input_copy) = length (ranges w input_clean) →
  length (ranges w input_clean) ≤ fuel →
  ∃ trainer' context' w' passed,
    train_epoch_denoising_auto rand_next uniform_real L B fuel noise epoch trainer w =
      Done (trainer', context', w') ∧
    run_frame w w' ∧
    trainer_calls w' = trainer_calls w ++ passed ∧
    length passed =
      ceil_div (length (ranges w input_clean)) (N.to_nat (batch_size (this w))) ∧
    concat passed.*2 ≡ₚ ranges w input_clean ∧
    length <$> concat passed.*1 = length <$> concat passed.*2 ∧
    ranges w' input_clean ≡ₚ ranges w input_clean.
Proof.
  intros Hbs Hlen Hfuel.
  destruct (train_epoch_denoising_auto_summary fuel noise epoch trainer w Hbs Hlen Hfuel)
    as (t' & c' & w' & Hrun & Hf & _).
  pose proof (train_epoch_denoising_auto_spec fuel noise epoch trainer w Hbs Hlen Hfuel)
    as Hspec. cbn zeta in Hspec.
  pose proof (shuffle_direct_reordered input_clean w) as Hre.
  pose proof (shuffle_direct_Permutation input_clean w) as Hperm.
  set (w1 := shuffle_direct rand_next B input_clean w) in *.
  set (clean := ranges w1 input_clean) in *.
  destruct (corrupt_spec noise clean (rand_engine w1)) as (Hshape & _ & _).
  pose proof (length_corrupt noise clean (rand_engine w1)) as Hlc.
  set (corrupted := (corrupt uniform_real noise clean (rand_engine w1)).1) in *.
  set (w2 := write _ input_copy corrupted) in Hspec.
  set (l := batches_of _ _ _) in *.
  pose proof (run_batches_same l (trainer, new_context, init_epoch w2)) as Hsame.
  pose proof (run_batches_calls l (trainer, new_context, init_epoch w2)) as Hcalls.
  destruct (run_batches L B l _) as [[t c] w3]. cbn [fst snd] in *.
  pose proof (finalize_epoch_calls epoch c w3) as Hfc.
  destruct (finalize_epoch_data epoch c w3) as [Hfr _].
  destruct (finalize_epoch L B epoch c w3) as [cf wf]. cbn [fst snd] in *.
  rewrite Hrun in Hspec. injection Hspec as -> -> ->.
  assert (Hn : 0 < N.to_nat (batch_size (this w))) by lia.
  assert (Hcl : length clean = length (ranges w input_clean))
    by apply (reordered_length _ _ _ _ Hre).
  exists t, cf, wf, l.
  split; [done|]. split; [done|].
  split. { rewrite Hfc, Hcalls. cbn. by rewrite (reordered_calls _ _ _ _ Hre). }
  split. { unfold l. rewrite length_batches_of by (done || lia). by rewrite Hlc, Hcl. }
  assert (H1 : concat l.*1 = corrupted).
  { unfold l. rewrite batches_of_fst by (done || lia). by apply concat_chunks. }
  assert (H2 : concat l.*2 = clean).
  { unfold l. rewrite batches_of_snd by (done || lia).
    rewrite concat_chunks by done. apply take_ge. lia. }
  rewrite H1, H2. split; [done|]. split; [done|].
  rewrite Hfr, (same_ranges _ _ Hsame). cbn. by rewrite !decide_False.
Qed.

Lemma train_epochs_denoising_auto_calls fuel n noise epoch trainer w :
  batch_size (this w) ≠ 0%N →
  length (ranges w input_copy) = length (ranges w input_clean) →
  length (ranges w input_clean) ≤ fuel →
  ∃ trainer' w' epochs,
    train_epochs_denoising_auto rand_next uniform_real L B fuel n noise epoch trainer w =
      Done (trainer', w') ∧
    run_frame w w' ∧
    trainer_calls w' = trainer_calls w ++ concat epochs ∧
    length epochs = n ∧
    Forall (λ passed,
      length passed =
        ceil_div (length (ranges w input_clean)) (N.to_nat (batch_size (this w))) ∧
      concat passed.*2 ≡ₚ ranges w input_clean ∧
      length <$> concat passed.*1 = length <$> concat passed.*2) epochs.
Proof.
  revert epoch trainer w.
  induction n as [|n IH]; intros epoch trainer w Hbs Hlen Hfuel.
  { exists trainer, w, []. cbn. by rewrite app_nil_r. }
  destruct (train_epoch_denoising_auto_calls fuel noise epoch trainer w Hbs Hlen Hfuel)
    as (t1 & c1 & w1 & passed & Hstep & Hf & Hc1 & Hn1 & Hp1 & Hs1 & Hperm).
  destruct (IH (epoch + 1)%N t1 w1) as (t2 & w2 & epochs & Hrun & Hf2 & Hc2 & Hn2 & Hall).
  { by rewrite (run_batch_size _ _ Hf). }
  { by rewrite !(run_length _ _ Hf). }
  { by rewrite (run_length _ _ Hf). }
  exists t2, w2, (passed :: epochs).
  split. { cbn [train_epochs_denoising_auto]. rewrite Hstep.
           cbn [mbind outcome_bind]. exact Hrun. }
  split; [by etrans|].
  split. { by rewrite Hc2, Hc1, <- app_assoc. }
  split; [cbn; by rewrite Hn2|].
  constructor; [done|].
  eapply Forall_impl; [exact Hall|]. intros p (Hlp & Hpp & Hsp). cbn beta in *.
  rewrite (run_length _ _ Hf), (run_batch_size _ _ Hf) in Hlp.
  split; [done|]. split; [by rewrite Hpp|done].
Qed.

(** X11. [train_denoising_auto] works on two vectors of its own. In every
    epoch the expected batches it hands the trainer hold, together, the
    samples of the caller, each once, in some order, and the input batches
    hold samples of the same sizes: the corrupted ones. The range of the
    caller is left as it was, also for a layer that shuffles. *)
Theorem denoising_auto_expects_the_clean_samples fuel max_epochs noise w :
  Denoising B = false →
  layer_batch_size (rbm w) ≠ 0%N →
  length (ranges w caller_input) ≤ fuel →
  ∃ e w' epochs,
    train_denoising_auto rand_next uniform_real L B fuel max_epochs noise w =
      Done (e, w') ∧
    trainer_calls w' = trainer_calls w ++ concat epochs ∧
    length epochs = N.to_nat max_epochs ∧
    Forall (λ passed,
      length passed =
        ceil_div (length (ranges w caller_input))
          (N.to_nat (layer_batch_size (rbm w))) ∧
      concat passed.*2 ≡ₚ ranges w caller_input ∧
      length <$> concat passed.*1 = length <$> concat passed.*2) epochs ∧
    (∀ r, is_caller r → ranges w' r = ranges w r).
Proof.
  intros Hd Hbs Hfuel. unfold train_denoising_auto. rewrite Hd.
  set (n := length (ranges w caller_input)).
  set (w0 := write (write (write w input_clean (replicate n [])) input_copy _) _ _).
  assert (Hclean : ranges w0 input_clean = ranges w caller_input).
  { cbn. repeat case_decide; try done.
    rewrite drop_ge by (by rewrite length_replicate).
    by rewrite app_nil_r. }
  assert (Hcopy : ranges w0 input_copy = replicate n []).
  { cbn. by repeat case_decide. }
  assert (Hcaller : ∀ r, is_caller r → ranges w0 r = ranges w r).
  { intros r [-> | ->]; cbn; by repeat case_decide. }
  destruct (init_training_spec true input_clean w0)
    as (w1 & -> & Hranges1 & _ & Hcalls1 & Hrbm1 & Hbs1 & _ & _); [done|].
  cbn [mbind outcome_bind].
  set (w2 := init_weights L B input_clean w1).
  assert (H2 : ranges w2 = ranges w1 ∧ this w2 = this w1 ∧
               trainer_calls w2 = trainer_calls w1).
  { unfold w2, init_weights. by destruct (has_init_weights (traits B)). }
  destruct H2 as (Hranges2 & Hthis2 & Hcalls2).
  destruct (train_epochs_denoising_auto_calls fuel (N.to_nat max_epochs) noise 0%N
              (get_trainer L w2) w2) as (t3 & w3 & epochs & -> & Hf & Hc & Hn & Hall).
  { by rewrite Hthis2, Hbs1. }
  { rewrite Hranges2, Hranges1, Hclean, Hcopy. by rewrite length_replicate. }
  { by rewrite Hranges2, Hranges1, Hclean. }
  cbn [mbind outcome_bind].
  destruct (finalize_training_spec w3) as (_ & _ & Hrg & _ & _ & Hfc).
  destruct (finalize_training B w3) as [e w4]. cbn [fst snd] in *.
  exists e, w4, epochs. split; [done|].
  split. { by rewrite Hfc, Hc, Hcalls2, Hcalls1. }
  split; [done|]. split.
  - rewrite Hranges2, Hranges1, Hclean, Hthis2, Hbs1 in Hall. exact Hall.
  - intros r Hr'. rewrite Hrg, (run_caller _ _ Hf) by done.
    rewrite Hranges2, Hranges1. by apply Hcaller.
Qed.

(** ** Layers without momentum *)

(** X12. For a layer that does not declare momentum support, a run of any of
    the three entry points sets the momentum to [initial_momentum] and
    leaves it there, whatever the number of epochs and
    [final_momentum_epoch]. *)
Theorem momentum_stays_initial_without_support w :
  has_momentum (traits B) = false →
  layer_batch_size (rbm w) ≠ 0%N →
  (∀ fuel caller_category ifirst efirst max_epochs,
     is_caller ifirst → is_caller efirst →
     length (ranges w ifirst) = length (ranges w efirst) →
     length (ranges w ifirst) ≤ fuel →
     ∃ e w',
       train_ranges rand_next L B fuel caller_category ifirst efirst max_epochs w =
         Done (e, w') ∧
       momentum (rbm w') = initial_momentum (rbm w)) ∧
  (∀ fuel valid generator max_epochs,
     ending_generator L G fuel valid → valid generator →
     ∃ e generator' w',
       train_generator L G B fuel generator max_epochs w = Done (e, generator', w') ∧
       momentum (rbm w') = initial_momentum (rbm w)) ∧
  (∀ fuel max_epochs noise,
     Denoising B = false →
     length (ranges w caller_input) ≤ fuel →
     ∃ e w',
       train_denoising_auto rand_next uniform_real L B fuel max_epochs noise w =
         Done (e, w') ∧
       momentum (rbm w') = initial_momentum (rbm w)).
Proof.
  intros Hm Hbs. split; [|split].
  - intros fuel caller_category ifirst efirst max_epochs Hi He Hlen Hfuel.
    destruct (train_ranges_summary fuel caller_category ifirst efirst max_epochs w
                Hi He Hbs Hlen Hfuel)
      as (input & expected & w1 & t' & w2 & _ & _ & Hrun & _ & Hmom & _).
    destruct (finalize_training_spec w2) as (_ & Hr & _).
    exists (finalize_training B w2).1, (finalize_training B w2).2.
    split. { rewrite Hrun. by destruct (finalize_training B w2). }
    by rewrite Hr, Hmom, Hm.
  - intros fuel valid generator max_epochs Hg Hv.
    destruct (train_generator_summary fuel valid generator max_epochs w Hg Hv Hbs)
      as (e & g' & w' & Hrun & _ & Hmom).
    exists e, g', w'. split; [done|]. by rewrite Hmom, Hm.
  - intros fuel max_epochs noise Hd Hfuel.
    destruct (train_denoising_auto_summary fuel max_epochs noise w Hd Hbs Hfuel)
      as (e & w' & Hrun & _ & Hmom & _).
    exists e, w'. split; [done|]. by rewrite Hmom, Hm.
Qed.

Lemma finalize_epoch_counters epoch context w :
  batches (this (finalize_epoch L B epoch context w).2) = batches (this w).
Proof.
  unfold finalize_epoch.
  by destruct (has_momentum (traits B) && (epoch =? final_momentum_epoch (rbm w))%N),
    (EnableWatcher B).
Qed.

(** ** The batches of a generator *)

Lemma train_sub_generator_calls fuel generator trainer context w :
  exhausted_within G fuel generator = true →
  ∃ generator' trainer' context' w',
    train_sub_generator L G B fuel generator trainer context w =
      Done (generator', trainer', context', w') ∧
    has_next_batch G generator' = false ∧
    trainer_calls w' = trainer_calls w ++ yielded G fuel generator ∧
    batches (this w') =
      Nat.iter (length (yielded G fuel generator)) size_succ (batches (this w)).
Proof.
  revert generator trainer context w.
  induction fuel as [|fuel IH]; intros generator trainer context w Hex;
    cbn [train_sub_generator exhausted_within yielded] in *;
    destruct (has_next_batch G generator) eqn:Hnext; try done;
    try (eexists _, _, _, _; split; [reflexivity|]; by rewrite app_nil_r).
  pose proof (train_batch_calls (data_batch G generator) (label_batch G generator)
                trainer context w) as Hc.
  pose proof (train_batch_counters (data_batch G generator) (label_batch G generator)
                trainer context w) as [Hb _].
  destruct (train_batch _ _ _ _ _ _ _) as [[t1 c1] w1]. cbn [snd] in *.
  destruct (IH (next_batch G generator) t1 c1 w1 Hex)
    as (g' & t' & c' & w' & -> & Hend & Hc' & Hb').
  exists g', t', c', w'. split; [done|]. split; [done|].
  split. { by rewrite Hc', Hc, <- app_assoc. }
  rewrite Hb', Hb. cbn [length]. by rewrite Nat.iter_succ_r.
Qed.

(** X13. An epoch of a run over a generator whose passes end resets the
    generator (shuffling it if the layer shuffles), sets it in training
    mode, and calls the trainer on the batches it then yields, in order,
    until it has no next batch; [batches] counts them. *)
Theorem generator_epoch_trains_on_yielded fuel valid epoch generator trainer w :
  ending_generator L G fuel valid → valid generator →
  let ready :=
    set_train G (if has_shuffle (traits B)
                 then (reset_shuffle G generator (rand_engine w)).1
                 else reset G generator) in
  ∃ generator' trainer' context' w',
    train_epoch_generator L G B fuel epoch generator trainer w =
      Done (generator', trainer', context', w') ∧
    has_next_batch G generator' = false ∧
    trainer_calls w' = trainer_calls w ++ yielded G fuel ready ∧
    batches (this w') = Nat.iter (length (yielded G fuel ready)) size_succ 0%N.
Proof.
  intros Hg Hv ready.
  assert (Hvr : valid ready).
  { unfold ready. apply (valid_set_train _ _ _ _ Hg).
    destruct (has_shuffle (traits B));
      [by apply (valid_reset_shuffle _ _ _ _ Hg)|by apply (valid_reset _ _ _ _ Hg)]. }
  pose proof (valid_exhausted _ _ _ _ Hg _ Hvr) as Hex.
  unfold train_epoch_generator.
  set (w0 := if has_shuffle (traits B)
             then with_rand_engine w (reset_shuffle G generator (rand_engine w)).2
             else w).
  assert (Hc0 : trainer_calls w0 = trainer_calls w)
    by (unfold w0; by destruct (has_shuffle (traits B))).
  replace (if has_shuffle (traits B)
           then let '(generator', g) := reset_shuffle G generator (rand_engine w) in
                (generator', with_rand_engine w g)
           else (reset G generator, w))
    with ((if has_shuffle (traits B)
           then (reset_shuffle G generator (rand_engine w)).1
           else reset G generator), w0)
    by (unfold w0; destruct (has_shuffle (traits B)); [|done];
        by destruct (reset_shuffle G generator (rand_engine w))).
  fold ready.
  destruct (train_sub_generator_calls fuel ready trainer new_context (init_epoch w0) Hex)
    as (g' & t' & c' & w' & -> & Hend & Hc & Hb).
  cbn [mbind outcome_bind].
  pose proof (finalize_epoch_calls epoch c' w') as Hfc.
  pose proof (finalize_epoch_counters epoch c' w') as Hfb.
  destruct (finalize_epoch L B epoch c' w') as [cf wf]. cbn [fst snd] in *.
  exists g', t', cf, wf. split; [done|]. split; [done|].
  split. { rewrite Hfc, Hc. change (trainer_calls (init_epoch w0)) with (trainer_calls w0).
           by rewrite Hc0. }
  by rewrite Hfb, Hb.
Qed.

(** ** An expected range shorter than the input range *)



(** ** The momentum schedule *)

Section Schedule.

Variable seen : trainer_t → list float.
Hypothesis Hlog : logs_momentum L seen.

Lemma train_batch_seen i e trainer context w :
  seen (train_batch L B i e trainer context w).1.1 = seen trainer ++ [momentum (rbm w)].
Proof.
  unfold train_batch.
  pose proof (Hlog trainer (rbm (set_batches w (size_succ (batches (this w))))) i e context)
    as H.
  destruct (trainer_train_batch _ _ _ _ _ _) as [[t p] c]. cbn [fst snd] in H.
  by destruct (EnableWatcher B && has_free_energy (traits B)),
    (EnableWatcher B && is_verbose (traits B)).
Qed.

(** The momentum does not change during the batches of an epoch: every
    call of the trainer of a pass sees the one the pass started with. *)
Lemma run_batches_seen l s :
  seen (run_batches L B l s).1.1 =
  seen s.1.1 ++ replicate (length l) (momentum (rbm s.2)).
Proof.
  revert s. induction l as [|b l IH]; intros s; [by rewrite app_nil_r|].
  change (run_batches L B (b :: l) s) with (run_batches L B l (batch_step L B s b)).
  rewrite IH, (same_momentum _ _ (batch_step_same s b)).
  destruct s as [[t c] w]. unfold batch_step. cbn [fst snd].
  rewrite train_batch_seen, (same_momentum _ _ (bump_samples_same _ _)).
  by rewrite <- app_assoc.
Qed.

Lemma train_epoch_seen fuel input expected epoch trainer w :
  batch_size (this w) ≠ 0%N →
  length (ranges w input) = length (ranges w expected) →
  length (ranges w input) ≤ fuel →
  ∃ trainer' context' w',
    train_epoch rand_next L B fuel input expected epoch trainer w =
      Done (trainer', context', w') ∧
    seen trainer' =
      seen trainer ++
        replicate (ceil_div (length (ranges w input)) (N.to_nat (batch_size (this w))))
          (momentum (rbm w)) ∧
    momentum (rbm w') =
      (if has_momentum (traits B) && (epoch =? final_momentum_epoch (rbm w))%N
       then final_momentum (rbm w) else momentum (rbm w)).
Proof.
  intros Hbs Hlen Hfuel.
  destruct (train_epoch_summary fuel input expected epoch trainer w Hbs Hlen Hfuel)
    as (t' & c' & w' & Hrun & _ & Hm & _).
  destruct (train_epoch_spec fuel input expected epoch trainer w Hbs Hlen Hfuel)
    as (w1 & _ & Hre & Hspec).
  exists t', c', w'. split; [done|]. split; [|done].
  rewrite Hrun in Hspec.
  pose proof (reordered_length _ _ _ _ Hre) as Hl.
  pose proof (length_batches_of (N.to_nat (batch_size (this w)))
                (ranges w1 input) (ranges w1 expected)) as Hnb.
  set (l := batches_of _ _ _) in *.
  pose proof (run_batches_seen l (trainer, new_context, init_epoch w1)) as Hseen.
  destruct (run_batches L B l _) as [[t c] w2]. cbn [fst snd] in *.
  destruct (finalize_epoch L B epoch c w2) as [cf wf].
  injection Hspec as -> _ _.
  rewrite Hseen, Hnb, Hl by (lia || by rewrite !Hl, Hlen).
  change (rbm (init_epoch w1)) with (rbm w1).
  by rewrite (reordered_rbm _ _ _ _ Hre).
Qed.

Lemma train_sub_generator_seen fuel generator trainer context w :
  exhausted_within G fuel generator = true →
  ∃ generator' trainer' context' w',
    train_sub_generator L G B fuel generator trainer context w =
      Done (generator', trainer', context', w') ∧
    seen trainer' =
      seen trainer ++ replicate (length (yielded G fuel generator)) (momentum (rbm w)).
Proof.
  revert generator trainer context w.
  induction fuel as [|fuel IH]; intros generator trainer context w Hex;
    cbn [train_sub_generator exhausted_within yielded] in *;
    destruct (has_next_batch G generator) eqn:Hnext; try done;
    try (eexists _, _, _, _; split; [reflexivity|]; by rewrite app_nil_r).
  pose proof (train_batch_seen (data_batch G generator) (label_batch G generator)
                trainer context w) as Hs.
  pose proof (train_batch_same (data_batch G generator) (label_batch G generator)
                trainer context w) as Hsame.
  destruct (train_batch _ _ _ _ _ _ _) as [[t1 c1] w1]. cbn [fst snd] in *.
  destruct (IH (next_batch G generator) t1 c1 w1 Hex) as (g' & t' & c' & w' & -> & Hs').
  exists g', t', c', w'. split; [done|].
  rewrite Hs', Hs, (same_momentum _ _ Hsame). cbn [length replicate].
  by rewrite <- app_assoc.
Qed.

Lemma train_epoch_generator_seen fuel valid epoch generator trainer w :
  ending_generator L G fuel valid → valid generator →
  ∃ generator' trainer' context' w',
    train_epoch_generator L G B fuel epoch generator trainer w =
      Done (generator', trainer', context', w') ∧
    valid generator' ∧
    run_frame w w' ∧
    seen trainer' =
      seen trainer ++
        replicate
          (length (yielded G fuel
                     (set_train G (if has_shuffle (traits B)
                                   then (reset_shuffle G generator (rand_engine w)).1
                                   else reset G generator))))
          (momentum (rbm w)) ∧
    momentum (rbm w') =
      (if has_momentum (traits B) && (epoch =? final_momentum_epoch (rbm w))%N
       then final_momentum (rbm w) else momentum (rbm w)).
Proof.
  intros Hg Hv.
  destruct (train_epoch_generator_summary fuel valid epoch generator trainer w Hg Hv)
    as (g' & t' & c' & w' & Hrun & Hv' & Hf & Hm).
  destruct (train_epoch_generator_spec fuel valid epoch generator trainer w Hg Hv)
    as (g1 & t1 & c1 & w1 & Hpass & _ & _ & _ & Hrun1).
  exists g', t', c', w'. split; [done|]. split; [done|]. split; [done|].
  split; [|done].
  rewrite Hrun in Hrun1. injection Hrun1 as _ -> _ _.
  set (ready := set_train G _) in *.
  set (w0 := if has_shuffle (traits B) then _ else w) in *.
  assert (Hready : valid ready).
  { unfold ready. apply (valid_set_train _ _ _ _ Hg).
    destruct (has_shuffle (traits B));
      [by apply (valid_reset_shuffle _ _ _ _ Hg)|by apply (valid_reset _ _ _ _ Hg)]. }
  destruct (train_sub_generator_seen fuel ready trainer new_context (init_epoch w0)
              (valid_exhausted _ _ _ _ Hg _ Hready))
    as (g2 & t2 & c2 & w2 & Hpass2 & Hseen).
  rewrite Hpass in Hpass2. injection Hpass2 as _ <- _ _.
  rewrite Hseen. do 2 f_equal. unfold w0. by destruct (has_shuffle (traits B)).
Qed.

Lemma train_epoch_denoising_auto_seen fuel noise epoch trainer w :
  batch_size (this w) ≠ 0%N →
  length (ranges w input_copy) = length (ranges w input_clean) →
  length (ranges w input_clean) ≤ fuel →
  ∃ trainer' context' w',
    train_epoch_denoising_auto rand_next uniform_real L B fuel noise epoch trainer w =
      Done (trainer', context', w') ∧
    run_frame w w' ∧
    seen trainer' =
      seen trainer ++
        replicate
          (ceil_div (length (ranges w input_clean)) (N.to_nat (batch_size (this w))))
          (momentum (rbm w)) ∧
    momentum (rbm w') =
      (if has_momentum (traits B) && (epoch =? final_momentum_epoch (rbm w))%N
       then final_momentum (rbm w) else momentum (rbm w)).
Proof.
  intros Hbs Hlen Hfuel.
  destruct (train_epoch_denoising_auto_summary fuel noise epoch trainer w Hbs Hlen Hfuel)
    as (t' & c' & w' & Hrun & Hf & Hm).
  pose proof (train_epoch_denoising_auto_spec fuel noise epoch trainer w Hbs Hlen Hfuel)
    as Hspec. cbn zeta in Hspec.
  exists t', c', w'. split; [done|]. split; [done|]. split; [|done].
  rewrite Hrun in Hspec.
  pose proof (shuffle_direct_reordered input_clean w) as Hre.
  set (w1 := shuffle_direct rand_next B input_clean w) in *.
  set (clean := ranges w1 input_clean) in *.
  pose proof (length_corrupt noise clean (rand_engine w1)) as Hlc.
  set (corrupted := (corrupt uniform_real noise clean (rand_engine w1)).1) in *.
  set (w2 := write _ input_copy corrupted) in Hspec.
  pose proof (length_batches_of (N.to_nat (batch_size (this w))) corrupted clean) as Hnb.
  set (l := batches_of _ _ _) in *.
  pose proof (run_batches_seen l (trainer, new_context, init_epoch w2)) as Hseen.
  destruct (run_batches L B l _) as [[t c] w3]. cbn [fst snd] in *.
  destruct (finalize_epoch L B epoch c w3) as [cf wf].
  injection Hspec as -> _ _.
  assert (Hcl : length clean = length (ranges w input_clean))
    by apply (reordered_length _ _ _ _ Hre).
  rewrite Hseen, Hnb, Hlc, Hcl by lia.
  change (rbm (init_epoch w2)) with (rbm w1).
  by rewrite (reordered_rbm _ _ _ _ Hre).
Qed.

End Schedule.

Lemma train_epochs_generator_prefix fuel k n epoch generator trainer w :
  train_epochs_generator L G B fuel (k + n) epoch generator trainer w =
  '(generator', trainer', w') ←
    train_epochs_generator L G B fuel k epoch generator trainer w;
  train_epochs_generator L G B fuel n (epoch + N.of_nat k)%N generator' trainer' w'.
Proof.
  revert epoch generator trainer w. induction k as [|k IH]; intros epoch generator trainer w.
  - cbn. by rewrite N.add_0_r.
  - cbn [train_epochs_generator Nat.add].
    destruct (train_epoch_generator _ _ _ _ _ _ _ _) as [[[[g1 t1] c1] w1]| |]; cbn;
      [|done..].
    rewrite IH.
    by replace (epoch + 1 + N.of_nat k)%N with (epoch + N.pos (Pos.of_succ_nat k))%N
      by lia.
Qed.

Lemma train_epochs_denoising_auto_prefix fuel k n noise epoch trainer w :
  train_epochs_denoising_auto rand_next uniform_real L B fuel (k + n) noise epoch trainer w =
  '(trainer', w') ←
    train_epochs_denoising_auto rand_next uniform_real L B fuel k noise epoch trainer w;
  train_epochs_denoising_auto rand_next uniform_real L B fuel n noise
    (epoch + N.of_nat k)%N trainer' w'.
Proof.
  revert epoch trainer w. induction k as [|k IH]; intros epoch trainer w.
  - cbn. by rewrite N.add_0_r.
  - cbn [train_epochs_denoising_auto Nat.add].
    destruct (train_epoch_denoising_auto _ _ _ _ _ _ _ _ _) as [[[t1 c1] w1]| |]; cbn;
      [|done..].
    rewrite IH.
    by replace (epoch + 1 + N.of_nat k)%N with (epoch + N.pos (Pos.of_succ_nat k))%N
      by lia.
Qed.

(** The state of a run over a generator after [n] epochs. *)
Lemma train_epochs_generator_state fuel valid n generator trainer w :
  ending_generator L G fuel valid → valid generator →
  ∃ generator' trainer' w',
    train_epochs_generator L G B fuel n 0%N generator trainer w =
      Done (generator', trainer', w') ∧
    valid generator' ∧
    run_frame w w' ∧
    momentum (rbm w') =
      (if has_momentum (traits B) && (final_momentum_epoch (rbm w) <? N.of_nat n)%N
       then final_momentum (rbm w) else momentum (rbm w)).
Proof.
  intros Hg.
  enough (Hgen : ∀ n epoch generator trainer w0,
    valid generator →
    run_frame w w0 →
    momentum (rbm w0) =
      (if has_momentum (traits B) && (final_momentum_epoch (rbm w) <? epoch)%N
       then final_momentum (rbm w) else momentum (rbm w)) →
    ∃ generator' trainer' w',
      train_epochs_generator L G B fuel n epoch generator trainer w0 =
        Done (generator', trainer', w') ∧
      valid generator' ∧
      run_frame w w' ∧
      momentum (rbm w') =
        (if has_momentum (traits B)
            && (final_momentum_epoch (rbm w) <? epoch + N.of_nat n)%N
         then final_momentum (rbm w) else momentum (rbm w))).
  { intros Hv.
    destruct (Hgen n 0%N generator trainer w Hv) as (g' & t' & w' & ? & ? & ? & ?).
    - reflexivity.
    - by rewrite momentum_start.
    - exists g', t', w'. by rewrite N.add_0_l in *. }
  clear n generator trainer.
  induction n as [|n IH]; intros epoch generator trainer w0 Hv Hf Hm.
  - exists generator, trainer, w0. by rewrite N.add_0_r.
  - destruct (train_epoch_generator_summary fuel valid epoch generator trainer w0 Hg Hv)
      as (g1 & t1 & c1 & w1 & Hrun & Hv1 & Hf1 & Hm1).
    destruct (IH (epoch + 1)%N g1 t1 w1 Hv1) as (g2 & t2 & w2 & Hrun2 & Hv2 & Hf2 & Hm2).
    { by etrans. }
    { rewrite Hm1, Hm, (run_final_momentum_epoch _ _ Hf), (run_final_momentum _ _ Hf).
      apply momentum_step. }
    exists g2, t2, w2. cbn [train_epochs_generator]. rewrite Hrun.
    cbn [mbind outcome_bind]. split; [done|]. split; [done|]. split; [done|].
    by replace (epoch + N.of_nat (S n))%N with (epoch + 1 + N.of_nat n)%N by lia.
Qed.

(** The world [train] starts its first epoch in, whatever the number of
    epochs and the fuel. *)
Lemma train_ranges_unfold caller_category ifirst efirst w :
  is_caller ifirst → is_caller efirst →
  layer_batch_size (rbm w) ≠ 0%N →
  ∃ input expected w',
    prepared L B caller_category ifirst efirst input expected w w' ∧
    ∀ fuel max_epochs,
      train_ranges rand_next L B fuel caller_category ifirst efirst max_epochs w =
      '(_, w'') ← train_epochs rand_next L B fuel (N.to_nat max_epochs) input expected 0%N
                   (get_trainer L w') w';
      mret (finalize_training B w'').
Proof.
  intros Hi He Hbs.
  destruct (prepare_it_spec ifirst efirst w Hi He)
    as (input & expected & w1 & Hprep & Hrbm & Hthis & Hrand & Hcout & Hcalls
        & Hin & Hex & Hcaller & Hcopies & Hdirect).
  assert (Hbs1 : layer_batch_size (rbm w1) ≠ 0%N) by by rewrite Hrbm.
  destruct (init_training_spec (random_access_iterator caller_category input) input w1 Hbs1)
    as (w2 & Hinit & Hranges2 & Hrand2 & Hcalls2 & Hrbm2 & Hbs2 & Herr2 & Hcout2).
  exists input, expected, (init_weights L B input w2).
  split.
  - rewrite Hrbm in Hrbm2, Hbs2, Hcout2. rewrite Hin, Hcout in Hcout2.
    unfold init_weights.
    destruct (has_init_weights (traits B)) eqn:Hiw; split; cbn;
      rewrite ?Hiw, ?Hranges2, ?Hrbm2, ?Hbs2, ?Herr2, ?Hcout2, ?Hcalls2, ?Hrand2;
      try done.
    all: try (intros r Hr; by apply Hcaller).
    by rewrite Hin.
  - intros fuel max_epochs. unfold train_ranges. rewrite Hprep, Hinit. reflexivity.
Qed.

(** C5. For a layer that declares momentum support, the momentum is
    [initial_momentum] from the start of a run up to the end of the epoch
    whose index is [final_momentum_epoch], where [finalize_epoch] sets it
    to [final_momentum], and not before. For each of the three entry
    points: a run over [max_epochs] epochs ends with the momentum at
    [initial_momentum] when [max_epochs <= final_momentum_epoch] and at
    [final_momentum] otherwise. And, epoch by epoch, for a batch trainer
    that logs the momentum of the layer it is called on: the first [k]
    epochs of a run leave the momentum at the value scheduled for the epoch
    [k], every call of the trainer in the epoch [k] (their number is given)
    sees this value, also in the epoch [final_momentum_epoch] itself, and
    the epoch leaves the value scheduled for the epoch [k + 1]; the first
    [k + 1] epochs of a run are its first [k] epochs and this epoch. *)
Theorem momentum_switches_at_final_momentum_epoch w :
  has_momentum (traits B) = true →
  layer_batch_size (rbm w) ≠ 0%N →
  let scheduled (max_epochs : N) :=
    if (final_momentum_epoch (rbm w) <? max_epochs)%N
    then final_momentum (rbm w) else initial_momentum (rbm w) in
  (∀ fuel caller_category ifirst efirst max_epochs,
     is_caller ifirst → is_caller efirst →
     length (ranges w ifirst) = length (ranges w efirst) →
     length (ranges w ifirst) ≤ fuel →
     ∃ e w',
       train_ranges rand_next L B fuel caller_category ifirst efirst max_epochs w =
         Done (e, w') ∧
       momentum (rbm w') = scheduled max_epochs) ∧
  (∀ fuel valid generator max_epochs,
     ending_generator L G fuel valid → valid generator →
     ∃ e generator' w',
       train_generator L G B fuel generator max_epochs w = Done (e, generator', w') ∧
       momentum (rbm w') = scheduled max_epochs) ∧
  (∀ fuel max_epochs noise,
     Denoising B = false →
     length (ranges w caller_input) ≤ fuel →
     ∃ e w',
       train_denoising_auto rand_next uniform_real L B fuel max_epochs noise w =
         Done (e, w') ∧
       momentum (rbm w') = scheduled max_epochs) ∧
  ∀ seen : trainer_t → list float,
    logs_momentum L seen →
    (∀ fuel caller_category ifirst efirst,
       is_caller ifirst → is_caller efirst →
       length (ranges w ifirst) = length (ranges w efirst) →
       length (ranges w ifirst) ≤ fuel →
       ∃ input expected w1,
         prepared L B caller_category ifirst efirst input expected w w1 ∧
         (∀ max_epochs,
            train_ranges rand_next L B fuel caller_category ifirst efirst max_epochs w =
            '(_, w'') ← train_epochs rand_next L B fuel (N.to_nat max_epochs)
                         input expected 0%N (get_trainer L w1) w1;
            mret (finalize_training B w'')) ∧
         ∀ k : nat,
           ∃ trainer u trainer' context' u',
             train_epochs rand_next L B fuel k input expected 0%N (get_trainer L w1) w1 =
               Done (trainer, u) ∧
             momentum (rbm u) = scheduled (N.of_nat k) ∧
             train_epoch rand_next L B fuel input expected (N.of_nat k) trainer u =
               Done (trainer', context', u') ∧
             seen trainer' =
               seen trainer ++
                 replicate
                   (ceil_div (length (ranges w ifirst))
                      (N.to_nat (layer_batch_size (rbm w))))
                   (scheduled (N.of_nat k)) ∧
             momentum (rbm u') = scheduled (N.of_nat k + 1)%N ∧
             train_epochs rand_next L B fuel (S k) input expected 0%N
               (get_trainer L w1) w1 = Done (trainer', u')) ∧
    (∀ fuel valid generator,
       ending_generator L G fuel valid → valid generator →
       ∃ w1 generator1 w2,
         init_training_generator G B generator w = Done w1 ∧
         init_weights_generator L B generator w1 = (generator1, w2) ∧
         (∀ max_epochs,
            train_generator L G B fuel generator max_epochs w =
            '(generator', _, w'') ←
              train_epochs_generator L G B fuel (N.to_nat max_epochs) 0%N generator1
                (get_trainer L w2) w2;
            let '(e, w''') := finalize_training B w'' in
            mret (e, generator', w''')) ∧
         ∀ k : nat,
           ∃ g trainer u g' trainer' context' u',
             train_epochs_generator L G B fuel k 0%N generator1 (get_trainer L w2) w2 =
               Done (g, trainer, u) ∧
             momentum (rbm u) = scheduled (N.of_nat k) ∧
             train_epoch_generator L G B fuel (N.of_nat k) g trainer u =
               Done (g', trainer', context', u') ∧
             seen trainer' =
               seen trainer ++
                 replicate
                   (length (yielded G fuel
                              (set_train G
                                 (if has_shuffle (traits B)
                                  then (reset_shuffle G g (rand_engine u)).1
                                  else reset G g))))
                   (scheduled (N.of_nat k)) ∧
             momentum (rbm u') = scheduled (N.of_nat k + 1)%N ∧
             train_epochs_generator L G B fuel (S k) 0%N generator1 (get_trainer L w2) w2 =
               Done (g', trainer', u')) ∧
    (∀ fuel noise,
       Denoising B = false →
       length (ranges w caller_input) ≤ fuel →
       ∃ w2,
         (∀ max_epochs,
            train_denoising_auto rand_next uniform_real L B fuel max_epochs noise w =
            '(_, w'') ←
              train_epochs_denoising_auto rand_next uniform_real L B fuel
                (N.to_nat max_epochs) noise 0%N (get_trainer L w2) w2;
            mret (finalize_training B w'')) ∧
         ∀ k : nat,
           ∃ trainer u trainer' context' u',
             train_epochs_denoising_auto rand_next uniform_real L B fuel k noise 0%N
               (get_trainer L w2) w2 = Done (trainer, u) ∧
             momentum (rbm u) = scheduled (N.of_nat k) ∧
             train_epoch_denoising_auto rand_next uniform_real L B fuel noise (N.of_nat k)
               trainer u = Done (trainer', context', u') ∧
             seen trainer' =
               seen trainer ++
                 replicate
                   (ceil_div (length (ranges w caller_input))
                      (N.to_nat (layer_batch_size (rbm w))))
                   (scheduled (N.of_nat k)) ∧
             momentum (rbm u') = scheduled (N.of_nat k + 1)%N ∧
             train_epochs_denoising_auto rand_next uniform_real L B fuel (S k) noise 0%N
               (get_trainer L w2) w2 = Done (trainer', u')).
Proof.
  intros Hm Hbs scheduled. unfold scheduled.
  assert (Hnext : ∀ (target epoch : N) (final initial : float),
    (if has_momentum (traits B) && (epoch =? target)%N then final
     else if (target <? epoch)%N then final else initial) =
    (if (target <? epoch + 1)%N then final else initial)).
  { intros target epoch final initial.
    rewrite Hm. exact (momentum_step true target epoch final initial). }
  split; [|split; [|split]].
  - intros fuel caller_category ifirst efirst max_epochs Hi He Hlen Hfuel.
    destruct (train_ranges_summary fuel caller_category ifirst efirst max_epochs w
                Hi He Hbs Hlen Hfuel)
      as (input & expected & w1 & t' & w2 & _ & _ & Hrun & _ & Hmom & _).
    destruct (finalize_training_spec w2) as (_ & Hr & _).
    exists (finalize_training B w2).1, (finalize_training B w2).2.
    split. { rewrite Hrun. by destruct (finalize_training B w2). }
    by rewrite Hr, Hmom, Hm.
  - intros fuel valid generator max_epochs Hg Hv.
    destruct (train_generator_summary fuel valid generator max_epochs w Hg Hv Hbs)
      as (e & g' & w' & Hrun & _ & Hmom).
    exists e, g', w'. split; [done|]. by rewrite Hmom, Hm.
  - intros fuel max_epochs noise Hd Hfuel.
    destruct (train_denoising_auto_summary fuel max_epochs noise w Hd Hbs Hfuel)
      as (e & w' & Hrun & _ & Hmom & _).
    exists e, w'. split; [done|]. by rewrite Hmom, Hm.
  - intros seen Hlog. split; [|split].
    + intros fuel caller_category ifirst efirst Hi He Hlen Hfuel.
      destruct (train_ranges_unfold caller_category ifirst efirst w Hi He Hbs)
        as (input & expected & w1 & Hp & Hrun).
      exists input, expected, w1. split; [done|]. split; [intros n; apply Hrun|].
      intros k.
      assert (Hbs1 : batch_size (this w1) ≠ 0%N)
        by by rewrite (prepared_batch_size _ _ _ _ _ _ _ Hp).
      assert (Hlen1 : length (ranges w1 input) = length (ranges w1 expected)).
      { rewrite (prepared_input _ _ _ _ _ _ _ Hp), (prepared_expected _ _ _ _ _ _ _ Hp).
        by destruct (has_shuffle (traits B) && negb (Denoising B)). }
      assert (Hfuel1 : length (ranges w1 input) ≤ fuel)
        by by rewrite (prepared_input _ _ _ _ _ _ _ Hp).
      destruct (train_epochs_summary fuel k input expected (get_trainer L w1) w1
                  Hbs1 Hlen1 Hfuel1) as (t & u & Hfirst & Hf & Hmu & _).
      rewrite Hm, (prepared_final_momentum_epoch _ _ _ _ _ _ _ Hp),
        (prepared_final_momentum _ _ _ _ _ _ _ Hp),
        (prepared_momentum _ _ _ _ _ _ _ Hp) in Hmu. cbn [andb] in Hmu.
      destruct (train_epoch_seen seen Hlog fuel input expected (N.of_nat k) t u)
        as (t' & c' & u' & Hstep & Hseen & Hmu').
      { by rewrite (epoch_batch_size _ _ _ _ Hf). }
      { by rewrite !(epoch_length _ _ _ _ Hf). }
      { by rewrite (epoch_length _ _ _ _ Hf). }
      exists t, u, t', c', u'. split; [done|]. split; [done|]. split; [done|].
      split.
      { rewrite Hseen, Hmu, (epoch_length _ _ _ _ Hf), (epoch_batch_size _ _ _ _ Hf).
        by rewrite (prepared_input _ _ _ _ _ _ _ Hp),
          (prepared_batch_size _ _ _ _ _ _ _ Hp). }
      split.
      { rewrite Hmu', Hmu, (epoch_final_momentum_epoch _ _ _ _ Hf),
          (epoch_final_momentum _ _ _ _ Hf),
          (prepared_final_momentum_epoch _ _ _ _ _ _ _ Hp),
          (prepared_final_momentum _ _ _ _ _ _ _ Hp).
        apply Hnext. }
      replace (S k) with (k + 1) by lia.
      rewrite train_epochs_prefix, Hfirst. cbn [mbind outcome_bind train_epochs].
      rewrite N.add_0_l, Hstep. reflexivity.
    + intros fuel valid generator Hg Hv.
      destruct (init_training_generator_spec generator w Hbs)
        as (w1 & Hinit & _ & _ & _ & Hrbm & _ & _ & _).
      destruct (init_weights_generator L B generator w1) as [g2 w2] eqn:Hiw.
      assert (Hw2 : valid g2 ∧ momentum (rbm w2) = initial_momentum (rbm w) ∧
                final_momentum (rbm w2) = final_momentum (rbm w) ∧
                final_momentum_epoch (rbm w2) = final_momentum_epoch (rbm w)).
      { unfold init_weights_generator in Hiw.
        destruct (has_init_weights (traits B)).
        - pose proof (valid_init_weights _ _ _ _ Hg (rbm w1) generator Hv) as Hv2.
          destruct (rbm_init_weights_generator L (rbm w1) generator) as [p g].
          injection Hiw as <- <-. cbn. by rewrite Hrbm.
        - injection Hiw as <- <-. by rewrite Hrbm. }
      destruct Hw2 as (Hv2 & Hm2 & Hfm2 & Hfme2).
      exists w1, g2, w2. split; [done|]. split; [done|].
      split.
      { intros n. unfold train_generator. rewrite Hinit. cbn [mbind outcome_bind].
        by rewrite Hiw. }
      intros k.
      destruct (train_epochs_generator_state fuel valid k g2 (get_trainer L w2) w2 Hg Hv2)
        as (g & t & u & Hfirst & Hvg & Hf & Hmu).
      rewrite Hm, Hfme2, Hfm2, Hm2 in Hmu. cbn [andb] in Hmu.
      destruct (train_epoch_generator_seen seen Hlog fuel valid (N.of_nat k) g t u Hg Hvg)
        as (g' & t' & c' & u' & Hstep & _ & _ & Hseen & Hmu').
      exists g, t, u, g', t', c', u'. split; [done|]. split; [done|]. split; [done|].
      split; [by rewrite Hseen, Hmu|].
      split.
      { rewrite Hmu', Hmu, (run_final_momentum_epoch _ _ Hf), (run_final_momentum _ _ Hf),
          Hfme2, Hfm2.
        apply Hnext. }
      replace (S k) with (k + 1) by lia.
      rewrite train_epochs_generator_prefix, Hfirst.
      cbn [mbind outcome_bind train_epochs_generator].
      rewrite N.add_0_l, Hstep. reflexivity.
    + intros fuel noise Hd Hfuel.
      set (n := length (ranges w caller_input)).
      assert (Hunfold : ∃ w0,
        ranges w0 input_clean = ranges w caller_input ∧
        ranges w0 input_copy = replicate n [] ∧
        rbm w0 = rbm w ∧
        ∀ max_epochs,
          train_denoising_auto rand_next uniform_real L B fuel max_epochs noise w =
          w1 ← init_training B true input_clean w0;
          '(_, w'') ←
            train_epochs_denoising_auto rand_next uniform_real L B fuel
              (N.to_nat max_epochs) noise 0%N
              (get_trainer L (init_weights L B input_clean w1))
              (init_weights L B input_clean w1);
          mret (finalize_training B w'')).
      { eexists. split; [|split; [|split]].
        4: { intros max_epochs. unfold train_denoising_auto. rewrite Hd. reflexivity. }
        - cbn. repeat case_decide; try done.
          rewrite drop_ge by (by rewrite length_replicate).
          by rewrite app_nil_r.
        - cbn. by repeat case_decide.
        - done. }
      destruct Hunfold as (w0 & Hclean & Hcopy & Hrbm0 & Hrun).
      destruct (init_training_spec true input_clean w0)
        as (w1 & Hinit & Hranges1 & _ & _ & Hrbm1 & Hbs1 & _ & _);
        [by rewrite Hrbm0|].
      rewrite Hrbm0 in Hrbm1, Hbs1.
      set (w2 := init_weights L B input_clean w1).
      assert (H2 : ranges w2 = ranges w1 ∧ this w2 = this w1 ∧
                   momentum (rbm w2) = momentum (rbm w1) ∧
                   final_momentum (rbm w2) = final_momentum (rbm w1) ∧
                   final_momentum_epoch (rbm w2) = final_momentum_epoch (rbm w1)).
      { unfold w2, init_weights. by destruct (has_init_weights (traits B)). }
      destruct H2 as (Hranges2 & Hthis2 & Hm2 & Hfm2 & Hfme2).
      rewrite Hrbm1 in Hm2, Hfm2, Hfme2. cbn in Hm2, Hfm2, Hfme2.
      exists w2. split.
      { intros max_epochs. rewrite Hrun, Hinit. reflexivity. }
      intros k.
      assert (Hb2 : batch_size (this w2) ≠ 0%N) by by rewrite Hthis2, Hbs1.
      assert (Hl2 : length (ranges w2 input_copy) = length (ranges w2 input_clean)).
      { rewrite Hranges2, Hranges1, Hclean, Hcopy. by rewrite length_replicate. }
      assert (Hf2 : length (ranges w2 input_clean) ≤ fuel)
        by by rewrite Hranges2, Hranges1, Hclean.
      destruct (train_epochs_denoising_auto_summary fuel k noise (get_trainer L w2) w2
                  Hb2 Hl2 Hf2) as (t & u & Hfirst & Hf & Hmu).
      rewrite Hm, Hfme2, Hfm2, Hm2 in Hmu. cbn [andb] in Hmu.
      destruct (train_epoch_denoising_auto_seen seen Hlog fuel noise (N.of_nat k) t u)
        as (t' & c' & u' & Hstep & _ & Hseen & Hmu').
      { by rewrite (run_batch_size _ _ Hf). }
      { by rewrite !(run_length _ _ Hf). }
      { by rewrite (run_length _ _ Hf). }
      exists t, u, t', c', u'. split; [done|]. split; [done|]. split; [done|].
      split.
      { rewrite Hseen, Hmu, (run_length _ _ Hf), (run_batch_size _ _ Hf).
        by rewrite Hranges2, Hranges1, Hclean, Hthis2, Hbs1. }
      split.
      { rewrite Hmu', Hmu, (run_final_momentum_epoch _ _ Hf), (run_final_momentum _ _ Hf),
          Hfme2, Hfm2.
        apply Hnext. }
      replace (S k) with (k + 1) by lia.
      rewrite train_epochs_denoising_auto_prefix, Hfirst.
      cbn [mbind outcome_bind train_epochs_denoising_auto].
      rewrite N.add_0_l, Hstep. reflexivity.
Qed.

End Facts.

(** * Properties of the SVM support *)

Section SvmFacts.

Context {layers_t model_t problem_t input_t label_t : Type}.
Context {svm_type_t kernel_type_t other_t grid_t : Type}.
Variable F : svm_ops layers_t model_t problem_t input_t label_t
               svm_type_t kernel_type_t other_t grid_t.

Abbreviation dbn_t := (dbn_t layers_t model_t problem_t).

(** A stream that is not good gives nothing. *)
Lemma copy_chunks_not_good fuel input out :
  good input = false → copy_chunks (S fuel) input out = Done (input, out).
Proof. intros Hg. cbn [copy_chunks]. unfold read. by rewrite Hg. Qed.

(** The loop copies all the characters left in a good stream, whatever
    their number, and leaves the stream empty and not good. *)
Lemma copy_chunks_good fuel bytes out :
  length bytes / 1024 + 2 ≤ fuel →
  copy_chunks fuel {| content := bytes; good := true |} out =
  Done ({| content := []; good := false |}, out ++ bytes).
Proof.
  revert bytes out. induction fuel as [|fuel IH]; intros bytes out Hfuel; [lia|].
  cbn [copy_chunks]. unfold read. cbn [good content].
  destruct (decide (1024 ≤ length bytes)) as [Hfull|Hshort].
  - assert (Hl : length (take 1024 bytes) = 1024) by (rewrite length_take; lia).
    rewrite Hl. change (1024 =? 0) with false. cbn iota.
    assert ((1024 <=? length bytes) = true) as -> by by apply Nat.leb_le.
    rewrite IH.
    + by rewrite <- app_assoc, take_drop.
    + rewrite length_drop.
      replace (length bytes) with ((length bytes - 1024) + 1 * 1024) in Hfuel by lia.
      rewrite Nat.div_add in Hfuel by lia. lia.
  - assert ((1024 <=? length bytes) = false) as -> by (apply Nat.leb_gt; lia).
    rewrite take_ge, drop_ge by lia.
    destruct bytes as [|b bytes].
    + cbn. by rewrite app_nil_r.
    + change (length (b :: bytes) =? 0) with false. cbn iota.
      destruct fuel as [|fuel]; [lia|].
      by rewrite copy_chunks_not_good.
Qed.

(** X14. [svm_store] writes the flag [svm_loaded] and, if it is set, all the
    characters [svm::save] wrote to [..tmp.svm], whatever their number: the
    copy by buffers of 1024 characters loses none and ends. Without a
    model it writes the flag alone and leaves the file alone. *)
Theorem svm_store_writes_flag_and_model fuel dbn os e :
  length (save F (svm_model dbn)) / 1024 + 2 ≤ fuel →
  svm_store F fuel dbn os e =
  Done (binary_write F os (svm_loaded dbn)
          ++ (if svm_loaded dbn then save F (svm_model dbn) else []),
        if svm_loaded dbn then with_tmp_svm e (save F (svm_model dbn)) else e).
Proof.
  intros Hfuel. unfold svm_store. destruct (svm_loaded dbn).
  - cbn [tmp_svm with_tmp_svm]. by rewrite copy_chunks_good.
  - by rewrite app_nil_r.
Qed.

(** [svm_load] on a stream that starts with what [svm_store] wrote. *)
Lemma svm_load_after_store fuel fuel' dbn dbn0 rest e0 :
  bool_round_trip F →
  length (save F (svm_model dbn)) / 1024 + 2 ≤ fuel →
  (length (save F (svm_model dbn)) + length rest) / 1024 + 2 ≤ fuel' →
  ∃ os e1,
    svm_store F fuel dbn [] e0 = Done (os, e1) ∧
    svm_load F fuel' dbn0 {| content := os ++ rest; good := true |} e1 =
    Done (if svm_loaded dbn
          then ({| layers := layers dbn0; svm_loaded := true;
                   svm_model := load F (save F (svm_model dbn) ++ rest);
                   problem := problem dbn0 |},
                {| content := []; good := false |},
                with_tmp_svm e1 (save F (svm_model dbn) ++ rest))
          else (set_svm_loaded dbn0 false, {| content := rest; good := true |}, e1)).
Proof.
  intros [Happ Hload] Hfuel Hfuel'. unfold svm_store, svm_load.
  destruct (svm_loaded dbn).
  - cbn [tmp_svm with_tmp_svm]. rewrite copy_chunks_good by done.
    eexists _, _. split; [reflexivity|]. cbn [good].
    rewrite (Happ [] true). cbn [app]. rewrite <- app_assoc, Hload.
    rewrite copy_chunks_good by (by rewrite length_app).
    reflexivity.
  - eexists _, _. split; [reflexivity|]. cbn [good].
    rewrite (Happ [] false). cbn [app]. by rewrite Hload.
Qed.

(** X15. What [svm_store] wrote, [svm_load] reads back: the network loaded has
    a model if and only if the one stored had one, and then its model is the
    one [svm::load] makes of the characters [svm::save] wrote, the stored
    model itself if [svm::load] inverts [svm::save]. The other members of
    the network loaded into are left as they were. *)
Theorem svm_load_restores_what_svm_store_wrote fuel dbn dbn0 e0 :
  bool_round_trip F →
  length (save F (svm_model dbn)) / 1024 + 2 ≤ fuel →
  ∃ os e1 dbn' ins' e2,
    svm_store F fuel dbn [] e0 = Done (os, e1) ∧
    svm_load F fuel dbn0 {| content := os; good := true |} e1 = Done (dbn', ins', e2) ∧
    svm_loaded dbn' = svm_loaded dbn ∧
    layers dbn' = layers dbn0 ∧ problem dbn' = problem dbn0 ∧
    (svm_loaded dbn = true →
     svm_model dbn' = load F (save F (svm_model dbn)) ∧
     (load F (save F (svm_model dbn)) = svm_model dbn → svm_model dbn' = svm_model dbn)) ∧
    (svm_loaded dbn = false → svm_model dbn' = svm_model dbn0).
Proof.
  intros Hio Hfuel.
  destruct (svm_load_after_store fuel fuel dbn dbn0 [] e0 Hio Hfuel)
    as (os & e1 & Hstore & Hread).
  { cbn [length]. by rewrite Nat.add_0_r. }
  rewrite !app_nil_r in Hread.
  exists os, e1. destruct (svm_loaded dbn); eexists _, _, _;
    (split; [exact Hstore|]); (split; [exact Hread|]); cbn;
    repeat split; done.
Qed.

(** X16. [svm_load] does not stop at the end of the model: once it has read
    a flag that is set, it copies all the characters left in the stream to
    [..tmp.svm], those that follow the model too, and leaves the stream
    exhausted and not good. The model is loaded from the model's characters
    followed by the rest. After a flag that is not set, the stream is left
    at the rest and stays good. *)
Theorem svm_load_takes_the_rest_of_the_stream fuel fuel' dbn dbn0 rest e0 :
  bool_round_trip F →
  length (save F (svm_model dbn)) / 1024 + 2 ≤ fuel →
  (length (save F (svm_model dbn)) + length rest) / 1024 + 2 ≤ fuel' →
  ∃ os e1 dbn' ins' e2,
    svm_store F fuel dbn [] e0 = Done (os, e1) ∧
    svm_load F fuel' dbn0 {| content := os ++ rest; good := true |} e1 =
      Done (dbn', ins', e2) ∧
    (svm_loaded dbn = true →
     svm_model dbn' = load F (save F (svm_model dbn) ++ rest) ∧
     tmp_svm e2 = save F (svm_model dbn) ++ rest ∧
     ins' = {| content := []; good := false |}) ∧
    (svm_loaded dbn = false →
     ins' = {| content := rest; good := true |} ∧ e2 = e1).
Proof.
  intros Hio Hfuel Hfuel'.
  destruct (svm_load_after_store fuel fuel' dbn dbn0 rest e0 Hio Hfuel Hfuel')
    as (os & e1 & Hstore & Hread).
  exists os, e1. destruct (svm_loaded dbn); eexists _, _, _;
    (split; [exact Hstore|]); (split; [exact Hread|]); by cbn.
Qed.

(** The loop of [make_problem] gives one vector per sample, in order:
    the activation probabilities the network computes for the sample in a
    new vector of [output_size] elements. It reads no index out of range. *)
Lemma make_samples_spec k i dbn (training_data : list input_t) svm_samples :
  length svm_samples = i → i + k = length training_data →
  make_samples F k i dbn training_data svm_samples =
  Done (svm_samples ++
        ((λ x, activation_probabilities F (layers dbn) x (new_vector F (output_size F)))
           <$> drop i training_data)).
Proof.
  revert i svm_samples.
  induction k as [|k IH]; intros i svm_samples Hi Hk; cbn [make_samples].
  - rewrite drop_ge by lia. by rewrite app_nil_r.
  - destruct (lookup_lt_is_Some_2 training_data i) as [x Hx]; [lia|].
    rewrite Hx.
    rewrite lookup_app_r by lia. rewrite Hi, Nat.sub_diag. cbn [lookup list_lookup].
    rewrite insert_app_r_alt by lia. rewrite Hi, Nat.sub_diag. cbn [insert list_insert].
    rewrite IH.
    + rewrite <- app_assoc. cbn [app].
      by rewrite (drop_S _ _ _ Hx).
    + rewrite length_app. cbn. lia.
    + lia.
Qed.

(** X17. [svm_train] always returns. It makes libsvm quiet and replaces the
    problem of the network by the one libsvm makes of the labels and of
    the activation probabilities of every sample, one vector per sample, in
    order. It returns what [svm::check] says of this problem and the
    parameters; only if this is [true] does the network get a new model,
    the trained one, and the flag [svm_loaded]. *)
Theorem svm_train_builds_the_problem_of_all_samples dbn (training_data : list input_t)
    (labels : list label_t) parameters e :
  let samples :=
    (λ x, activation_probabilities F (layers dbn) x (new_vector F (output_size F)))
      <$> training_data in
  let p := svm_make_problem F labels samples in
  length samples = length training_data ∧
  svm_train F dbn training_data labels parameters e =
  Done (check F p parameters,
        {| layers := layers dbn;
           svm_loaded := check F p parameters || svm_loaded dbn;
           svm_model :=
             if check F p parameters then svm_train_model F p parameters
             else svm_model dbn;
           problem := p |},
        make_quiet e).
Proof.
  intros samples p. split; [unfold samples; by rewrite length_fmap|].
  unfold svm_train, make_problem.
  rewrite make_samples_spec by done. rewrite drop_0.
  cbn [mbind outcome_bind mret outcome_ret app].
  fold samples. fold p. cbn [problem set_problem].
  by destruct (check F p parameters).
Qed.

(** X18. [svm_grid_search] builds the same problem, checks it against the
    default parameters of the header, whatever the caller has set
    elsewhere, and searches the grid only if the check passes. It leaves the
    model of the network and the flag [svm_loaded] as they were, and the
    file too. *)
Theorem svm_grid_search_keeps_the_model dbn (training_data : list input_t)
    (labels : list label_t) n_fold g e :
  let samples :=
    (λ x, activation_probabilities F (layers dbn) x (new_vector F (output_size F)))
      <$> training_data in
  let p := svm_make_problem F labels samples in
  ∃ e',
    svm_grid_search F dbn training_data labels n_fold g e =
      Done (check F p (default_svm_parameters F), set_problem dbn p, e') ∧
    quiet e' = true ∧ tmp_svm e' = tmp_svm e ∧
    console e' =
      console e ++
        (if check F p (default_svm_parameters F)
         then rbf_grid_search F p (default_svm_parameters F) n_fold g else []) ∧
    svm_type (default_svm_parameters F) = C_SVC F ∧
    kernel_type (default_svm_parameters F) = RBF F ∧
    others (default_svm_parameters F) = others (default_parameters F).
Proof.
  intros samples p. unfold svm_grid_search, make_problem.
  rewrite make_samples_spec by done. rewrite drop_0.
  cbn [mbind outcome_bind mret outcome_ret app].
  fold samples. fold p. cbn [problem set_problem].
  destruct (check F p (default_svm_parameters F)); eexists;
    (split; [reflexivity|]); cbn; by rewrite ?app_nil_r.
Qed.

End SvmFacts.

(** * Concrete runs *)

(** C1 fails as stated: one epoch over three samples with batches of two
    makes two calls of the trainer, not [3 / 2 = 1], and the second call
    receives the trailing sample. *)
Lemma remainder_is_trained_on :
  ∃ calls,
    (λ r, trainer_calls r.2) <$>
      result (train Stub.rand_next Stub.layer
                (Stub.configure Stub.plain_traits false false) 3 true 1
                (Stub.start 2 Stub.three Stub.three 0)) = Some calls ∧
    length calls ≠ 3 / 2 ∧
    last calls = Some ([[3%float]], [[3%float]]).
Proof.
  eexists. split; [vm_compute; reflexivity|].
  split; [vm_compute; lia|reflexivity].
Qed.

Lemma train_sub_trains_on_every_sample_witness :
  ∃ passed,
    (λ r, trainer_calls r.2) <$>
      result (train_sub Stub.layer (Stub.configure Stub.plain_traits false false)
                3 caller_input caller_expected 0%N new_context
                (set_batch_size (Stub.start 2 Stub.three Stub.three' 0) 2)) = Some passed ∧
    length passed = 2 ∧
    concat passed.*1 = Stub.three.
Proof.
  destruct (train_sub_trains_on_every_sample Stub.layer
              (Stub.configure Stub.plain_traits false false)
              3 caller_input caller_expected 0%N new_context
              (set_batch_size (Stub.start 2 Stub.three Stub.three' 0) 2))
    as (t & c & w & passed & Hrun & Hcalls & Hlen & Hcat & _);
    [done|vm_compute; lia|vm_compute; lia|].
  exists passed. rewrite Hrun. simpl. rewrite Hcalls.
  split; [reflexivity|]. split; [exact Hlen|exact Hcat].
Defined.

(** The generator of the instance ends within the number of its batches. *)
Lemma stub_exhausted_within fuel (g : Stub.generator) :
  length (Stub.gen_batches g) - Stub.cursor g ≤ fuel →
  exhausted_within Stub.generator_stub fuel g = true.
Proof.
  revert g. induction fuel as [|fuel IH]; intros g Hg; cbn [exhausted_within].
  - assert ((has_next_batch Stub.generator_stub g) = false) as ->; [|done].
    cbn. apply Nat.ltb_ge. lia.
  - destruct (has_next_batch Stub.generator_stub g) eqn:Hn; [|done].
    apply IH. cbn in *. apply Nat.ltb_lt in Hn. lia.
Qed.

Lemma stub_generator_ends fuel :
  ending_generator Stub.layer Stub.generator_stub fuel
    (λ g, length (Stub.gen_batches g) ≤ fuel).
Proof.
  split; try done. intros g Hg. apply stub_exhausted_within. lia.
Qed.

(** C2 fails as stated: a run of no epoch of a layer that declares
    [init_weights] changes its parameters. *)
Lemma init_weights_runs_without_epoch :
  ∃ e before after,
    (λ r, (r.1, weights (rbm r.2))) <$>
      result (train Stub.rand_next Stub.layer
                (Stub.configure Stub.all_traits false false) 0 true 0
                (Stub.start 2 Stub.three Stub.three 0)) = Some (e, after) ∧
    weights (rbm (Stub.start 2 Stub.three Stub.three 0)) = before ∧
    after ≠ before.
Proof.
  eexists _, _, _. split; [vm_compute; reflexivity|]. split; [reflexivity|]. done.
Qed.

Lemma train_zero_epochs_witness :
  ∃ w',
    train Stub.rand_next Stub.layer (Stub.configure Stub.plain_traits true false)
      0 true 0 (Stub.start 2 Stub.three Stub.three 0) = Done (0%float, w') ∧
    trainer_calls w' = [] ∧
    weights (rbm w') = 7%N.
Proof.
  destruct (train_zero_epochs Stub.rand_next Stub.layer Stub.generator_stub
              (Stub.configure Stub.plain_traits true false)
              (Stub.start 2 Stub.three Stub.three 0)) as [Hranges _]; [done|].
  apply (Hranges 0 true caller_input caller_expected); [by left|by right].
Defined.

(** The run of C3's failing input: one epoch over a generator of one batch
    of two samples, each of free energy 1. The error and the sparsity the
    watcher receives are those of the batch; the free energy is not the mean
    [1] but [2 / 0]. *)
Lemma generator_free_energy_is_not_a_mean :
  (λ r, watcher (this r.2)) <$>
    result (train_generator Stub.layer Stub.generator_stub
              (Stub.configure Stub.plain_traits true false) 1
              {| Stub.gen_batches := [(Stub.three, Stub.three)];
                 Stub.cursor := 0; Stub.train_mode := false |}
              1 (Stub.start 3 [] [] 0)) =
  Some [ training_begin (set_momentum (Stub.layer0 3) 0.5);
         epoch_end 0
           {| reconstruction_error := 1; sparsity := 0.5; free_energy := infinity;
              batch_error := 1; batch_sparsity := 0.5 |}
           (set_weights (set_momentum (Stub.layer0 3) 0.5) 8%N);
         training_end (set_weights (set_momentum (Stub.layer0 3) 0.5) 8%N) ].
Proof. vm_compute. reflexivity. Qed.

Lemma generator_epoch_divides_by_zero_witness :
  ∃ generator' trainer' context' w',
    train_epoch_generator Stub.layer Stub.generator_stub
      (Stub.configure Stub.plain_traits true false) 1 0
      {| Stub.gen_batches := [(Stub.three, Stub.three)];
         Stub.cursor := 0; Stub.train_mode := false |}
      0%N (set_batch_size (Stub.start 3 [] [] 0) 3) =
      Done (generator', trainer', context', w') ∧
    (free_energy context' = nan ∨ free_energy context' = infinity ∨
     free_energy context' = neg_infinity).
Proof.
  destruct (generator_epoch_divides_by_zero Stub.layer Stub.generator_stub
              (Stub.configure Stub.plain_traits true false) 1
              (λ g, length (Stub.gen_batches g) ≤ 1) 0
              {| Stub.gen_batches := [(Stub.three, Stub.three)];
                 Stub.cursor := 0; Stub.train_mode := false |}
              0%N (set_batch_size (Stub.start 3 [] [] 0) 3))
    as (g' & t' & c & w1 & _ & _ & Hrun & _ & Hdiv).
  - apply stub_generator_ends.
  - simpl. lia.
  - eexists _, _, _, _. split; [exact Hrun|exact Hdiv].
Defined.

Lemma momentum_switches_at_final_momentum_epoch_witness :
  (∃ e w',
     train Stub.rand_next Stub.layer (Stub.configure Stub.plain_traits false false)
       3 true 1 (Stub.start 2 Stub.three Stub.three 0) = Done (e, w') ∧
     momentum (rbm w') = 0.5%float) ∧
  (∃ e w',
     train Stub.rand_next Stub.layer (Stub.configure Stub.plain_traits false false)
       3 true 2 (Stub.start 2 Stub.three Stub.three 0) = Done (e, w') ∧
     momentum (rbm w') = 0.75%float) ∧
  (∃ input expected w1 trainer u trainer' context' u',
     train_epochs Stub.rand_next Stub.logging_layer
       (Stub.configure Stub.plain_traits false false) 3 1 input expected 0%N
       (get_trainer Stub.logging_layer w1) w1 = Done (trainer, u) ∧
     momentum (rbm u) = 0.5%float ∧
     train_epoch Stub.rand_next Stub.logging_layer
       (Stub.configure Stub.plain_traits false false) 3 input expected 1%N trainer u =
       Done (trainer', context', u') ∧
     trainer' = trainer ++ [0.5%float; 0.5%float] ∧
     momentum (rbm u') = 0.75%float).
Proof.
  destruct (momentum_switches_at_final_momentum_epoch Stub.rand_next Stub.uniform_real
              Stub.layer Stub.generator_stub
              (Stub.configure Stub.plain_traits false false)
              (Stub.start 2 Stub.three Stub.three 0)) as [Hranges _];
    [reflexivity|done|].
  split; [|split].
  - apply (Hranges 3 true caller_input caller_expected 1%N);
      [by left|by right|reflexivity|simpl; lia].
  - apply (Hranges 3 true caller_input caller_expected 2%N);
      [by left|by right|reflexivity|simpl; lia].
  - destruct (momentum_switches_at_final_momentum_epoch Stub.rand_next Stub.uniform_real
                Stub.logging_layer Stub.generator_stub
                (Stub.configure Stub.plain_traits false false)
                (Stub.start 2 Stub.three Stub.three 0)) as (_ & _ & _ & Hseen);
      [reflexivity|done|].
    destruct (Hseen (λ t, t)) as [Hlog _]; [by intros t r i e c|].
    destruct (Hlog 3 true caller_input caller_expected)
      as (input & expected & w1 & _ & _ & Hepochs);
      [by left|by right|reflexivity|simpl; lia|].
    destruct (Hepochs 1) as (t & u & t' & c' & u' & Hfirst & Hmu & Hstep & Hsaw & Hmu' & _).
    exists input, expected, w1, t, u, t', c', u'.
    split; [exact Hfirst|]. split; [exact Hmu|]. split; [exact Hstep|].
    split; [exact Hsaw|exact Hmu'].
Defined.

Lemma shuffle_keeps_pairs_together_witness :
  ∃ w',
    shuffle Stub.rand_next (Stub.configure Stub.all_traits false true)
      input_copy expected_copy
      (write (write (Stub.start 2 [] [] 5) input_copy Stub.three)
         expected_copy Stub.three') = Done w' ∧
    zip (ranges w' input_copy) (ranges w' expected_copy) ≡ₚ zip Stub.three Stub.three'.
Proof.
  destruct (shuffle_keeps_pairs_together Stub.rand_next
              (Stub.configure Stub.all_traits false true)
              (write (write (Stub.start 2 [] [] 5) input_copy Stub.three)
                 expected_copy Stub.three'))
    as (w' & Hrun & Hperm & _); [reflexivity|reflexivity|reflexivity|].
  exists w'. split; [exact Hrun|exact Hperm].
Defined.

Lemma train_without_shuffle_is_ordered_witness :
  ∃ e1 w1 e2 w2,
    train Stub.rand_next Stub.layer (Stub.configure Stub.plain_traits false false)
      3 true 2 (Stub.start 2 Stub.three Stub.three' 1) = Done (e1, w1) ∧
    train Stub.rand_next Stub.layer (Stub.configure Stub.plain_traits false false)
      3 true 2 (Stub.start 2 Stub.three Stub.three' 99) = Done (e2, w2) ∧
    trainer_calls w1 = trainer_calls w2.
Proof.
  destruct (train_without_shuffle_is_ordered Stub.rand_next Stub.layer
              (Stub.configure Stub.plain_traits false false)
              3 true caller_input caller_expected 2
              (Stub.start 2 Stub.three Stub.three' 1)
              (Stub.start 2 Stub.three Stub.three' 99))
    as (_ & e1 & w1 & e2 & w2 & Hrun1 & Hrun2 & Hc1 & Hc2 & _);
    [reflexivity|by left|by right|reflexivity|reflexivity|reflexivity|done|reflexivity
    |simpl; lia|].
  exists e1, w1, e2, w2. split; [exact Hrun1|]. split; [exact Hrun2|].
  rewrite Hc1, Hc2. reflexivity.
Defined.

(** C8 fails as stated: a run of [train] of a layer that does not shuffle,
    over iterators that are not random-access, prints no warning although
    the two samples of a batch do not divide the three samples. *)
Lemma no_warning_without_random_access :
  (3 mod 2 ≠ 0)%N ∧
  DLL_SILENT (Stub.configure Stub.plain_traits false false) = false ∧
  (λ r, cout r.2) <$>
    result (train Stub.rand_next Stub.layer
              (Stub.configure Stub.plain_traits false false) 3 false 2
              (Stub.start 2 Stub.three Stub.three 0)) = Some [].
Proof. split; [done|]. split; [reflexivity|]. vm_compute. reflexivity. Qed.

Lemma warning_is_printed_once_witness :
  ∃ e w',
    train Stub.rand_next Stub.layer (Stub.configure Stub.plain_traits false false)
      3 true 5 (Stub.start 2 Stub.three Stub.three 0) = Done (e, w') ∧
    cout w' = warning_lines.
Proof.
  destruct (warning_is_printed_once Stub.rand_next Stub.uniform_real
              Stub.layer Stub.generator_stub
              (Stub.configure Stub.plain_traits false false)
              (Stub.start 2 Stub.three Stub.three 0)) as [Hranges _]; [done|].
  apply (Hranges 3 true caller_input caller_expected 5%N);
    [by left|by right|reflexivity|simpl; lia|done].
Defined.

(** C9 fails as stated: with a noise of 1 every element is multiplied by
    [0.0], and the element that is an infinity becomes a NaN, not a zero. *)
Lemma corrupted_infinity_is_not_zero :
  (λ r, trainer_calls r.2) <$>
    result (train_denoising_auto Stub.rand_next Stub.uniform_real Stub.layer
              (Stub.configure Stub.plain_traits false false) 1 1 1
              (Stub.start 1 [[infinity; 2]]%float [] 0)) =
  Some [([[nan; 0]], [[infinity; 2]])]%float ∧
  nan ≠ 0%float ∧ nan ≠ (-0)%float.
Proof.
  split; [vm_compute; reflexivity|].
  split; intros H; apply (f_equal Prim2SF) in H; vm_compute in H; discriminate.
Qed.

Lemma denoising_auto_corrupts_afresh_witness :
  ∃ corrupted trainer' context' w',
    train_epoch_denoising_auto Stub.rand_next Stub.uniform_real Stub.layer
      (Stub.configure Stub.plain_traits false false) 3 1 0 0%N
      (set_batch_size
         (write (write (Stub.start 2 [] [] 0) input_clean Stub.three)
            input_copy Stub.three') 2) = Done (trainer', context', w') ∧
    ranges w' input_copy = corrupted ∧
    concat corrupted =
      zip_with (mask 1) (concat Stub.three) (draws Stub.uniform_real 3 0%N).1.
Proof.
  destruct (denoising_auto_corrupts_afresh Stub.rand_next Stub.uniform_real Stub.layer
              (Stub.configure Stub.plain_traits false false) 3 1 0 0%N
              (set_batch_size
                 (write (write (Stub.start 2 [] [] 0) input_clean Stub.three)
                    input_copy Stub.three') 2))
    as (corrupted & t' & c' & w' & _ & _ & Hcat & Hrun & _ & Hcopy & _);
    [done|reflexivity|simpl; lia|].
  exists corrupted, t', c', w'. split; [exact Hrun|]. split; [exact Hcopy|exact Hcat].
Defined.

Lemma train_leaves_caller_ranges_witness :
  ∃ e w',
    train Stub.rand_next Stub.layer (Stub.configure Stub.all_traits false true)
      3 true 4 (Stub.start 2 Stub.three Stub.three' 7) = Done (e, w') ∧
    ranges w' caller_input = Stub.three ∧
    ranges w' caller_expected = Stub.three'.
Proof.
  destruct (train_leaves_caller_ranges Stub.rand_next Stub.layer
              (Stub.configure Stub.all_traits false true)
              3 true caller_input caller_expected 4
              (Stub.start 2 Stub.three Stub.three' 7))
    as (w0 & e & w' & _ & _ & _ & Hrun & Hin & Hex);
    [reflexivity|by left|by right|done|reflexivity|simpl; lia|].
  exists e, w'. split; [exact Hrun|]. split; [exact Hin|exact Hex].
Defined.

Lemma train_notifies_in_order_witness :
  ∃ e w' body,
    train Stub.rand_next Stub.layer (Stub.configure Stub.all_traits true false)
      3 true 2 (Stub.start 2 Stub.three Stub.three' 7) = Done (e, w') ∧
    watcher (this w') =
      training_begin (set_momentum (Stub.layer0 2) 0.5) :: body ++ [training_end (rbm w')] ∧
    epoch_ends body = [0; 1]%N ∧
    length (filter (λ ev, is_batch_end ev = true) body) = 4.
Proof.
  destruct (train_notifies_in_order Stub.rand_next Stub.layer
              (Stub.configure Stub.all_traits true false)
              3 true caller_input caller_expected 2
              (Stub.start 2 Stub.three Stub.three' 7))
    as (e & w' & Hrun & _ & Hon);
    [by left|by right|done|reflexivity|simpl; lia|].
  destruct (Hon eq_refl) as (body & Hw & _ & Hends & Hcount).
  exists e, w', body. split; [exact Hrun|]. split; [exact Hw|].
  split; [exact Hends|exact Hcount].
Defined.

Lemma batch_notifications_are_numbered_witness :
  ∃ e w' evs rest,
    train Stub.rand_next Stub.layer (Stub.configure Stub.all_traits true false)
      3 true 2 (Stub.start 2 Stub.three Stub.three' 7) = Done (e, w') ∧
    watcher (this w') =
      training_begin (set_momentum (Stub.layer0 2) 0.5) :: evs ++ rest ∧
    length evs = 2 ∧
    ∃ r c, evs !! 1 = Some (batch_end r c 2%N 1%N).
Proof.
  destruct (batch_notifications_are_numbered Stub.rand_next Stub.layer
              (Stub.configure Stub.all_traits true false)
              3 true caller_input caller_expected 2
              (Stub.start 2 Stub.three Stub.three' 7))
    as (e & w' & evs & rest & Hrun & Hw & Hn & _ & Hlast);
    [reflexivity|reflexivity|by left|by right|done|reflexivity|simpl; lia|reflexivity|lia|].
  exists e, w', evs, rest. split; [exact Hrun|]. split; [exact Hw|].
  split; [exact Hn|]. apply Hlast; [vm_compute; lia|reflexivity].
Defined.

Lemma every_epoch_trains_on_every_pair_witness :
  ∃ e w' epochs,
    train Stub.rand_next Stub.layer (Stub.configure Stub.all_traits false true)
      3 true 4 (Stub.start 2 Stub.three Stub.three' 7) = Done (e, w') ∧
    trainer_calls w' = concat epochs ∧
    length epochs = 4 ∧
    Forall (λ passed,
      length passed = 2 ∧
      zip (concat passed.*1) (concat passed.*2) ≡ₚ zip Stub.three Stub.three') epochs.
Proof.
  destruct (every_epoch_trains_on_every_pair Stub.rand_next Stub.layer
              (Stub.configure Stub.all_traits false true)
              3 true caller_input caller_expected 4
              (Stub.start 2 Stub.three Stub.three' 7))
    as (e & w' & epochs & Hrun & Hc & Hn & Hall);
    [by left|by right|done|reflexivity|simpl; lia|].
  exists e, w', epochs. split; [exact Hrun|]. split; [exact Hc|].
  split; [exact Hn|exact Hall].
Defined.

Lemma train_single_expects_its_input_witness :
  ∃ e w' passed,
    train_single Stub.rand_next Stub.layer (Stub.configure Stub.all_traits false true)
      3 true 4 (Stub.start 2 Stub.three Stub.three' 7) = Done (e, w') ∧
    trainer_calls w' = passed ∧
    Forall (λ b, b.1 = b.2) passed.
Proof.
  destruct (train_single_expects_its_input Stub.rand_next Stub.layer
              (Stub.configure Stub.all_traits false true)
              3 true 4 (Stub.start 2 Stub.three Stub.three' 7))
    as (e & w' & passed & Hrun & Hc & Hall); [done|simpl; lia|].
  exists e, w', passed. split; [exact Hrun|]. split; [exact Hc|exact Hall].
Defined.

Lemma zero_batch_size_is_undefined_witness :
  train Stub.rand_next Stub.layer (Stub.configure Stub.all_traits false false)
    3 false 1 (Stub.start 0 Stub.three Stub.three' 7) = Undefined ∧
  train_generator Stub.layer Stub.generator_stub
    (Stub.configure Stub.plain_traits false false) 3
    {| Stub.gen_batches := [(Stub.three, Stub.three')]; Stub.cursor := 0;
       Stub.train_mode := false |} 1
    (Stub.start 0 Stub.three Stub.three' 7) = Undefined.
Proof.
  split.
  - apply (zero_batch_size_is_undefined Stub.rand_next Stub.uniform_real Stub.layer
             Stub.generator_stub (Stub.configure Stub.all_traits false false)
             (Stub.start 0 Stub.three Stub.three' 7));
      [reflexivity|by left|by right|reflexivity].
  - apply (zero_batch_size_is_undefined Stub.rand_next Stub.uniform_real Stub.layer
             Stub.generator_stub (Stub.configure Stub.plain_traits false false)
             (Stub.start 0 Stub.three Stub.three' 7)).
    reflexivity.
Defined.

Lemma zero_batch_size_never_returns_witness :
  train Stub.rand_next Stub.layer (Stub.configure Stub.plain_traits false false)
    1000 false 1 (Stub.start 0 Stub.three Stub.three' 7) = OutOfFuel.
Proof.
  apply (zero_batch_size_never_returns Stub.rand_next Stub.layer
           (Stub.configure Stub.plain_traits false false)
           1000 caller_input caller_expected 1
           (Stub.start 0 Stub.three Stub.three' 7));
    [reflexivity|reflexivity|by left|by right|done|lia].
Defined.

(** The trainer of the instance writes no accumulator. *)
Lemma stub_keeps_accumulators : keeps_accumulators Stub.layer.
Proof. by intros trainer r input expected context. Qed.

Lemma train_returns_last_epoch_error_witness :
  ∃ e w',
    train Stub.rand_next Stub.layer (Stub.configure Stub.all_traits true false)
      3 true 2 (Stub.start 2 Stub.three Stub.three' 7) = Done (e, w') ∧
    last_error (this w') = e.
Proof.
  destruct (train_returns_last_epoch_error Stub.rand_next Stub.layer
              (Stub.configure Stub.all_traits true false)
              3 true caller_input caller_expected 2
              (Stub.start 2 Stub.three Stub.three' 7))
    as (input & expected & w1 & t & u & t' & c' & u' & e & w' & _ & _ & _ & Hrun & _ & He);
    [by left|by right|done|reflexivity|simpl; lia|lia|].
  exists e, w'. split; [exact Hrun|exact He].
Defined.

Lemma epoch_reports_means_witness :
  ∃ trainer' context' w',
    train_epoch Stub.rand_next Stub.layer (Stub.configure Stub.plain_traits true false)
      3 caller_input caller_expected 0 0%N
      (set_batch_size (Stub.start 2 Stub.three Stub.three' 0) 2) =
      Done (trainer', context', w') ∧
    reconstruction_error context' = 1%float ∧
    sparsity context' = 0.5%float.
Proof.
  destruct (epoch_reports_means Stub.rand_next Stub.layer
              (Stub.configure Stub.plain_traits true false)
              3 caller_input caller_expected 0 0%N
              (set_batch_size (Stub.start 2 Stub.three Stub.three' 0) 2)
              stub_keeps_accumulators)
    as (w1 & t' & c' & w' & Hsh & Hrun & _ & Hre & Hsp & _);
    [done|reflexivity|simpl; lia|reflexivity|].
  injection Hsh as <-.
  exists t', c', w'. split; [exact Hrun|]. split; [exact Hre|exact Hsp].
Defined.

Lemma train_on_no_sample_witness :
  ∃ w',
    train Stub.rand_next Stub.layer (Stub.configure Stub.all_traits true true)
      0 true 3 (Stub.start 2 [] [] 7) = Done (nan, w') ∧
    trainer_calls w' = [].
Proof.
  apply (train_on_no_sample Stub.rand_next Stub.layer
           (Stub.configure Stub.all_traits true true)
           0 true caller_input caller_expected 3 (Stub.start 2 [] [] 7));
    [by left|by right|done|reflexivity|reflexivity|lia].
Defined.

Lemma denoising_auto_expects_the_clean_samples_witness :
  ∃ e w' epochs,
    train_denoising_auto Stub.rand_next Stub.uniform_real Stub.layer
      (Stub.configure Stub.all_traits false false) 3 2 0.25
      (Stub.start 2 Stub.three Stub.three' 7) = Done (e, w') ∧
    trainer_calls w' = concat epochs ∧
    length epochs = 2 ∧
    Forall (λ passed, concat passed.*2 ≡ₚ Stub.three) epochs ∧
    ranges w' caller_input = Stub.three.
Proof.
  destruct (denoising_auto_expects_the_clean_samples Stub.rand_next Stub.uniform_real
              Stub.layer (Stub.configure Stub.all_traits false false) 3 2 0.25
              (Stub.start 2 Stub.three Stub.three' 7))
    as (e & w' & epochs & Hrun & Hc & Hn & Hall & Hcaller);
    [reflexivity|done|simpl; lia|].
  exists e, w', epochs. split; [exact Hrun|]. split; [exact Hc|]. split; [exact Hn|].
  split.
  - eapply Forall_impl; [exact Hall|]. intros p (_ & Hp & _). exact Hp.
  - apply Hcaller. by left.
Defined.

Lemma momentum_stays_initial_without_support_witness :
  ∃ e w',
    train Stub.rand_next Stub.layer
      (Stub.configure
         {| has_shuffle := true; has_momentum := false; has_init_weights := true;
            has_free_energy := true; is_verbose := true |} false false)
      3 true 5 (Stub.start 2 Stub.three Stub.three' 7) = Done (e, w') ∧
    momentum (rbm w') = 0.5%float.
Proof.
  destruct (momentum_stays_initial_without_support Stub.rand_next Stub.uniform_real
              Stub.layer Stub.generator_stub
              (Stub.configure
                 {| has_shuffle := true; has_momentum := false; has_init_weights := true;
                    has_free_energy := true; is_verbose := true |} false false)
              (Stub.start 2 Stub.three Stub.three' 7)) as [Hranges _];
    [reflexivity|done|].
  apply (Hranges 3 true caller_input caller_expected 5%N);
    [by left|by right|reflexivity|simpl; lia].
Defined.

Lemma generator_epoch_trains_on_yielded_witness :
  ∃ generator' trainer' context' w',
    train_epoch_generator Stub.layer Stub.generator_stub
      (Stub.configure Stub.all_traits true false) 2 0
      {| Stub.gen_batches := [([[1%float]], [[2%float]]); ([[3%float]], [[4%float]])];
         Stub.cursor := 1; Stub.train_mode := false |} 0%N
      (Stub.start 1 [] [] 7) = Done (generator', trainer', context', w') ∧
    trainer_calls w' = [([[1%float]], [[2%float]]); ([[3%float]], [[4%float]])] ∧
    batches (this w') = 2%N.
Proof.
  destruct (generator_epoch_trains_on_yielded Stub.layer Stub.generator_stub
              (Stub.configure Stub.all_traits true false) 2
              (λ g, length (Stub.gen_batches g) ≤ 2) 0
              {| Stub.gen_batches := [([[1%float]], [[2%float]]); ([[3%float]], [[4%float]])];
                 Stub.cursor := 1; Stub.train_mode := false |} 0%N
              (Stub.start 1 [] [] 7))
    as (g' & t' & c' & w' & Hrun & _ & Hc & Hb);
    [apply stub_generator_ends|simpl; lia|].
  exists g', t', c', w'. split; [exact Hrun|]. split; [exact Hc|exact Hb].
Defined.

(** The instance writes a [bool] as one character and reads it back. *)
Lemma stub_bool_round_trip : bool_round_trip SvmStub.ops.
Proof. split; [done|]. by intros [] rest. Qed.

Lemma svm_store_writes_flag_and_model_witness :
  svm_store SvmStub.ops 3 (SvmStub.network true (replicate 1500 x2a)) [x07]
    SvmStub.nothing =
  Done (x07 :: x01 :: replicate 1500 x2a,
        with_tmp_svm SvmStub.nothing (replicate 1500 x2a)).
Proof.
  apply (svm_store_writes_flag_and_model SvmStub.ops 3
           (SvmStub.network true (replicate 1500 x2a)) [x07] SvmStub.nothing).
  vm_compute. lia.
Defined.

Lemma svm_load_restores_what_svm_store_wrote_witness :
  ∃ os e1 dbn' ins' e2,
    svm_store SvmStub.ops 3 (SvmStub.network true (replicate 1500 x2a)) []
      SvmStub.nothing = Done (os, e1) ∧
    svm_load SvmStub.ops 3 (SvmStub.network false []) {| content := os; good := true |} e1 =
      Done (dbn', ins', e2) ∧
    svm_loaded dbn' = true ∧
    svm_model dbn' = replicate 1500 x2a.
Proof.
  destruct (svm_load_restores_what_svm_store_wrote SvmStub.ops 3
              (SvmStub.network true (replicate 1500 x2a)) (SvmStub.network false [])
              SvmStub.nothing stub_bool_round_trip)
    as (os & e1 & dbn' & ins' & e2 & Hstore & Hload & Hflag & _ & _ & Hmodel & _);
    [vm_compute; lia|].
  exists os, e1, dbn', ins', e2. split; [exact Hstore|]. split; [exact Hload|].
  split; [exact Hflag|]. exact (proj1 (Hmodel eq_refl)).
Defined.

Lemma svm_load_takes_the_rest_of_the_stream_witness :
  ∃ os e1 dbn' ins' e2,
    svm_store SvmStub.ops 3 (SvmStub.network true [x2a; x2b]) []
      SvmStub.nothing = Done (os, e1) ∧
    svm_load SvmStub.ops 3 (SvmStub.network false [])
      {| content := os ++ [x63; x64]; good := true |} e1 = Done (dbn', ins', e2) ∧
    svm_model dbn' = [x2a; x2b; x63; x64] ∧
    ins' = {| content := []; good := false |}.
Proof.
  destruct (svm_load_takes_the_rest_of_the_stream SvmStub.ops 3 3
              (SvmStub.network true [x2a; x2b]) (SvmStub.network false [])
              [x63; x64] SvmStub.nothing stub_bool_round_trip)
    as (os & e1 & dbn' & ins' & e2 & Hstore & Hload & Hon & _);
    [vm_compute; lia|vm_compute; lia|].
  destruct (Hon eq_refl) as (Hmodel & _ & Hins).
  exists os, e1, dbn', ins', e2. split; [exact Hstore|]. split; [exact Hload|].
  split; [exact Hmodel|exact Hins].
Defined.

